(** * cookie-crawler: presence probe, consent extractor and cookie-consent matcher

    A shallow embedding of
      - [src/crawlers/presence_crawler.py]  (modules [PresenceCrawler],
        [ProbeCall], [PresencePool], [PoolRun]),
      - [src/crawlers/consent_crawler.py]   (module [ConsentCrawler]),
      - [src/database/extract_cookies.py]   (module [CookieExtractor]),
      - [src/database/post_process.py], [src/analysis/cookie_stats.py] and
        [domain_collection/filter_duplicate_netlocs.py],
    together with the properties of the specification that concern them.

    Conventions.  Python [str] values are modelled as [string], a sequence of
    8-bit characters; the model is that of ASCII text, on which [str.lower()],
    [str.strip()] and [re.IGNORECASE] do what is written here.  Python's
    strings are Unicode, and outside ASCII the three do more (see
    [AsciiText]); a statement that is only true of ASCII text says so with
    [AsciiText.isascii].  [Optional[str]] and nullable SQL columns are
    [option string].  The integer codes of the export are [Z].  The network,
    the browser, the worker pool and the clock are not part of the program:
    they enter as explicit arguments (oracles). *)

From Stdlib Require Import String Ascii List ZArith Bool Lia Arith Sorted Permutation.
From Stdlib Require OrderedTypeEx.
Import ListNotations.
Local Open Scope string_scope.

(** ** Python string primitives *)

Module PyStr.

(** [c.lower()] on one ASCII character; any other character is left as it
    is. *)
Definition lower_ascii (c : ascii) : ascii :=
  let n := nat_of_ascii c in
  if (65 <=? n)%nat && (n <=? 90)%nat then ascii_of_nat (n + 32) else c.

(** [s.lower()] of ASCII text. *)
Fixpoint lower (s : string) : string :=
  match s with
  | EmptyString => EmptyString
  | String c t => String (lower_ascii c) (lower t)
  end.

(** [s.startswith(p)] *)
Fixpoint startswith (p s : string) : bool :=
  match p, s with
  | EmptyString, _ => true
  | String _ _, EmptyString => false
  | String a p', String b s' => Ascii.eqb a b && startswith p' s'
  end.

(** [needle in hay] *)
Fixpoint contains (needle hay : string) : bool :=
  startswith needle hay ||
  match hay with
  | EmptyString => false
  | String _ t => contains needle t
  end.

(** [any(term in s for term in terms)] *)
Definition any_in (terms : list string) (s : string) : bool :=
  existsb (fun term => contains term s) terms.

(** Truthiness of an [Optional[str]]: [None] and [""] are falsy. *)
Definition truthy (o : option string) : bool :=
  match o with
  | None => false
  | Some EmptyString => false
  | Some _ => true
  end.

(** [o or default] for an [Optional[str]]. *)
Definition or_default (o : option string) (d : string) : string :=
  match o with
  | None => d
  | Some EmptyString => d
  | Some s => s
  end.

(** [s.strip()]: white space is removed at both ends.  The white space of
    ASCII is meant (the codes 9-13 and 28-32). *)
Definition is_space (c : ascii) : bool :=
  let n := nat_of_ascii c in
  ((9 <=? n)%nat && (n <=? 13)%nat) || ((28 <=? n)%nat && (n <=? 32)%nat).

Fixpoint lstrip (s : string) : string :=
  match s with
  | EmptyString => EmptyString
  | String c t => if is_space c then lstrip t else s
  end.

Fixpoint rstrip (s : string) : string :=
  match s with
  | EmptyString => EmptyString
  | String c t =>
      match rstrip t with
      | EmptyString => if is_space c then EmptyString else String c EmptyString
      | t' => String c t'
      end
  end.

Definition strip (s : string) : string := rstrip (lstrip s).

(** [re.sub(r"^www\.", "", s)] *)
Definition strip_www (s : string) : string :=
  if startswith "www." s then substring 4 (String.length s - 4) s else s.

End PyStr.

(** ** Regular expressions: the fragment used by the fingerprint patterns *)

Module Re.
Import PyStr.

(** Literal characters, concatenation and alternation; every pattern of
    [presence_crawler.py] is compiled with [re.IGNORECASE]. *)
Inductive regex : Type :=
| Eps : regex
| Chr : ascii -> regex
| Cat : regex -> regex -> regex
| Alt : regex -> regex -> regex.

(** A literal piece of a pattern. *)
Fixpoint lit (s : string) : regex :=
  match s with
  | EmptyString => Eps
  | String c t => Cat (Chr c) (lit t)
  end.

(** All ways of matching [r] at the start of [s], case-insensitively: the
    list of remainders.  A literal matches the characters that differ from it
    in ASCII case only, which is what [re.IGNORECASE] does on ASCII text. *)
Fixpoint match_prefix (r : regex) (s : string) : list string :=
  match r with
  | Eps => [s]
  | Chr c =>
      match s with
      | String d t => if Ascii.eqb (lower_ascii c) (lower_ascii d) then [t] else []
      | EmptyString => []
      end
  | Cat r1 r2 => flat_map (match_prefix r2) (match_prefix r1 s)
  | Alt r1 r2 => (match_prefix r1 s ++ match_prefix r2 s)%list
  end.

Definition matches_at (r : regex) (s : string) : bool :=
  match match_prefix r s with [] => false | _ => true end.

(** [pattern.search(s) is not None] *)
Fixpoint search (r : regex) (s : string) : bool :=
  matches_at r s ||
  match s with
  | EmptyString => false
  | String _ t => search r t
  end.

(** The finite language of a pattern, as written (before case folding). *)
Fixpoint lang (r : regex) : list string :=
  match r with
  | Eps => [EmptyString]
  | Chr c => [String c EmptyString]
  | Cat r1 r2 => flat_map (fun x => map (fun y => x ++ y) (lang r2)) (lang r1)
  | Alt r1 r2 => (lang r1 ++ lang r2)%list
  end.

End Re.

(** ** The persisted schema (created by [ConsentCrawler.init_database]) *)

Module Schema.
Local Open Scope Z_scope.

(** [crawl_results(id, domain, timestamp, success, cmp_type,
    cookies_collected, error_message)] *)
Record CrawlRecord := {
  cr_id : Z;
  cr_domain : string;
  cr_timestamp : string;
  cr_success : bool;
  cr_cmp_type : option string;
  cr_cookies_collected : Z;
  cr_error_message : option string
}.

(** [cookies(id, crawl_id, name, domain, value, path, expiry, secure,
    http_only, same_site)]; only [name] and [domain] are [NOT NULL]. *)
Record CookieRow := {
  c_crawl_id : option Z;
  c_name : string;
  c_domain : string;
  c_value : option string;
  c_path : option string;
  c_expiry : option string;
  c_secure : option Z;
  c_http_only : option Z;
  c_same_site : option string
}.

(** [consent_data(id, crawl_id, cookie_name, cookie_domain,
    purpose_category, purpose_description, cmp_type)] *)
Record ConsentRow := {
  cd_crawl_id : option Z;
  cd_cookie_name : string;
  cd_cookie_domain : string;
  cd_purpose_category : option string;
  cd_purpose_description : option string;
  cd_cmp_type : option string
}.

(** The database: the three tables in rowid order, and the AUTOINCREMENT
    counter of [crawl_results] (the largest id handed out so far). *)
Record Store := {
  crawl_results : list CrawlRecord;
  cookies : list CookieRow;
  consent_data : list ConsentRow;
  crawl_seq : Z
}.

End Schema.

(** ** The presence probe: [presence_crawler.py] *)

Module PresenceCrawler.
Import PyStr Re.

(** Cookiebot CDN domain patterns *)
Definition cb_base_pat : regex :=
  Cat (lit "https://consent.cookiebot.") (Cat (Alt (lit "com") (lit "eu")) (lit "/")).
Definition cb_script_name : regex := lit "cb-main.js".

(** OneTrust CDN patterns *)
Definition onetrust_patterns : list regex :=
  [ lit "https://cdn-apac.onetrust.com";
    lit "https://cdn-ukwest.onetrust.com";
    lit "https://cmp-cdn.cookielaw.org";
    lit "https://cdn.cookielaw.org";
    lit "https://optanon.blob.core.windows.net";
    lit "https://cookie-cdn.cookiepro.com";
    lit "https://cookiepro.blob.core.windows.net" ].

(** Termly CDN domain *)
Definition termly_url_pattern : regex := lit "https://app.termly.io/".

Inductive QuickCrawlResult : Type :=
| CRAWL_TIMEOUT | OK | CONNECT_FAIL | HTTP_ERROR | BOT
| NOCMP | COOKIEBOT | ONETRUST | TERMLY.

(** The [IntEnum] values. *)
Definition code (q : QuickCrawlResult) : Z :=
  match q with
  | CRAWL_TIMEOUT => -1 | OK => 0 | CONNECT_FAIL => 1 | HTTP_ERROR => 2
  | BOT => 3 | NOCMP => 4 | COOKIEBOT => 5 | ONETRUST => 6 | TERMLY => 7
  end%Z.

(** What the probe reads of a [requests.Response]. *)
Record Response := {
  status_code : Z;
  url : string;
  text : string
}.

(** [r.ok]: [raise_for_status()] raises for the codes 400..599. *)
Definition ok (r : Response) : bool :=
  negb ((400 <=? status_code r)%Z && (status_code r <? 600)%Z).

(** The outcome of one [requests.get], by the [except] clause that receives
    it (the clauses are tried in this order). *)
Inductive GetOutcome : Type :=
| RaisesSslOrSchema   (* TooManyRedirects, SSLError, URLRequired, MissingSchema *)
| RaisesConnOrTimeout (* any other ConnectionError, Timeout *)
| RaisesOther         (* any other Exception *)
| Returns (r : Response).

Definition check_cookiebot_presence (resp : Response) : bool :=
  let psource := text resp in
  search cb_base_pat psource || search cb_script_name psource.

Definition check_onetrust_presence (resp : Response) : bool :=
  let psource := text resp in
  existsb (fun pattern => search pattern psource) onetrust_patterns.

Definition check_termly_presence (resp : Response) : bool :=
  let psource := text resp in
  search termly_url_pattern psource.

(** How the [for prefix in prefix_list] loop is left. *)
Inductive LoopExit : Type :=
| Returned (final : string) (q : QuickCrawlResult)   (* a [return] inside the loop *)
| Broke (final_url : string) (r : Response)          (* [break] after a 2xx/3xx answer *)
| Exhausted.                                         (* the list ran out *)

Section Probe.

(** The body of [run_reachability_check] from source line 104 on, that is
    once [urlparse(input_domain)] has returned: [scheme] gives the [.scheme]
    of the parse.  ([urlparse] can also raise; the whole call, with that case,
    is [ProbeCall.run_reachability_check].)  [requests.get(url, timeout=(20,
    30), headers=...)] is a library call; [check_cmp] is the module-level flag
    (set to [True]). *)
Variable scheme : string -> string.
Variable get : string -> GetOutcome.
Variable check_cmp : bool.

Definition has_http_scheme (input_domain : string) : bool :=
  String.eqb (scheme input_domain) "http" || String.eqb (scheme input_domain) "https".

Definition url_suffix (input_domain : string) : string :=
  if has_http_scheme input_domain then input_domain else strip_www input_domain.

Definition prefix_list (input_domain : string) : list string :=
  if has_http_scheme input_domain then [""] else ["https://www."; "https://"; "http://"].

(** The loop, with the URLs handed to [requests.get] on the way.  [r] is only
    assigned when [requests.get] returns, and the loop is then left at once,
    so [r] is still [None] whenever the loop continues. *)
Fixpoint try_prefixes (input_domain suffix : string) (prefixes : list string)
  : list string * LoopExit :=
  match prefixes with
  | [] => ([], Exhausted)
  | prefix :: rest =>
      let completed_url := prefix ++ suffix in
      match get completed_url with
      | RaisesSslOrSchema => ([completed_url], Returned input_domain CONNECT_FAIL)
      | RaisesConnOrTimeout =>
          let (attempts, exit) := try_prefixes input_domain suffix rest in
          (completed_url :: attempts, exit)
      | RaisesOther => ([completed_url], Returned input_domain CONNECT_FAIL)
      | Returns r =>
          if negb (ok r) then
            if (status_code r =? 403)%Z || (status_code r =? 406)%Z
            then ([completed_url], Returned completed_url BOT)
            else ([completed_url], Returned completed_url HTTP_ERROR)
          else ([completed_url], Broke (url r) r)
      end
  end.

(** The [if]/[elif] chain over the three checks (source lines 152-159). *)
Definition classify_content (r : Response) : QuickCrawlResult :=
  if check_cookiebot_presence r then COOKIEBOT
  else if check_onetrust_presence r then ONETRUST
  else if check_termly_presence r then TERMLY
  else NOCMP.

(** [run_reachability_check] after the parse, with the list of attempted
    URLs. *)
Definition run_reachability_check_trace (input_domain : string)
  : list string * (string * QuickCrawlResult) :=
  let (attempts, exit) :=
    try_prefixes input_domain (url_suffix input_domain) (prefix_list input_domain) in
  (attempts,
   match exit with
   | Returned final q => (final, q)
   | Broke final_url r =>
       if check_cmp then (final_url, classify_content r) else (final_url, OK)
   | Exhausted => (input_domain, CONNECT_FAIL)
   end).

Definition attempts (input_domain : string) : list string :=
  fst (run_reachability_check_trace input_domain).

Definition run_reachability_check (input_domain : string) : string * QuickCrawlResult :=
  snd (run_reachability_check_trace input_domain).

End Probe.

End PresenceCrawler.

(** ** The consent extractor: [consent_crawler.py] *)

Module ConsentCrawler.
Import PyStr Schema.

(** Exceptions, by the [except] clause of [crawl_domain] that receives them;
    [msg] is [str(e)]. *)
Inductive exn : Type :=
| TimeoutException (msg : string)
| OtherException (msg : string).

Definition str (e : exn) : string :=
  match e with TimeoutException m => m | OtherException m => m end.

Inductive res (A : Type) : Type :=
| Ok (a : A)
| Raise (e : exn).
Arguments Ok {A} a.
Arguments Raise {A} e.

(** One declaration scraped from the page (the [dict] built by the
    CMP-specific scrapers). *)
Record Consent := {
  consent_name : string;
  consent_domain : string;
  consent_category : string;
  consent_purpose : string;
  consent_cmp : string
}.

(** [CrawlResult] *)
Record CrawlResult := {
  domain : string;
  success : bool;
  cmp_type : string;
  cookies_collected : Z;
  consent_data : list Consent;
  error_message : option string
}.

(** A cookie as [driver.get_cookies()] reports it. *)
Record BrowserCookie := {
  bc_name : string;
  bc_domain : string;
  bc_value : string;
  bc_path : string
}.

(** What the Cookiebot scraper reads of one [[data-cookiefirst-category]]
    element (three [get_attribute] calls and [text]). *)
Record CookiebotElement := {
  cb_attr_name : option string;
  cb_attr_domain : option string;
  cb_attr_category : option string;
  cb_text : string
}.

(** What the OneTrust scraper reads of one [.ot-sdk-cookie] element: the
    [text] of the three children that it looks up with
    [element.find_element], and the [data-domain] attribute. *)
Record OneTrustElement := {
  ot_name_text : string;
  ot_category_text : string;
  ot_attr_domain : option string;
  ot_purpose_text : string
}.

(** A candidate accept control. *)
Record Button := {
  is_displayed : res bool;
  is_enabled : res bool;
  click : res unit
}.

(** One browser session, as far as [crawl_domain] observes it.  [get_cookies]
    depends on whether the accept control has been clicked.  An element of
    [cookiebot_elements] or [onetrust_elements] is [Raise] when one of the
    reads on it raises (the inner [try] then skips the element). *)
Record Browser := {
  create_driver : res unit;
  driver_get : string -> res unit;
  wait_ready : res unit;
  page_source : res string;
  cookiebot_elements : res (list (res CookiebotElement));
  onetrust_elements : res (list (res OneTrustElement));
  get_cookies : bool -> res (list BrowserCookie);
  find_element : string -> res Button;
  quit : res unit
}.

(** The calls that [crawl_domain] and its helpers make on the driver, in the
    order they are issued, with the click and the sleep of the accept loop:
    [create_driver()], [driver.get(url)], the [WebDriverWait(driver,
    15).until(...)] statement (one event, however often it polls),
    [driver.page_source], [driver.find_elements(By.CSS_SELECTOR, selector)]
    of a scraper, [driver.get_cookies()], [driver.find_element(By.CSS_SELECTOR,
    selector)] of the accept loop, [button.click()], [time.sleep(seconds)] and
    [driver.quit()].  What is read from an element that a lookup returned
    ([get_attribute], [text], [element.find_element] in the OneTrust scraper,
    [is_displayed], [is_enabled]) is not an event: its outcome is part of the
    element's record. *)
Inductive event : Type :=
| EvCreateDriver
| EvGet (url : string)
| EvWaitReady
| EvPageSource
| EvFindElements (selector : string)
| EvGetCookies
| EvFindElement (selector : string)
| EvClick (selector : string)
| EvSleep (seconds : nat)
| EvQuit.

(** Computations that issue browser calls and may raise. *)
Definition M (A : Type) : Type := list event * res A.

Definition ret {A} (a : A) : M A := ([], Ok a).

Definition bind {A B} (m : M A) (k : A -> M B) : M B :=
  match m with
  | (t, Ok a) => let (t', r) := k a in ((t ++ t')%list, r)
  | (t, Raise e) => (t, Raise e)
  end.

(** A browser call: its event, then its outcome. *)
Definition call {A} (ev : event) (r : res A) : M A := ([ev], r).

(** [try: m except Exception as e: h e] *)
Definition try_except {A} (m : M A) (h : exn -> M A) : M A :=
  match m with
  | (t, Ok a) => (t, Ok a)
  | (t, Raise e) => let (t', r) := h e in ((t ++ t')%list, r)
  end.

Notation "x <- m ;; k" := (bind m (fun x => k))
  (at level 61, m at next level, right associativity).
Notation "m ;;; k" := (bind m (fun _ => k))
  (at level 61, right associativity).

(** The checks of [detect_cmp_type] on the page source once it is read. *)
Definition cmp_of_page_source (src : string) : string :=
  let page_source := lower src in
  if contains "cookiebot" page_source || contains "consent.cookiebot" page_source
  then "cookiebot"
  else if any_in ["onetrust"; "cookielaw"; "optanon"; "cookiepro"] page_source
  then "onetrust"
  else if contains "termly" page_source || contains "app.termly.io" page_source
  then "termly"
  else "unknown".

Definition detect_cmp_type (b : Browser) : M string :=
  try_except
    (src <- call EvPageSource (page_source b) ;;
     ret (cmp_of_page_source src))
    (fun _ => ret "error").

Definition collect_cookies (b : Browser) (clicked : bool) : M (list BrowserCookie) :=
  try_except (call EvGetCookies (get_cookies b clicked)) (fun _ => ret []).

(** The body of the Cookiebot scraper's inner [try]; an element whose
    attributes cannot be read is skipped. *)
Definition cookiebot_consent (el : CookiebotElement) : Consent :=
  {| consent_name := or_default (cb_attr_name el) "unknown";
     consent_domain := or_default (cb_attr_domain el) "unknown";
     consent_category := or_default (cb_attr_category el) "unknown";
     consent_purpose :=
       if String.eqb (cb_text el) "" then "No description" else strip (cb_text el);
     consent_cmp := "cookiebot" |}.

Definition keep_ok {A B} (f : A -> B) (els : list (res A)) : list B :=
  flat_map (fun el => match el with Ok a => [f a] | Raise _ => [] end) els.

Definition extract_consent_data_cookiebot (b : Browser) : M (list Consent) :=
  try_except
    (els <- call (EvFindElements "[data-cookiefirst-category]") (cookiebot_elements b) ;;
     ret (keep_ok cookiebot_consent els))
    (fun _ => ret []).

Definition onetrust_consent (el : OneTrustElement) : Consent :=
  {| consent_name := strip (ot_name_text el);
     consent_domain := or_default (ot_attr_domain el) "unknown";
     consent_category := strip (ot_category_text el);
     consent_purpose := strip (ot_purpose_text el);
     consent_cmp := "onetrust" |}.

Definition extract_consent_data_onetrust (b : Browser) : M (list Consent) :=
  try_except
    (els <- call (EvFindElements ".ot-sdk-cookie") (onetrust_elements b) ;;
     ret (keep_ok onetrust_consent els))
    (fun _ => ret []).

Definition accept_selectors : list string :=
  [ "[id*='accept']"; "[class*='accept']";
    "[id*='agree']"; "[class*='agree']";
    "[aria-label*='Accept']"; "[aria-label*='Agree']" ].

(** One round of the selector loop: [Ok true] when the control was clicked
    (the loop then breaks). *)
Definition try_selector (b : Browser) (selector : string) : M bool :=
  button <- call (EvFindElement selector) (find_element b selector) ;;
  match is_displayed button with
  | Raise e => ([], Raise e)
  | Ok false => ret false
  | Ok true =>
      match is_enabled button with
      | Raise e => ([], Raise e)
      | Ok false => ret false
      | Ok true =>
          call (EvClick selector) (click button) ;;;
          call (EvSleep 2) (Ok tt) ;;;
          ret true
      end
  end.

(** [for selector in accept_selectors: try: ... break except: continue];
    the result tells whether a control was clicked. *)
Fixpoint interact_consent (b : Browser) (selectors : list string) : M bool :=
  match selectors with
  | [] => ret false
  | selector :: rest =>
      clicked <- try_except (try_selector b selector) (fun _ => ret false) ;;
      if clicked then ret true else interact_consent b rest
  end.

Definition with_scheme (domain : string) : string :=
  if startswith "http://" domain || startswith "https://" domain
  then domain else "https://" ++ domain.

(** The two [except] clauses of [crawl_domain]. *)
Definition failure_result (domain : string) (e : exn) : CrawlResult :=
  match e with
  | TimeoutException _ =>
      {| domain := domain; success := false; cmp_type := "unknown";
         cookies_collected := 0; consent_data := [];
         error_message := Some "Page load timeout" |}
  | OtherException _ =>
      {| domain := domain; success := false; cmp_type := "unknown";
         cookies_collected := 0; consent_data := [];
         error_message := Some (str e) |}
  end.

(** The [try] block of [crawl_domain] once the driver exists. *)
Definition crawl_with_driver (b : Browser) (domain : string) : M CrawlResult :=
  call (EvGet domain) (driver_get b domain) ;;;
  call EvWaitReady (wait_ready b) ;;;
  cmp_type <- detect_cmp_type b ;;
  consent_data <-
    (if String.eqb cmp_type "cookiebot" then extract_consent_data_cookiebot b
     else if String.eqb cmp_type "onetrust" then extract_consent_data_onetrust b
     else ret []) ;;
  _cookies <- collect_cookies b false ;;
  clicked <- interact_consent b accept_selectors ;;
  final_cookies <- collect_cookies b clicked ;;
  ret {| domain := domain; success := true; cmp_type := cmp_type;
         cookies_collected := Z.of_nat (length final_cookies);
         consent_data := consent_data; error_message := None |}.

(** [crawl_domain]: the result and the browser calls issued.  When
    [create_driver] raises, [driver] is still [None] and the [finally] block
    has nothing to quit; otherwise [driver.quit()] is called, and an exception
    it raises is dropped. *)
Definition crawl_domain (b : Browser) (domain : string) : list event * CrawlResult :=
  match create_driver b with
  | Raise e => ([EvCreateDriver], failure_result domain e)
  | Ok _ =>
      let domain := with_scheme domain in
      let (t, r) := crawl_with_driver b domain in
      ((EvCreateDriver :: t ++ [EvQuit])%list,
       match r with
       | Ok result => result
       | Raise e => failure_result domain e
       end)
  end.

(** [save_crawl_result]: one [INSERT] into [crawl_results], then one into
    [consent_data] per declaration; [now] is [CURRENT_TIMESTAMP], the default
    of the [timestamp] column.  The new id is [cursor.lastrowid]. *)
Definition save_crawl_result (db : Store) (now : string) (result : CrawlResult)
  : Store * Z :=
  let crawl_id := (crawl_seq db + 1)%Z in
  ({| crawl_results :=
        (crawl_results db ++
         [ {| cr_id := crawl_id;
              cr_domain := domain result;
              cr_timestamp := now;
              cr_success := success result;
              cr_cmp_type := Some (cmp_type result);
              cr_cookies_collected := cookies_collected result;
              cr_error_message := error_message result |} ])%list;
      cookies := cookies db;
      Schema.consent_data :=
        (Schema.consent_data db ++
         map (fun consent =>
                {| cd_crawl_id := Some crawl_id;
                   cd_cookie_name := consent_name consent;
                   cd_cookie_domain := consent_domain consent;
                   cd_purpose_category := Some (consent_category consent);
                   cd_purpose_description := Some (consent_purpose consent);
                   cd_cmp_type := Some (consent_cmp consent) |})
             (consent_data result))%list;
      crawl_seq := crawl_id |},
   crawl_id).

(** [init_database]: three empty tables. *)
Definition init_database : Store :=
  {| crawl_results := []; cookies := []; Schema.consent_data := []; crawl_seq := 0 |}.

(** The summary dictionary of [crawl_domains] (without the elapsed time). *)
Record Summary := {
  total_domains : Z;
  successful_crawls : Z;
  failed_crawls : Z;
  cmp_types : list (string * Z);
  total_cookies : Z;
  domains_with_consent_data : Z
}.

(** [d[k] = d.get(k, 0) + 1] *)
Fixpoint bump (k : string) (d : list (string * Z)) : list (string * Z) :=
  match d with
  | [] => [(k, 1%Z)]
  | (k', n) :: t => if String.eqb k k' then (k', (n + 1)%Z) :: t else (k', n) :: bump k t
  end.

Definition update_summary (results : Summary) (result : CrawlResult) : Summary :=
  if success result then
    {| total_domains := total_domains results;
       successful_crawls := successful_crawls results + 1;
       failed_crawls := failed_crawls results;
       cmp_types := bump (cmp_type result) (cmp_types results);
       total_cookies := total_cookies results + cookies_collected result;
       domains_with_consent_data :=
         match consent_data result with
         | [] => domains_with_consent_data results
         | _ => domains_with_consent_data results + 1
         end |}%Z
  else
    {| total_domains := total_domains results;
       successful_crawls := successful_crawls results;
       failed_crawls := failed_crawls results + 1;
       cmp_types := cmp_types results;
       total_cookies := total_cookies results;
       domains_with_consent_data := domains_with_consent_data results |}%Z.

Section Crawl.

(** The world of one run: the browser session that the [i]-th crawl gets and
    the database clock at the [i]-th save (positions count from 1, as in
    [enumerate(domains, 1)]). *)
Variable browser_at : nat -> string -> Browser.
Variable clock_at : nat -> string.

(** The loop of [crawl_domains] from position [i]. *)
Fixpoint crawl_loop (i : nat) (domains : list string) (db : Store) (results : Summary)
  : Store * Summary :=
  match domains with
  | [] => (db, results)
  | domain :: rest =>
      let result := snd (crawl_domain (browser_at i domain) domain) in
      let db := fst (save_crawl_result db (clock_at i) result) in
      crawl_loop (S i) rest db (update_summary results result)
  end.

Definition crawl_domains (db : Store) (domains : list string) : Store * Summary :=
  crawl_loop 1 domains db
    {| total_domains := Z.of_nat (length domains);
       successful_crawls := 0; failed_crawls := 0; cmp_types := [];
       total_cookies := 0; domains_with_consent_data := 0 |}.

End Crawl.

End ConsentCrawler.

(** ** The cookie-consent matcher: [extract_cookies.py] *)

Module CookieExtractor.
Import PyStr Schema.
Local Open Scope Z_scope.

(** [_map_cmp_type]: a dictionary lookup with default [-1]. *)
Definition _map_cmp_type (cmp_type : option string) : Z :=
  match cmp_type with
  | Some s =>
      if String.eqb s "cookiebot" then 0
      else if String.eqb s "onetrust" then 1
      else if String.eqb s "termly" then 2
      else -1
  | None => -1
  end.

(** [_map_purpose_category]: the [if]/[elif] chain of the source. *)
Definition _map_purpose_category (category : option string) : Z :=
  if negb (truthy category) then -1
  else
    let category_lower := lower (or_default category "") in
    if any_in ["necessary"; "essential"; "required"; "strictly"] category_lower then 0
    else if any_in ["functional"; "preference"; "personalization"] category_lower then 1
    else if any_in ["analytics"; "performance"; "statistics"; "measurement"] category_lower then 2
    else if any_in ["advertising"; "marketing"; "targeting"; "ads"] category_lower then 3
    else if any_in ["social"; "media"] category_lower then 4
    else -1.

(** The specification's reading of label normalisation: an ordered table of
    (code, keyword set); the first row with a keyword contained in the
    lower-cased text wins. *)
Definition purpose_table : list (Z * list string) :=
  [ (0, ["necessary"; "essential"; "required"; "strictly"]);
    (1, ["functional"; "preference"; "personalization"]);
    (2, ["analytics"; "performance"; "statistics"; "measurement"]);
    (3, ["advertising"; "marketing"; "targeting"; "ads"]);
    (4, ["social"; "media"]) ].

Fixpoint first_match (table : list (Z * list string)) (text : string) : Z :=
  match table with
  | [] => -1
  | (code, kws) :: rest =>
      if any_in kws (lower text) then code else first_match rest text
  end.

Definition spec_label (category : option string) : Z :=
  match category with
  | None => -1
  | Some s => if String.eqb s "" then -1 else first_match purpose_table s
  end.

(** *** The query of [extract_cookies_with_consent] *)

(** One fetched row: the fourteen selected columns.  The columns that come
    from the right-hand side of a [LEFT JOIN] are nullable.  Every column
    holds a value of its declared type (SQLite does not enforce this);
    [expiry], declared [DATETIME], is taken as text. *)
Record Row := {
  crawl_id : Z;
  domain : string;
  cmp_type : option string;
  success : bool;
  cookie_name : option string;
  cookie_domain : option string;
  cookie_value : option string;
  cookie_path : option string;
  cookie_expiry : option string;
  cookie_secure : option Z;
  cookie_http_only : option Z;
  cookie_same_site : option string;
  purpose_category : option string;
  purpose_description : option string
}.

Definition mk_row (cr : CrawlRecord) (c : option CookieRow) (cd : option ConsentRow) : Row :=
  {| crawl_id := cr_id cr;
     domain := cr_domain cr;
     cmp_type := cr_cmp_type cr;
     success := cr_success cr;
     cookie_name := option_map c_name c;
     cookie_domain := option_map c_domain c;
     cookie_value := match c with Some c => c_value c | None => None end;
     cookie_path := match c with Some c => c_path c | None => None end;
     cookie_expiry := match c with Some c => c_expiry c | None => None end;
     cookie_secure := match c with Some c => c_secure c | None => None end;
     cookie_http_only := match c with Some c => c_http_only c | None => None end;
     cookie_same_site := match c with Some c => c_same_site c | None => None end;
     purpose_category := match cd with Some d => cd_purpose_category d | None => None end;
     purpose_description := match cd with Some d => cd_purpose_description d | None => None end |}.

(** SQL [=] on a nullable integer column: [NULL] never matches. *)
Definition sql_eq_id (id : Z) (fk : option Z) : bool :=
  match fk with Some k => Z.eqb id k | None => false end.

(** [cr LEFT JOIN cookies c ON cr.id = c.crawl_id] for one crawl record. *)
Definition join_cookies (cs : list CookieRow) (cr : CrawlRecord) : list (option CookieRow) :=
  match filter (fun c => sql_eq_id (cr_id cr) (c_crawl_id c)) cs with
  | [] => [None]
  | ms => map Some ms
  end.

(** The [ON] condition of the second join. *)
Definition consent_matches (cr : CrawlRecord) (c : option CookieRow) (d : ConsentRow) : bool :=
  match c with
  | None => false
  | Some c =>
      sql_eq_id (cr_id cr) (cd_crawl_id d)
      && String.eqb (c_name c) (cd_cookie_name d)
      && String.eqb (c_domain c) (cd_cookie_domain d)
  end.

Definition join_consent (ds : list ConsentRow) (cr : CrawlRecord) (c : option CookieRow)
  : list Row :=
  match filter (consent_matches cr c) ds with
  | [] => [mk_row cr c None]
  | ms => map (fun d => mk_row cr c (Some d)) ms
  end.

(** [ORDER BY cr.domain, c.name]: BINARY collation, [NULL] first. *)
Definition name_leb (a b : option string) : bool :=
  match a, b with
  | None, _ => true
  | Some _, None => false
  | Some x, Some y => String.leb x y
  end.

Definition row_leb (a b : Row) : bool :=
  match String.compare (domain a) (domain b) with
  | Lt => true
  | Gt => false
  | Eq => name_leb (cookie_name a) (cookie_name b)
  end.

Fixpoint insert_sorted (r : Row) (l : list Row) : list Row :=
  match l with
  | [] => [r]
  | x :: t => if row_leb r x then r :: l else x :: insert_sorted r t
  end.

(** A stable sort: rows equal on the [ORDER BY] columns keep the order of the
    join.  This is one of the orders that the query admits: SQLite leaves the
    order of such rows open and need not return them in rowid order.  What is
    stated of the export for every admissible order is stated for every
    permutation of the join ([RowOrder.joined]). *)
Definition order_by (l : list Row) : list Row :=
  fold_right insert_sorted [] l.

(** [cursor.execute(query); rows = cursor.fetchall()], in that order. *)
Definition fetchall (db : Store) : list Row :=
  order_by
    (flat_map
       (fun cr =>
          flat_map (join_consent (consent_data db) cr) (join_cookies (cookies db) cr))
       (filter cr_success (crawl_results db))).

(** *** The export records *)

Record VariableData := {
  value : string;
  expiry : string;
  secure : bool;
  http_only : bool;
  same_site : string
}.

Record CookieEntry := {
  name : option string;
  edomain : option string;
  path : string;
  cmp_origin : Z;
  label : Z;
  epurpose_description : string;
  crawl_domain : string;
  variable_data : list VariableData
}.

(** [extracted_data]: a Python [dict], which keeps insertion order (the order
    in which [json.dump] writes the keys). *)
Definition Dict := list (string * CookieEntry).

Fixpoint dict_get (k : string) (d : Dict) : option CookieEntry :=
  match d with
  | [] => None
  | (k', e) :: t => if String.eqb k k' then Some e else dict_get k t
  end.

(** [k in d] *)
Definition dict_mem (k : string) (d : Dict) : bool :=
  match dict_get k d with Some _ => true | None => false end.

Definition dict_keys (d : Dict) : list string := map fst d.

Definition append_variable_data (v : VariableData) (e : CookieEntry) : CookieEntry :=
  {| name := name e; edomain := edomain e; path := path e;
     cmp_origin := cmp_origin e; label := label e;
     epurpose_description := epurpose_description e;
     crawl_domain := crawl_domain e;
     variable_data := (variable_data e ++ [v])%list |}.

(** [d[k]["variable_data"].append(v)] for a key that is present: the entry
    object is mutated in place and keeps its position. *)
Fixpoint dict_append (k : string) (v : VariableData) (d : Dict) : Dict :=
  match d with
  | [] => []
  | (k', e) :: t =>
      if String.eqb k k' then (k', append_variable_data v e) :: t
      else (k', e) :: dict_append k v t
  end.

(** [d[k] = e] for a key that is absent: appended at the end. *)
Definition dict_set_new (k : string) (e : CookieEntry) (d : Dict) : Dict :=
  (d ++ [(k, e)])%list.

(** [f"{x}"] of a nullable text column: [None] prints as ["None"]. *)
Definition fmt (o : option string) : string :=
  match o with Some s => s | None => "None" end.

(** [bool(x)] of a nullable integer column. *)
Definition sql_bool (o : option Z) : bool :=
  match o with Some z => negb (Z.eqb z 0) | None => false end.

Definition cookie_id_of (row : Row) : string :=
  (fmt (cookie_domain row) ++ "_" ++ fmt (cookie_name row))%string.

Definition variable_data_of (row : Row) : VariableData :=
  {| value := or_default (cookie_value row) "";
     expiry := or_default (cookie_expiry row) "";
     secure := sql_bool (cookie_secure row);
     http_only := sql_bool (cookie_http_only row);
     same_site := or_default (cookie_same_site row) "no_restriction" |}.

Definition cookie_entry_of (row : Row) : CookieEntry :=
  {| name := cookie_name row;
     edomain := cookie_domain row;
     path := or_default (cookie_path row) "/";
     cmp_origin := _map_cmp_type (cmp_type row);
     label := _map_purpose_category (purpose_category row);
     epurpose_description := or_default (purpose_description row) "";
     crawl_domain := domain row;
     variable_data := [variable_data_of row] |}.

(** The loop state: [extracted_data], [matched_cookies], [unmatched_cookies]. *)
Record LoopState := {
  extracted_data : Dict;
  matched_cookies : Z;
  unmatched_cookies : Z
}.

Definition loop_init : LoopState :=
  {| extracted_data := []; matched_cookies := 0; unmatched_cookies := 0 |}.

(** One iteration of [for row in rows]. *)
Definition process_row (include_unmatched : bool) (st : LoopState) (row : Row) : LoopState :=
  if negb (truthy (cookie_name row)) then st
  else
    let cookie_id := cookie_id_of row in
    let has_consent_data := truthy (purpose_category row) in
    if negb has_consent_data && negb include_unmatched then
      {| extracted_data := extracted_data st;
         matched_cookies := matched_cookies st;
         unmatched_cookies := unmatched_cookies st + 1 |}
    else
      let cookie_entry := cookie_entry_of row in
      {| extracted_data :=
           if dict_mem cookie_id (extracted_data st)
           then dict_append cookie_id (variable_data_of row) (extracted_data st)
           else dict_set_new cookie_id cookie_entry (extracted_data st);
         matched_cookies :=
           if has_consent_data then matched_cookies st + 1 else matched_cookies st;
         unmatched_cookies :=
           if has_consent_data then unmatched_cookies st else unmatched_cookies st + 1 |}.

Definition run_loop (include_unmatched : bool) (rows : list Row) : LoopState :=
  fold_left (process_row include_unmatched) rows loop_init.

Record Statistics := {
  total_unique_cookies : Z;
  stat_matched_cookies : Z;
  stat_unmatched_cookies : Z;
  extraction_date : string
}.

Record Export := {
  export_cookies : Dict;
  statistics : Statistics
}.

(** The body of [extract_cookies_with_consent] after [fetchall]; [now] is the
    value of [datetime.now().isoformat()] when the function returns. *)
Definition extract_rows (rows : list Row) (include_unmatched : bool) (now : string) : Export :=
  let st := run_loop include_unmatched rows in
  {| export_cookies := extracted_data st;
     statistics :=
       {| total_unique_cookies := Z.of_nat (length (extracted_data st));
          stat_matched_cookies := matched_cookies st;
          stat_unmatched_cookies := unmatched_cookies st;
          extraction_date := now |} |}.

Definition extract_cookies_with_consent (db : Store) (include_unmatched : bool) (now : string)
  : Export :=
  extract_rows (fetchall db) include_unmatched now.

End CookieExtractor.

(** ** The specification's vocabulary *)

Module Spec.
Import PyStr Re Schema.

(** The three supported CMP families, in precedence order. *)
Inductive Family : Type := Cookiebot | OneTrust | Termly.

(** "First match wins" over an ordered registry of (family, test) pairs. *)
Fixpoint first_family {A : Type} (registry : list (Family * (A -> bool))) (x : A)
  : option Family :=
  match registry with
  | [] => None
  | (f, test) :: rest => if test x then Some f else first_family rest x
  end.

(** The registry of the presence probe. *)
Definition probe_registry : list (Family * (PresenceCrawler.Response -> bool)) :=
  [ (Cookiebot, PresenceCrawler.check_cookiebot_presence);
    (OneTrust, PresenceCrawler.check_onetrust_presence);
    (Termly, PresenceCrawler.check_termly_presence) ].

Definition outcome_of_family (f : option Family) : PresenceCrawler.QuickCrawlResult :=
  match f with
  | Some Cookiebot => PresenceCrawler.COOKIEBOT
  | Some OneTrust => PresenceCrawler.ONETRUST
  | Some Termly => PresenceCrawler.TERMLY
  | None => PresenceCrawler.NOCMP
  end.

Definition family_of_outcome (q : PresenceCrawler.QuickCrawlResult) : option Family :=
  match q with
  | PresenceCrawler.COOKIEBOT => Some Cookiebot
  | PresenceCrawler.ONETRUST => Some OneTrust
  | PresenceCrawler.TERMLY => Some Termly
  | _ => None
  end.

(** The keyword sets of the consent extractor, tested on the lower-cased page. *)
Definition extractor_registry : list (Family * (string -> bool)) :=
  [ (Cookiebot, fun src => any_in ["cookiebot"; "consent.cookiebot"] (lower src));
    (OneTrust, fun src => any_in ["onetrust"; "cookielaw"; "optanon"; "cookiepro"] (lower src));
    (Termly, fun src => any_in ["termly"; "app.termly.io"] (lower src)) ].

Definition cmp_type_of_family (f : option Family) : string :=
  match f with
  | Some Cookiebot => "cookiebot"
  | Some OneTrust => "onetrust"
  | Some Termly => "termly"
  | None => "unknown"
  end.

Definition family_of_cmp_type (s : string) : option Family :=
  if String.eqb s "cookiebot" then Some Cookiebot
  else if String.eqb s "onetrust" then Some OneTrust
  else if String.eqb s "termly" then Some Termly
  else None.

(** The family each classifier reports for one and the same content. *)
Definition extractor_family (content : string) : option Family :=
  family_of_cmp_type (ConsentCrawler.cmp_of_page_source content).

Definition probe_family (content : string) : option Family :=
  family_of_outcome
    (PresenceCrawler.classify_content
       {| PresenceCrawler.status_code := 200;
          PresenceCrawler.url := "";
          PresenceCrawler.text := content |}).

(** The elements of a list up to and including the first one that stops. *)
Fixpoint take_until {A : Type} (stop : A -> bool) (l : list A) : list A :=
  match l with
  | [] => []
  | x :: t => if stop x then [x] else x :: take_until stop t
  end.

(** The candidate URLs of an unschemed domain, in the fixed order. *)
Definition candidates (input_domain : string) : list string :=
  let host := strip_www input_domain in
  [ "https://www." ++ host; "https://" ++ host; "http://" ++ host ].

(** "Stopping at the first attempt that yields any HTTP response or an
    SSL/scheme-class error". *)
Definition stops_as_claimed (get : string -> PresenceCrawler.GetOutcome) (u : string) : bool :=
  match get u with
  | PresenceCrawler.Returns _ => true
  | PresenceCrawler.RaisesSslOrSchema => true
  | _ => false
  end.

(** What ends the loop of the source: anything but a connection or timeout
    error. *)
Definition stops (get : string -> PresenceCrawler.GetOutcome) (u : string) : bool :=
  match get u with
  | PresenceCrawler.RaisesConnOrTimeout => false
  | _ => true
  end.

(** A fetched row that reaches the export: it has a cookie name, and a purpose
    category unless unmatched cookies are included. *)
Definition kept (include_unmatched : bool) (row : CookieExtractor.Row) : bool :=
  truthy (CookieExtractor.cookie_name row)
  && (truthy (CookieExtractor.purpose_category row) || include_unmatched).

(** A kept row with a given export key. *)
Definition selects (include_unmatched : bool) (k : string) (row : CookieExtractor.Row)
  : bool :=
  kept include_unmatched row && String.eqb (CookieExtractor.cookie_id_of row) k.

(** The number of kept rows with a given export key. *)
Definition kept_rows_with_key (include_unmatched : bool) (k : string)
  (rows : list CookieExtractor.Row) : nat :=
  length (filter (selects include_unmatched k) rows).

(** What one row does to [extracted_data]. *)
Definition step_data (include_unmatched : bool) (d : CookieExtractor.Dict)
  (row : CookieExtractor.Row) : CookieExtractor.Dict :=
  if kept include_unmatched row then
    if CookieExtractor.dict_mem (CookieExtractor.cookie_id_of row) d
    then CookieExtractor.dict_append (CookieExtractor.cookie_id_of row)
           (CookieExtractor.variable_data_of row) d
    else CookieExtractor.dict_set_new (CookieExtractor.cookie_id_of row)
           (CookieExtractor.cookie_entry_of row) d
  else d.

(** An entry with its fixed fields and a given list of instances. *)
Definition entry_with (e : CookieExtractor.CookieEntry)
  (vd : list CookieExtractor.VariableData) : CookieExtractor.CookieEntry :=
  {| CookieExtractor.name := CookieExtractor.name e;
     CookieExtractor.edomain := CookieExtractor.edomain e;
     CookieExtractor.path := CookieExtractor.path e;
     CookieExtractor.cmp_origin := CookieExtractor.cmp_origin e;
     CookieExtractor.label := CookieExtractor.label e;
     CookieExtractor.epurpose_description := CookieExtractor.epurpose_description e;
     CookieExtractor.crawl_domain := CookieExtractor.crawl_domain e;
     CookieExtractor.variable_data := vd |}.

(** "The number of crawls in which that (name, domain) pair was observed":
    the crawl records that own a cookie row with that name and domain. *)
Definition crawls_observing (db : Store) (cname cdomain : string) : nat :=
  length
    (filter
       (fun cr =>
          existsb
            (fun c => CookieExtractor.sql_eq_id (cr_id cr) (c_crawl_id c)
                      && String.eqb (c_name c) cname && String.eqb (c_domain c) cdomain)
            (cookies db))
       (crawl_results db)).

(** The exception, if any, that reaches the [except] clauses of
    [crawl_domain]. *)
Definition raised (b : ConsentCrawler.Browser) (domain : string) : option ConsentCrawler.exn :=
  match ConsentCrawler.create_driver b with
  | ConsentCrawler.Raise e => Some e
  | ConsentCrawler.Ok _ =>
      match snd (ConsentCrawler.crawl_with_driver b (ConsentCrawler.with_scheme domain)) with
      | ConsentCrawler.Raise e => Some e
      | ConsentCrawler.Ok _ => None
      end
  end.

(** A computation that always returns. *)
Definition total {A : Type} (m : ConsentCrawler.M A) : Prop :=
  exists a, snd m = ConsentCrawler.Ok a.

(** The [crawl_results] row written for a result. *)
Definition record_of (id : Z) (now : string) (result : ConsentCrawler.CrawlResult)
  : CrawlRecord :=
  {| cr_id := id;
     cr_domain := ConsentCrawler.domain result;
     cr_timestamp := now;
     cr_success := ConsentCrawler.success result;
     cr_cmp_type := Some (ConsentCrawler.cmp_type result);
     cr_cookies_collected := ConsentCrawler.cookies_collected result;
     cr_error_message := ConsentCrawler.error_message result |}.

End Spec.

(** ** Concrete inputs used by the examples *)

Module Examples.
Import PyStr Schema.

(** A stand-in for [urlparse(s).scheme] on the example inputs (all of which
    [urlparse] accepts). *)
Definition simple_scheme (s : string) : string :=
  if startswith "https://" s then "https"
  else if startswith "http://" s then "http"
  else "".

Definition page (status : Z) (u body : string) : PresenceCrawler.Response :=
  {| PresenceCrawler.status_code := status;
     PresenceCrawler.url := u;
     PresenceCrawler.text := body |}.

(** A body that carries a Cookiebot and a OneTrust marker. *)
Definition both_markers : string :=
  "<script src='https://cdn.cookielaw.org/otSDKStub.js'></script><script src='https://consent.cookiebot.com/uc.js'></script>".

(** A page that names Cookiebot in its text and loads no CMP script. *)
Definition mentions_cookiebot : string :=
  "<p>We reviewed Cookiebot and decided against a consent banner.</p>".

(** A network where only the plain-http site answers. *)
Definition http_only_net (u : string) : PresenceCrawler.GetOutcome :=
  if String.eqb u "http://example.com"
  then PresenceCrawler.Returns (page 200 "http://example.com/" both_markers)
  else PresenceCrawler.RaisesConnOrTimeout.

(** A network where every request fails with an unexpected error. *)
Definition broken_net (u : string) : PresenceCrawler.GetOutcome :=
  PresenceCrawler.RaisesOther.

(** One successful crawl that saw the cookie [session] of [shop.example]
    twice (two paths) and one declaration for it. *)
Definition cookie_row (id : Z) (n d v p : string) : CookieRow :=
  {| c_crawl_id := Some id; c_name := n; c_domain := d;
     c_value := Some v; c_path := Some p; c_expiry := None;
     c_secure := Some 1%Z; c_http_only := Some 0%Z; c_same_site := Some "Lax" |}.

Definition crawl_record (id : Z) (d : string) (n : Z) : CrawlRecord :=
  {| cr_id := id; cr_domain := d; cr_timestamp := "2024-05-01 10:00:00";
     cr_success := true; cr_cmp_type := Some "cookiebot";
     cr_cookies_collected := n; cr_error_message := None |}.

Definition consent_row (id : Z) (n d category : string) : ConsentRow :=
  {| cd_crawl_id := Some id; cd_cookie_name := n; cd_cookie_domain := d;
     cd_purpose_category := Some category;
     cd_purpose_description := Some "No description";
     cd_cmp_type := Some "cookiebot" |}.

Definition two_paths_db : Store :=
  {| crawl_results := [crawl_record 1 "https://shop.example" 2];
     cookies := [ cookie_row 1 "session" "shop.example" "a1" "/";
                  cookie_row 1 "session" "shop.example" "b2" "/cart" ];
     consent_data := [consent_row 1 "session" "shop.example" "Necessary"];
     crawl_seq := 1 |}.

(** Two successful crawls that saw the cookie [_ga] of [.tracker.example];
    only the first one has a declaration for it. *)
Definition declared_once_db : Store :=
  {| crawl_results := [ crawl_record 1 "https://a.example" 1;
                        crawl_record 2 "https://b.example" 1 ];
     cookies := [ cookie_row 1 "_ga" ".tracker.example" "GA1.1" "/";
                  cookie_row 2 "_ga" ".tracker.example" "GA1.2" "/" ];
     consent_data := [consent_row 1 "_ga" ".tracker.example" "Statistics"];
     crawl_seq := 2 |}.

(** The two rows that [fetchall] returns for [declared_once_db]. *)
Definition ga_row (id : Z) (d v : string) (category description : option string)
  : CookieExtractor.Row :=
  {| CookieExtractor.crawl_id := id;
     CookieExtractor.domain := d;
     CookieExtractor.cmp_type := Some "cookiebot";
     CookieExtractor.success := true;
     CookieExtractor.cookie_name := Some "_ga";
     CookieExtractor.cookie_domain := Some ".tracker.example";
     CookieExtractor.cookie_value := Some v;
     CookieExtractor.cookie_path := Some "/";
     CookieExtractor.cookie_expiry := None;
     CookieExtractor.cookie_secure := Some 1%Z;
     CookieExtractor.cookie_http_only := Some 0%Z;
     CookieExtractor.cookie_same_site := Some "Lax";
     CookieExtractor.purpose_category := category;
     CookieExtractor.purpose_description := description |}.

Definition ga_declared : CookieExtractor.Row :=
  ga_row 1 "https://a.example" "GA1.1" (Some "Statistics") (Some "No description").

Definition ga_undeclared : CookieExtractor.Row :=
  ga_row 2 "https://b.example" "GA1.2" None None.

(** A site that loads, shows one Cookiebot declaration and sets one cookie;
    it has no accept control. *)
Definition declaring_site : ConsentCrawler.Browser :=
  {| ConsentCrawler.create_driver := ConsentCrawler.Ok tt;
     ConsentCrawler.driver_get := fun _ => ConsentCrawler.Ok tt;
     ConsentCrawler.wait_ready := ConsentCrawler.Ok tt;
     ConsentCrawler.page_source :=
       ConsentCrawler.Ok "<script src='https://consent.cookiebot.com/uc.js'></script>";
     ConsentCrawler.cookiebot_elements :=
       ConsentCrawler.Ok
         [ ConsentCrawler.Ok
             {| ConsentCrawler.cb_attr_name := Some "_ga";
                ConsentCrawler.cb_attr_domain := Some ".example.com";
                ConsentCrawler.cb_attr_category := Some "Statistics";
                ConsentCrawler.cb_text := " Counts visits " |} ];
     ConsentCrawler.onetrust_elements := ConsentCrawler.Ok [];
     ConsentCrawler.get_cookies := fun _ =>
       ConsentCrawler.Ok
         [ {| ConsentCrawler.bc_name := "_ga";
              ConsentCrawler.bc_domain := ".example.com";
              ConsentCrawler.bc_value := "GA1.1";
              ConsentCrawler.bc_path := "/" |} ];
     ConsentCrawler.find_element := fun _ =>
       ConsentCrawler.Raise (ConsentCrawler.OtherException "Message: no such element");
     ConsentCrawler.quit := ConsentCrawler.Ok tt |}.

(** A site whose navigation fails with an exception that has no message. *)
Definition silent_failure : ConsentCrawler.Browser :=
  {| ConsentCrawler.create_driver := ConsentCrawler.Ok tt;
     ConsentCrawler.driver_get := fun _ =>
       ConsentCrawler.Raise (ConsentCrawler.OtherException "");
     ConsentCrawler.wait_ready := ConsentCrawler.Ok tt;
     ConsentCrawler.page_source := ConsentCrawler.Ok "";
     ConsentCrawler.cookiebot_elements := ConsentCrawler.Ok [];
     ConsentCrawler.onetrust_elements := ConsentCrawler.Ok [];
     ConsentCrawler.get_cookies := fun _ => ConsentCrawler.Ok [];
     ConsentCrawler.find_element := fun _ =>
       ConsentCrawler.Raise (ConsentCrawler.OtherException "Message: no such element");
     ConsentCrawler.quit := ConsentCrawler.Ok tt |}.

(** A site whose page never becomes ready. *)
Definition never_ready : ConsentCrawler.Browser :=
  {| ConsentCrawler.create_driver := ConsentCrawler.Ok tt;
     ConsentCrawler.driver_get := fun _ => ConsentCrawler.Ok tt;
     ConsentCrawler.wait_ready :=
       ConsentCrawler.Raise (ConsentCrawler.TimeoutException "Message: ");
     ConsentCrawler.page_source := ConsentCrawler.Ok "";
     ConsentCrawler.cookiebot_elements := ConsentCrawler.Ok [];
     ConsentCrawler.onetrust_elements := ConsentCrawler.Ok [];
     ConsentCrawler.get_cookies := fun _ => ConsentCrawler.Ok [];
     ConsentCrawler.find_element := fun _ =>
       ConsentCrawler.Raise (ConsentCrawler.OtherException "Message: no such element");
     ConsentCrawler.quit := ConsentCrawler.Ok tt |}.

End Examples.

(** ** The probe's worker pool: [PresenceCrawler.crawl_domains] *)

Module PresencePool.
Import PyStr PresenceCrawler.

(** The result dictionary: one list of URLs per bucket.  (The key
    ['uncrawled'] only appears after a [KeyboardInterrupt], which is not
    modelled.) *)
Record Results := {
  cookiebot : list string;
  onetrust : list string;
  termly : list string;
  nocmp : list string;
  failed : list string;
  http_error : list string;
  bot : list string;
  timeout : list string
}.

Definition empty_results : Results :=
  {| cookiebot := []; onetrust := []; termly := []; nocmp := [];
     failed := []; http_error := []; bot := []; timeout := [] |}.

(** What [next(it)] gives for one submitted domain when the worker returns or
    the task times out or crashes: the probe's result, or [CTimeoutError] /
    [ProcessExpired].  (An exception raised by the worker itself is re-raised
    by [next(it)] and not caught; [PoolRun] has that case.) *)
Inductive PoolOutcome : Type :=
| Done (final_domain : string) (status_code : QuickCrawlResult)
| Expired.

(** [range(0, n, step)] for [step >= 1]. *)
Definition range_step (n step : nat) : list nat :=
  map (fun j => j * step) (seq 0 ((n + step - 1) / step)).

(** [l[i:j]] *)
Definition slice {A : Type} (l : list A) (i j : nat) : list A :=
  firstn (j - i) (skipn i l).

(** [chunksize = max(1, num_sites // batches)]; the division raises
    [ZeroDivisionError] for [batches = 0]. *)
Definition chunksize (num_sites : nat) (batches : Z) : option nat :=
  if (batches =? 0)%Z then None
  else Some (Z.to_nat (Z.max 1 (Z.of_nat num_sites / batches))).

(** [[domains[i:min(i+chunksize, num_sites)] for i in range(0, num_sites, chunksize)]] *)
Definition chunks (domains : list string) (size : nat) : list (list string) :=
  let num_sites := length domains in
  map (fun i => slice domains i (Nat.min (i + size) num_sites)) (range_step num_sites size).

(** The body of the [while True] loop for one [next(it)]: the bucket is
    chosen by the [if]/[elif] chain; a timeout or crash files the submitted
    domain [chunk[processed]]. *)
Definition categorize (results : Results) (submitted : string) (o : PoolOutcome) : Results :=
  match o with
  | Expired =>
      {| cookiebot := cookiebot results; onetrust := onetrust results;
         termly := termly results; nocmp := nocmp results; failed := failed results;
         http_error := http_error results; bot := bot results;
         timeout := timeout results ++ [submitted] |}
  | Done final_domain COOKIEBOT =>
      {| cookiebot := cookiebot results ++ [final_domain]; onetrust := onetrust results;
         termly := termly results; nocmp := nocmp results; failed := failed results;
         http_error := http_error results; bot := bot results; timeout := timeout results |}
  | Done final_domain ONETRUST =>
      {| cookiebot := cookiebot results; onetrust := onetrust results ++ [final_domain];
         termly := termly results; nocmp := nocmp results; failed := failed results;
         http_error := http_error results; bot := bot results; timeout := timeout results |}
  | Done final_domain TERMLY =>
      {| cookiebot := cookiebot results; onetrust := onetrust results;
         termly := termly results ++ [final_domain]; nocmp := nocmp results;
         failed := failed results; http_error := http_error results; bot := bot results;
         timeout := timeout results |}
  | Done final_domain NOCMP =>
      {| cookiebot := cookiebot results; onetrust := onetrust results;
         termly := termly results; nocmp := nocmp results ++ [final_domain];
         failed := failed results; http_error := http_error results; bot := bot results;
         timeout := timeout results |}
  | Done final_domain BOT =>
      {| cookiebot := cookiebot results; onetrust := onetrust results;
         termly := termly results; nocmp := nocmp results; failed := failed results;
         http_error := http_error results; bot := bot results ++ [final_domain];
         timeout := timeout results |}
  | Done final_domain HTTP_ERROR =>
      {| cookiebot := cookiebot results; onetrust := onetrust results;
         termly := termly results; nocmp := nocmp results; failed := failed results;
         http_error := http_error results ++ [final_domain]; bot := bot results;
         timeout := timeout results |}
  | Done final_domain _ =>
      {| cookiebot := cookiebot results; onetrust := onetrust results;
         termly := termly results; nocmp := nocmp results;
         failed := failed results ++ [final_domain];
         http_error := http_error results; bot := bot results; timeout := timeout results |}
  end%list.

Section Pool.

(** What the pool returns for a submitted domain ([pool.map] hands the
    results back in submission order). *)
Variable probe : string -> PoolOutcome.

(** One batch: [processed] walks through the chunk. *)
Definition process_chunk (results : Results) (chunk : list string) : Results :=
  fold_left (fun acc submitted => categorize acc submitted (probe submitted)) chunk results.

(** [crawl_domains] without an operator interrupt, for a run in which no
    worker raises; [None] stands for the [ZeroDivisionError] of
    [batches = 0]. *)
Definition crawl_domains (domains : list string) (batches : Z) : option Results :=
  match chunksize (length domains) batches with
  | None => None
  | Some size => Some (fold_left process_chunk (chunks domains size) empty_results)
  end.

End Pool.

(** The number of URLs filed, over all buckets. *)
Definition filed (results : Results) : nat :=
  length (cookiebot results) + length (onetrust results) + length (termly results)
  + length (nocmp results) + length (failed results) + length (http_error results)
  + length (bot results) + length (timeout results).

(** The pool's answer when the worker runs [run_reachability_check] on a
    domain that [urlparse] accepts, and [expires] tells which tasks time out
    or crash. *)
Definition pool_probe (scheme : string -> string) (get : string -> GetOutcome)
  (check_cmp : bool) (expires : string -> bool) (submitted : string) : PoolOutcome :=
  if expires submitted then Expired
  else let (final_domain, status) := run_reachability_check scheme get check_cmp submitted in
       Done final_domain status.

End PresencePool.

(** ** Vocabulary for the probe's result *)

Module ProbeSpec.
Import PyStr PresenceCrawler.

(** The result that the answer to the last attempt decides. *)
Definition verdict (check_cmp : bool) (input_domain u : string) (o : GetOutcome)
  : string * QuickCrawlResult :=
  match o with
  | Returns r =>
      if ok r then (url r, if check_cmp then classify_content r else OK)
      else if ((status_code r =? 403)%Z || (status_code r =? 406)%Z)%bool then (u, BOT)
      else (u, HTTP_ERROR)
  | _ => (input_domain, CONNECT_FAIL)
  end.

(** What [run_reachability_check] returns after the loop. *)
Definition finish (check_cmp : bool) (input_domain : string) (exit : LoopExit)
  : string * QuickCrawlResult :=
  match exit with
  | Returned final q => (final, q)
  | Broke final_url r =>
      if check_cmp then (final_url, classify_content r) else (final_url, OK)
  | Exhausted => (input_domain, CONNECT_FAIL)
  end.

End ProbeSpec.

(** ** Vocabulary for the consent extractor's properties *)

Module ConsentSpec.
Import PyStr Schema ConsentCrawler.

(** The selectors handed to [find_element], in the order of the calls. *)
Definition tried (t : list event) : list string :=
  flat_map (fun ev => match ev with EvFindElement s => [s] | _ => [] end) t.

(** The total of a counter dictionary. *)
Definition sum_counts (d : list (string * Z)) : Z :=
  fold_right (fun kv acc => (snd kv + acc)%Z) 0%Z d.

(** The number of [crawl_results] rows with [success = 1]. *)
Definition count_success (db : Store) : Z :=
  Z.of_nat (length (filter cr_success (crawl_results db))).

(** Referential integrity of the store: record ids are distinct and not
    above the AUTOINCREMENT counter, and every declaration names the id of an
    existing record. *)
Definition well_formed (db : Store) : Prop :=
  NoDup (map cr_id (crawl_results db))
  /\ Forall (fun cr => (cr_id cr <= crawl_seq db)%Z) (crawl_results db)
  /\ Forall (fun cd => exists id, cd_crawl_id cd = Some id
                                  /\ In id (map cr_id (crawl_results db)))
       (Schema.consent_data db).

(** The ids [first + 1, ..., first + n]. *)
Definition ids_after (first : Z) (n : nat) : list Z :=
  map (fun k => (first + Z.of_nat k)%Z) (seq 1 n).

End ConsentSpec.

(** ** Post-processing: [post_process.py] and the statistics of
    [extract_cookies.py] *)

Module DatabaseProcessor.
Import PyStr Schema.
Local Open Scope Z_scope.

(** [x NOT IN (SELECT id FROM crawl_results)] as a [WHERE] condition: true
    on an empty id list, unknown (so not true) for a [NULL] [x] otherwise. *)
Definition sql_not_in (x : option Z) (ids : list Z) : bool :=
  match ids with
  | [] => true
  | _ => match x with
         | None => false
         | Some k => negb (existsb (Z.eqb k) ids)
         end
  end.

(** [cleanup_stats] *)
Record CleanupStats := {
  empty_cookie_names_removed : Z;
  empty_consent_names_removed : Z;
  orphaned_cookies_removed : Z;
  orphaned_consent_data_removed : Z
}.

(** [DELETE FROM t WHERE cond]: the rows left, and [cursor.rowcount]. *)
Definition delete_where {A : Type} (cond : A -> bool) (rows : list A) : list A * Z :=
  (filter (fun row => negb (cond row)) rows,
   Z.of_nat (length (filter cond rows))).

(** [clean_database]: the four [DELETE] statements in order.  The name
    columns are [NOT NULL], so [name IS NULL OR name = ''] is [name = '']. *)
Definition clean_database (db : Store) : Store * CleanupStats :=
  let (cookies1, n1) := delete_where (fun c => String.eqb (c_name c) "") (cookies db) in
  let (consent1, n2) :=
    delete_where (fun d => String.eqb (cd_cookie_name d) "") (consent_data db) in
  let ids := map cr_id (crawl_results db) in
  let (cookies2, n3) := delete_where (fun c => sql_not_in (c_crawl_id c) ids) cookies1 in
  let (consent2, n4) := delete_where (fun d => sql_not_in (cd_crawl_id d) ids) consent1 in
  ({| crawl_results := crawl_results db;
      cookies := cookies2;
      consent_data := consent2;
      crawl_seq := crawl_seq db |},
   {| empty_cookie_names_removed := n1;
      empty_consent_names_removed := n2;
      orphaned_cookies_removed := n3;
      orphaned_consent_data_removed := n4 |}).

(** [SELECT key, COUNT( * ) ... GROUP BY key], as the dictionary that
    [dict(cursor.fetchall())] builds; the groups are listed in the order of
    first occurrence (SQLite leaves the order open). *)
Fixpoint count_into {K : Type} (eqb : K -> K -> bool) (k : K) (d : list (K * Z))
  : list (K * Z) :=
  match d with
  | [] => [(k, 1)]
  | (k', n) :: t =>
      if eqb k k' then (k', n + 1) :: t else (k', n) :: count_into eqb k t
  end.

Definition group_count {K : Type} (eqb : K -> K -> bool) (keys : list K) : list (K * Z) :=
  fold_left (fun d k => count_into eqb k d) keys [].

Definition option_string_eqb (a b : option string) : bool :=
  match a, b with
  | None, None => true
  | Some x, Some y => String.eqb x y
  | _, _ => false
  end.

(** [COUNT(DISTINCT e)]: the distinct non-[NULL] values. *)
Definition count_distinct {K : Type} (dec : forall a b : K, {a = b} + {a <> b})
  (values : list K) : Z :=
  Z.of_nat (length (nodup dec values)).

(** The dictionary of [CookieExtractor.get_database_statistics]. *)
Record DatabaseStatistics := {
  total_crawls : Z;
  successful_crawls : Z;
  failed_crawls : Z;
  cmp_distribution : list (option string * Z);
  total_cookies : Z;
  unique_cookies : Z;
  consent_data_entries : Z;
  domains_with_consent_data : Z
}.

Definition get_database_statistics (db : Store) : DatabaseStatistics :=
  {| total_crawls := Z.of_nat (length (crawl_results db));
     successful_crawls := Z.of_nat (length (filter cr_success (crawl_results db)));
     failed_crawls :=
       Z.of_nat (length (filter (fun cr => negb (cr_success cr)) (crawl_results db)));
     cmp_distribution :=
       group_count option_string_eqb
         (map cr_cmp_type (filter cr_success (crawl_results db)));
     total_cookies := Z.of_nat (length (cookies db));
     unique_cookies :=
       count_distinct string_dec (map (fun c => (c_name c ++ c_domain c)%string) (cookies db));
     consent_data_entries := Z.of_nat (length (consent_data db));
     domains_with_consent_data :=
       count_distinct Z.eq_dec
         (flat_map (fun d => match cd_crawl_id d with Some id => [id] | None => [] end)
            (consent_data db)) |}.

(** The total of a [GROUP BY] dictionary. *)
Definition total_count {K : Type} (d : list (K * Z)) : Z :=
  fold_right (fun kv acc => snd kv + acc) 0 d.

End DatabaseProcessor.

(** ** The analyzer: [cookie_stats.py], on the export of the matcher *)

Module CookieStatsAnalyzer.
Import PyStr CookieExtractor.
Local Open Scope Z_scope.

(** [stats["total_unique_cookies"]] of [get_basic_statistics]. *)
Definition total_unique_cookies (cookies : Dict) : Z :=
  Z.of_nat (length cookies).

(** [stats["total_cookie_instances"]] of [get_basic_statistics]:
    [sum(len(cookie["variable_data"]) for cookie in self.cookies.values())]. *)
Definition total_cookie_instances (cookies : Dict) : Z :=
  fold_right (fun ke acc => Z.of_nat (length (variable_data (snd ke))) + acc) 0 cookies.

(** [security_stats] and [total_instances] of [analyze_security_attributes]. *)
Record SecurityStats := {
  total_instances : Z;
  secure_count : Z;
  http_only_count : Z;
  secure_and_http_only : Z;
  same_site_strict : Z;
  same_site_lax : Z;
  same_site_none : Z;
  same_site_not_set : Z
}.

Definition security_init : SecurityStats :=
  {| total_instances := 0; secure_count := 0; http_only_count := 0;
     secure_and_http_only := 0; same_site_strict := 0; same_site_lax := 0;
     same_site_none := 0; same_site_not_set := 0 |}.

Definition bump_if (c : bool) (n : Z) : Z := if c then n + 1 else n.

(** The body of the inner loop, for one instance. *)
Definition count_instance (st : SecurityStats) (var_data : VariableData) : SecurityStats :=
  let same_site := lower (same_site var_data) in
  let is_strict := String.eqb same_site "strict" in
  let is_lax := negb is_strict && String.eqb same_site "lax" in
  let is_none :=
    negb is_strict && negb is_lax
    && (String.eqb same_site "none" || String.eqb same_site "no_restriction") in
  {| total_instances := total_instances st + 1;
     secure_count := bump_if (secure var_data) (secure_count st);
     http_only_count := bump_if (http_only var_data) (http_only_count st);
     secure_and_http_only :=
       bump_if (secure var_data && http_only var_data) (secure_and_http_only st);
     same_site_strict := bump_if is_strict (same_site_strict st);
     same_site_lax := bump_if is_lax (same_site_lax st);
     same_site_none := bump_if is_none (same_site_none st);
     same_site_not_set :=
       bump_if (negb is_strict && negb is_lax && negb is_none) (same_site_not_set st) |}.

(** The counting loops of [analyze_security_attributes] (the conversion of
    the counts to percentages is floating-point arithmetic and is left
    out). *)
Definition security_counts (cookies : Dict) : SecurityStats :=
  fold_left
    (fun st ke => fold_left count_instance (variable_data (snd ke)) st)
    cookies security_init.

(** The counts are consistent with one another. *)
Definition balanced (st : SecurityStats) : Prop :=
  same_site_strict st + same_site_lax st + same_site_none st + same_site_not_set st
  = total_instances st
  /\ 0 <= secure_and_http_only st
  /\ secure_and_http_only st <= secure_count st
  /\ secure_and_http_only st <= http_only_count st
  /\ secure_count st + http_only_count st - secure_and_http_only st <= total_instances st.

End CookieStatsAnalyzer.

(** ** Vocabulary for the order of the fetched rows *)

Module RowOrder.
Import PyStr CookieExtractor.

(** A fetched row that carries a cookie. *)
Definition named (row : Row) : bool := truthy (cookie_name row).

(** [ORDER BY cr.domain, c.name] as a relation. *)
Definition row_le (a b : Row) : Prop := row_leb a b = true.

(** The join of the query before [ORDER BY]. *)
Definition joined (db : Schema.Store) : list Row :=
  flat_map
    (fun cr =>
       flat_map (join_consent (Schema.consent_data db) cr)
         (join_cookies (Schema.cookies db) cr))
    (filter Schema.cr_success (Schema.crawl_results db)).

End RowOrder.

(** ** Vocabulary for the pool's buckets *)

Module PoolSpec.
Import PyStr PresenceCrawler PresencePool.

Definition is_expired (o : PoolOutcome) : bool :=
  match o with Expired => true | Done _ _ => false end.

(** The codes that the last [else] of the bucket chain receives. *)
Definition falls_through (q : QuickCrawlResult) : bool :=
  match q with
  | OK | CONNECT_FAIL | CRAWL_TIMEOUT => true
  | _ => false
  end.

Definition is_connect_fail (q : QuickCrawlResult) : bool :=
  match q with CONNECT_FAIL => true | _ => false end.

End PoolSpec.

(** ** Domain de-duplication: [filter_duplicate_netlocs.py] *)

Module DomainFilter.
Import PyStr.

(** The module-level [domains] set and [urls] list.  Of the set only
    membership is observed, so it is kept as a list. *)
Record State := {
  domains : list string;
  urls : list string
}.

Definition initial : State := {| domains := []; urls := [] |}.

Section Filter.

(** [normalize_domain_from_line] rests on [urlparse] and on the public
    suffix list of [tldextract]; it is a parameter here. *)
Variable normalize_domain_from_line : string -> option string.

(** [unique_extract] *)
Definition unique_extract (st : State) (line : string) : State :=
  let reg := normalize_domain_from_line line in
  if negb (truthy reg) then st
  else
    let reg := or_default reg "" in
    if existsb (String.eqb reg) (domains st) then st
    else {| domains := reg :: domains st; urls := (urls st ++ [reg])%list |}.

(** [for l in fd: unique_extract(l)] *)
Definition extract_all (lines : list string) : State :=
  fold_left unique_extract lines initial.

End Filter.

End DomainFilter.

(** ** Text that is ASCII *)

Module AsciiText.

(** [s.isascii()].  On such text [str.lower()] and [re.IGNORECASE] do what
    [PyStr.lower] and [Re.match_prefix] do.  Outside it [str.lower()] also
    maps U+212A to [k] and U+0130 to [i] followed by U+0307, and
    [re.IGNORECASE] also matches U+212A with [k], U+017F with [s] and U+0130,
    U+0131 with [i]; a statement that needs a literal to be matched by nothing
    but its ASCII case variants is made for ASCII text. *)
Definition isascii_char (c : ascii) : bool := (nat_of_ascii c <? 128)%nat.

Fixpoint isascii (s : string) : bool :=
  match s with
  | EmptyString => true
  | String c t => isascii_char c && isascii t
  end.

End AsciiText.

(** ** The fingerprints of the probe, written out *)

Module Fingerprints.
Import PyStr PresenceCrawler.

(** The words of [cb_base_pat] and [cb_script_name], of the seven
    [onetrust_patterns] and of [termly_url_pattern], in lower case. *)
Definition cookiebot_literals : list string :=
  [ "https://consent.cookiebot.com/"; "https://consent.cookiebot.eu/"; "cb-main.js" ].

Definition onetrust_literals : list string :=
  [ "https://cdn-apac.onetrust.com"; "https://cdn-ukwest.onetrust.com";
    "https://cmp-cdn.cookielaw.org"; "https://cdn.cookielaw.org";
    "https://optanon.blob.core.windows.net"; "https://cookie-cdn.cookiepro.com";
    "https://cookiepro.blob.core.windows.net" ].

Definition termly_literals : list string := [ "https://app.termly.io/" ].

(** The specification's reading of content classification: the first family,
    in the order Cookiebot, OneTrust, Termly, one of whose literals occurs in
    the body in any mix of upper and lower case; NOCMP when none does. *)
Definition literal_class (body : string) : QuickCrawlResult :=
  if any_in cookiebot_literals (lower body) then COOKIEBOT
  else if any_in onetrust_literals (lower body) then ONETRUST
  else if any_in termly_literals (lower body) then TERMLY
  else NOCMP.

(** The keywords of [detect_cmp_type], per family. *)
Definition cookiebot_keywords : list string := [ "cookiebot"; "consent.cookiebot" ].
Definition onetrust_keywords : list string := [ "onetrust"; "cookielaw"; "optanon"; "cookiepro" ].
Definition termly_keywords : list string := [ "termly"; "app.termly.io" ].

(** The specification's reading of [detect_cmp_type] on a page source. *)
Definition keyword_class (src : string) : string :=
  if any_in cookiebot_keywords (lower src) then "cookiebot"
  else if any_in onetrust_keywords (lower src) then "onetrust"
  else if any_in termly_keywords (lower src) then "termly"
  else "unknown".

End Fingerprints.

(** ** The call of [run_reachability_check], with the parse of its argument *)

Module ProbeCall.
Import PyStr PresenceCrawler.

Section Call.

(** [urlparse(input_domain)] (source line 103) stands before the loop and
    outside every [try]: it raises [ValueError] for an input whose network
    location has an unbalanced bracket, such as ["http://[::1"] or ["//["],
    and the exception leaves [run_reachability_check] before any request is
    made.  [None] stands for that exception, [Some s] for a parse whose
    [.scheme] is [s]. *)
Variable urlparse_scheme : string -> option string.
Variable get : string -> GetOutcome.
Variable check_cmp : bool.

(** The URLs requested, and the value returned ([None]: the [ValueError]
    propagates to the caller). *)
Definition run_reachability_check_trace (input_domain : string)
  : list string * option (string * QuickCrawlResult) :=
  match urlparse_scheme input_domain with
  | None => ([], None)
  | Some s =>
      let (attempts, result) :=
        PresenceCrawler.run_reachability_check_trace (fun _ => s) get check_cmp input_domain in
      (attempts, Some result)
  end.

Definition attempts (input_domain : string) : list string :=
  fst (run_reachability_check_trace input_domain).

Definition run_reachability_check (input_domain : string)
  : option (string * QuickCrawlResult) :=
  snd (run_reachability_check_trace input_domain).

End Call.

End ProbeCall.

(** ** The worker pool, with the exceptions it lets through *)

Module PoolRun.
Import PyStr PresenceCrawler PresencePool.

(** What [next(it)] does for one submitted domain: it yields the worker's
    result or raises [CTimeoutError] / [ProcessExpired] (the two cases of
    [PoolOutcome], both handled inside the loop), or it raises any other
    exception, in particular one that the worker raised, which it re-raises.
    The [except] clause at source line 207 names the first two only, and the
    enclosing handlers are for [StopIteration] and [KeyboardInterrupt]: any
    other exception leaves [crawl_domains]. *)
Inductive TaskOutcome : Type :=
| Yields (o : PoolOutcome)
| Reraises.

Section Run.

Variable task : string -> TaskOutcome.

(** The [while True] loop over one chunk; [None]: an exception leaves
    [crawl_domains] and the buckets are lost. *)
Fixpoint process_chunk (results : Results) (chunk : list string) : option Results :=
  match chunk with
  | [] => Some results
  | submitted :: rest =>
      match task submitted with
      | Reraises => None
      | Yields o => process_chunk (categorize results submitted o) rest
      end
  end.

(** [for batch_num, chunk in enumerate(chunks, 1)] *)
Fixpoint process_chunks (results : Results) (batches : list (list string)) : option Results :=
  match batches with
  | [] => Some results
  | chunk :: rest =>
      match process_chunk results chunk with
      | None => None
      | Some results' => process_chunks results' rest
      end
  end.

(** [crawl_domains] without an operator interrupt; [None]: the call raises
    (the [ZeroDivisionError] of [batches = 0], or a worker's exception). *)
Definition crawl_domains (domains : list string) (batches : Z) : option Results :=
  match chunksize (length domains) batches with
  | None => None
  | Some size => process_chunks empty_results (chunks domains size)
  end.

End Run.

(** The pool's task when the worker runs [run_reachability_check]: [expires]
    tells which tasks time out or crash; a [ValueError] of [urlparse] in the
    worker is re-raised by [next(it)]. *)
Definition pool_task (urlparse_scheme : string -> option string)
  (get : string -> GetOutcome) (check_cmp : bool) (expires : string -> bool)
  (submitted : string) : TaskOutcome :=
  if expires submitted then Yields Expired
  else match ProbeCall.run_reachability_check urlparse_scheme get check_cmp submitted with
       | None => Reraises
       | Some (final_domain, status) => Yields (Done final_domain status)
       end.

(** A task that raises nothing but a timeout or crash. *)
Definition yields (t : TaskOutcome) : bool :=
  match t with Yields _ => true | Reraises => false end.

End PoolRun.

(** ** Vocabulary for the traces of a crawl *)

Module TraceSpec.
Import PyStr ConsentCrawler.

(** The selector finds a control that is displayed and enabled, so that
    [button.click()] is called ([is_enabled] is only asked of a displayed
    control). *)
Definition offered (b : Browser) (selector : string) : bool :=
  match find_element b selector with
  | Ok button =>
      match is_displayed button with
      | Ok true => match is_enabled button with Ok true => true | _ => false end
      | _ => false
      end
  | Raise _ => false
  end.

(** ... and the click goes through. *)
Definition clickable (b : Browser) (selector : string) : bool :=
  offered b selector
  && match find_element b selector with
     | Ok button => match click button with Ok _ => true | Raise _ => false end
     | Raise _ => false
     end.

(** The selectors clicked, and the delays slept, in the order of a trace. *)
Definition clicks (t : list event) : list string :=
  flat_map (fun ev => match ev with EvClick s => [s] | _ => [] end) t.

Definition sleeps (t : list event) : list nat :=
  flat_map (fun ev => match ev with EvSleep n => [n] | _ => [] end) t.

(** The [driver.find_elements] lookup of the scraper that [crawl_domain] runs
    for a detected CMP (source lines 271-274). *)
Definition scraper_lookup (cmp_type : string) : list event :=
  if String.eqb cmp_type "cookiebot" then [EvFindElements "[data-cookiefirst-category]"]
  else if String.eqb cmp_type "onetrust" then [EvFindElements ".ot-sdk-cookie"]
  else [].

End TraceSpec.

(** ** More concrete inputs *)

Module MoreExamples.
Import PyStr Examples.

(** [urlparse] on the example inputs: ["http://[::1"] is rejected with
    [ValueError: Invalid IPv6 URL]. *)
Definition example_urlparse (s : string) : option string :=
  if String.eqb s "http://[::1" then None else Some (simple_scheme s).

(** A body whose only marker is a Termly URL in upper case. *)
Definition termly_upper : string :=
  "<script src='HTTPS://APP.TERMLY.IO/embed.min.js'></script>".

(** The pool's tasks on a network where every request fails, with workers
    that neither time out nor crash. *)
Definition example_task : string -> PoolRun.TaskOutcome :=
  PoolRun.pool_task example_urlparse broken_net true (fun _ => false).

(** A page with a hidden accept control under the first selector and a
    working one under the second. *)
Definition hidden_button : ConsentCrawler.Button :=
  {| ConsentCrawler.is_displayed := ConsentCrawler.Ok false;
     ConsentCrawler.is_enabled := ConsentCrawler.Ok true;
     ConsentCrawler.click := ConsentCrawler.Ok tt |}.

Definition working_button : ConsentCrawler.Button :=
  {| ConsentCrawler.is_displayed := ConsentCrawler.Ok true;
     ConsentCrawler.is_enabled := ConsentCrawler.Ok true;
     ConsentCrawler.click := ConsentCrawler.Ok tt |}.

Definition banner_site : ConsentCrawler.Browser :=
  {| ConsentCrawler.create_driver := ConsentCrawler.Ok tt;
     ConsentCrawler.driver_get := fun _ => ConsentCrawler.Ok tt;
     ConsentCrawler.wait_ready := ConsentCrawler.Ok tt;
     ConsentCrawler.page_source := ConsentCrawler.Ok "<button class='accept-all'>OK</button>";
     ConsentCrawler.cookiebot_elements := ConsentCrawler.Ok [];
     ConsentCrawler.onetrust_elements := ConsentCrawler.Ok [];
     ConsentCrawler.get_cookies := fun _ => ConsentCrawler.Ok [];
     ConsentCrawler.find_element := fun selector =>
       if String.eqb selector "[id*='accept']" then ConsentCrawler.Ok hidden_button
       else if String.eqb selector "[class*='accept']" then ConsentCrawler.Ok working_button
       else ConsentCrawler.Raise (ConsentCrawler.OtherException "Message: no such element");
     ConsentCrawler.quit := ConsentCrawler.Ok tt |}.

(** The store of [declared_once_db] with three rows for the cleaner: a
    cookie without a name in the first crawl, a cookie of a crawl that does
    not exist, and a declaration without a cookie name. *)
Definition untidy_db : Schema.Store :=
  {| Schema.crawl_results := Schema.crawl_results declared_once_db;
     Schema.cookies :=
       (Schema.cookies declared_once_db
        ++ [ cookie_row 1 "" ".tracker.example" "x" "/";
             cookie_row 9 "_gid" ".tracker.example" "GA1.9" "/" ])%list;
     Schema.consent_data :=
       (Schema.consent_data declared_once_db
        ++ [ consent_row 1 "" ".tracker.example" "Marketing" ])%list;
     Schema.crawl_seq := 2 |}.

End MoreExamples.

(** * Properties *)

(** ** Facts about the string primitives *)

Module PyStrFacts.
Import PyStr.

Lemma startswith_iff (p s : string) :
  startswith p s = true <-> exists b, s = p ++ b.
Proof.
  revert s; induction p as [|a p IH]; intros s; simpl.
  - split; [intros _; now exists s | reflexivity].
  - destruct s as [|c s].
    + split; [discriminate | intros [b Hb]; discriminate].
    + rewrite andb_true_iff, Ascii.eqb_eq, IH. split.
      * intros [-> [b ->]]. now exists b.
      * intros [b Hb]. injection Hb as -> ->. split; [reflexivity | now exists b].
Qed.

Lemma append_assoc (a b c : string) : (a ++ b) ++ c = a ++ (b ++ c).
Proof. induction a as [|x a IH]; simpl; [reflexivity | now rewrite IH]. Qed.

Lemma contains_iff (n h : string) :
  contains n h = true <-> exists a b, h = a ++ n ++ b.
Proof.
  induction h as [|c h IH].
  - simpl. rewrite orb_false_r, startswith_iff. split.
    + intros [b Hb]. now exists EmptyString, b.
    + intros [a [b Hb]]. destruct a; [now exists b | discriminate].
  - cbn [contains]. rewrite orb_true_iff, startswith_iff, IH. split.
    + intros [[b Hb] | [a [b Hb]]].
      * now exists EmptyString, b.
      * exists (String c a), b. simpl. now rewrite Hb.
    + intros [a [b Hb]]. destruct a as [|x a]; simpl in Hb.
      * left. now exists b.
      * right. injection Hb as _ Hb. now exists a, b.
Qed.

Lemma contains_trans (a b c : string) :
  contains a b = true -> contains b c = true -> contains a c = true.
Proof.
  rewrite !contains_iff. intros [x [y ->]] [u [v ->]].
  exists (u ++ x), (y ++ v). now rewrite !append_assoc.
Qed.

Lemma lower_app (a b : string) : lower (a ++ b) = lower a ++ lower b.
Proof. induction a as [|x a IH]; simpl; [reflexivity | now rewrite IH]. Qed.

Lemma truthy_or_default (o : option string) :
  truthy o = true -> o = Some (or_default o "").
Proof. destruct o as [[|c s]|]; simpl; intros H; try discriminate; reflexivity. Qed.

End PyStrFacts.

(** ** Label normalisation *)

Module LabelProps.
Import PyStr CookieExtractor.
Local Open Scope Z_scope.

Lemma lower_empty_iff (s : string) : lower s = EmptyString <-> s = EmptyString.
Proof. destruct s; simpl; split; intros H; try discriminate; reflexivity. Qed.

Lemma map_purpose_category_chain (c : ascii) (s : string) :
  _map_purpose_category (Some (String c s)) = first_match purpose_table (String c s).
Proof. reflexivity. Qed.

(** The label of a non-empty text is a function of its lower-cased form. *)
Lemma first_match_lower (s t : string) :
  lower s = lower t -> first_match purpose_table s = first_match purpose_table t.
Proof. intros H. unfold purpose_table. cbn [first_match]. now rewrite H. Qed.

(** C7.  [_map_purpose_category] is the ordered keyword-containment test of
    the specification: the categories are tried in the order necessary (0),
    functional (1), analytics (2), advertising (3), social (4) on the
    lower-cased text, the first one with a contained keyword is returned, and
    the result is -1 when none matches or the text is missing or empty; the
    test is case-insensitive; "Strictly Necessary Cookies" gives 0,
    "Marketing & Advertising" gives 3, an unrecognised text gives -1. *)
Theorem map_purpose_category_first_match :
  (forall category, _map_purpose_category category = spec_label category)
  /\ map fst purpose_table = [0; 1; 2; 3; 4]
  /\ (forall s t, lower s = lower t ->
        _map_purpose_category (Some s) = _map_purpose_category (Some t))
  /\ _map_purpose_category (Some "Strictly Necessary Cookies") = 0
  /\ _map_purpose_category (Some "Marketing & Advertising") = 3
  /\ _map_purpose_category (Some "Miscellaneous") = -1
  /\ _map_purpose_category (Some "") = -1
  /\ _map_purpose_category None = -1.
Proof.
  split; [| split; [reflexivity | split; [| repeat split; reflexivity]]].
  - intros [[|c s]|]; reflexivity.
  - intros s t H. destruct s as [|c s], t as [|d t]; try discriminate; [reflexivity|].
    rewrite !map_purpose_category_chain. now apply first_match_lower.
Qed.

End LabelProps.

(** ** Facts about the pattern matcher *)

Module ReFacts.
Import PyStr Re PyStrFacts.

Lemma match_prefix_lang (r : regex) :
  forall s t, In t (match_prefix r s) ->
    exists w, In w (lang r) /\ lower s = lower w ++ lower t.
Proof.
  induction r as [|c|r1 IH1 r2 IH2|r1 IH1 r2 IH2]; intros s t Hin; simpl in Hin.
  - destruct Hin as [<-|[]]. exists EmptyString. split; [now left | reflexivity].
  - destruct s as [|d s']; [contradiction|].
    destruct (Ascii.eqb (lower_ascii c) (lower_ascii d)) eqn:E; [|contradiction].
    destruct Hin as [<-|[]]. apply Ascii.eqb_eq in E.
    exists (String c EmptyString). split; [now left | simpl; now rewrite E].
  - apply in_flat_map in Hin as [u [Hu Ht]].
    destruct (IH1 _ _ Hu) as [w1 [Hw1 E1]]. destruct (IH2 _ _ Ht) as [w2 [Hw2 E2]].
    exists (w1 ++ w2). split.
    + simpl. apply in_flat_map. exists w1. split; [assumption|].
      apply in_map_iff. now exists w2.
    + now rewrite E1, E2, lower_app, append_assoc.
  - apply in_app_or in Hin as [Hin|Hin].
    + destruct (IH1 _ _ Hin) as [w [Hw E]]. exists w. split; [|assumption].
      simpl. apply in_or_app. now left.
    + destruct (IH2 _ _ Hin) as [w [Hw E]]. exists w. split; [|assumption].
      simpl. apply in_or_app. now right.
Qed.

(** A successful search finds a word of the pattern, up to case. *)
Lemma search_lang (r : regex) (s : string) :
  search r s = true ->
  exists w, In w (lang r) /\ contains (lower w) (lower s) = true.
Proof.
  induction s as [|c s IH]; cbn [search]; rewrite ?orb_false_r.
  - unfold matches_at. destruct (match_prefix r EmptyString) as [|t l] eqn:E; [discriminate|].
    intros _. destruct (match_prefix_lang r EmptyString t) as [w [Hw Hl]].
    { rewrite E. now left. }
    exists w. split; [assumption|]. apply contains_iff.
    exists EmptyString, (lower t). exact Hl.
  - intros H. apply orb_true_iff in H as [H|H].
    + unfold matches_at in H.
      destruct (match_prefix r (String c s)) as [|t l] eqn:E; [discriminate|].
      destruct (match_prefix_lang r (String c s) t) as [w [Hw Hl]].
      { rewrite E. now left. }
      exists w. split; [assumption|]. apply contains_iff.
      exists EmptyString, (lower t). exact Hl.
    + destruct (IH H) as [w [Hw Hc]]. exists w. split; [assumption|].
      cbn [lower contains]. rewrite Hc. apply orb_true_r.
Qed.

End ReFacts.

(** ** The presence probe *)

Module PresenceProps.
Import PyStr Re PresenceCrawler Spec Examples.

Section Loop.
Variable get : string -> GetOutcome.
Variables input_domain suffix : string.

(** The URLs tried are the prefixed URLs up to the first that does not fail
    with a connection or timeout error. *)
Lemma try_prefixes_attempts (prefixes : list string) :
  fst (try_prefixes get input_domain suffix prefixes)
  = take_until (stops get) (map (fun prefix => prefix ++ suffix) prefixes).
Proof.
  induction prefixes as [|prefix rest IH]; [reflexivity|].
  cbn [try_prefixes map take_until]. unfold stops at 1.
  destruct (get (prefix ++ suffix)) as [| | |r]; try reflexivity.
  - destruct (try_prefixes get input_domain suffix rest) as [a e]. simpl in *. now rewrite IH.
  - destruct (negb (ok r)); [destruct (_ || _)|]; reflexivity.
Qed.

(** With only connection or timeout errors the list is exhausted. *)
Lemma try_prefixes_exhausted (prefixes : list string) :
  existsb (stops get) (map (fun prefix => prefix ++ suffix) prefixes) = false ->
  snd (try_prefixes get input_domain suffix prefixes) = Exhausted.
Proof.
  induction prefixes as [|prefix rest IH]; [reflexivity|].
  cbn [try_prefixes map existsb]. unfold stops at 1.
  destruct (get (prefix ++ suffix)) as [| | |r]; try discriminate.
  rewrite orb_false_l. intros H.
  destruct (try_prefixes get input_domain suffix rest) as [a e]. simpl in *. auto.
Qed.

Lemma try_prefixes_nil (prefixes : list string) :
  fst (try_prefixes get input_domain suffix prefixes) = [] -> prefixes = [].
Proof.
  destruct prefixes as [|prefix rest]; [reflexivity|]. cbn [try_prefixes].
  destruct (get (prefix ++ suffix)) as [| | |r]; try discriminate.
  - destruct (try_prefixes get input_domain suffix rest); discriminate.
  - destruct (negb (ok r)); [destruct (_ || _)|]; discriminate.
Qed.

(** The way the loop is left is decided by the answer to the last attempt. *)
Lemma try_prefixes_last (prefixes : list string) :
  forall pre u r,
    fst (try_prefixes get input_domain suffix prefixes) = (pre ++ [u])%list ->
    get u = Returns r -> ok r = true ->
    snd (try_prefixes get input_domain suffix prefixes) = Broke (url r) r.
Proof.
  induction prefixes as [|prefix rest IH]; intros pre u r Hfst Hget Hok.
  - destruct pre; discriminate.
  - cbn [try_prefixes] in *.
    destruct (get (prefix ++ suffix)) as [| | |r'] eqn:E.
    + destruct pre as [|x [|y pre]]; try discriminate. injection Hfst as <-. congruence.
    + destruct (try_prefixes get input_domain suffix rest) as [a e] eqn:Er.
      simpl in *. destruct pre as [|x pre].
      * injection Hfst as <- _. congruence.
      * injection Hfst as _ Ha. exact (IH _ _ _ Ha Hget Hok).
    + destruct pre as [|x [|y pre]]; try discriminate. injection Hfst as <-. congruence.
    + assert (Hu : fst (if negb (ok r')
                        then if ((status_code r' =? 403)%Z || (status_code r' =? 406)%Z)%bool
                             then ([prefix ++ suffix], Returned (prefix ++ suffix) BOT)
                             else ([prefix ++ suffix], Returned (prefix ++ suffix) HTTP_ERROR)
                        else ([prefix ++ suffix], Broke (url r') r')) = [prefix ++ suffix]).
      { destruct (negb (ok r')); [destruct (_ || _)|]; reflexivity. }
      rewrite Hu in Hfst. destruct pre as [|x [|y pre]]; try discriminate.
      injection Hfst as <-. rewrite E in Hget. injection Hget as ->.
      now rewrite Hok.
Qed.

End Loop.

Lemma ok_2xx (r : Response) :
  (200 <= status_code r < 300)%Z -> ok r = true.
Proof.
  intros H. unfold ok. destruct (400 <=? status_code r)%Z eqn:E; [|reflexivity].
  apply Z.leb_le in E. lia.
Qed.

Lemma classify_content_first_family (r : Response) :
  classify_content r = outcome_of_family (first_family probe_registry r).
Proof.
  unfold classify_content, probe_registry. cbn [first_family].
  destruct (check_cookiebot_presence r); [reflexivity|].
  destruct (check_onetrust_presence r); [reflexivity|].
  destruct (check_termly_presence r); reflexivity.
Qed.

(** Once the argument is parsed: when the attempt that ends the probe is
    answered with a 2xx response, the result is the response's URL with the
    classification of its body. *)
Lemma classified_after_parse
  (scheme : string -> string) (get : string -> GetOutcome)
  (input_domain : string) (pre : list string) (u : string) (r : Response) :
  attempts scheme get true input_domain = (pre ++ [u])%list ->
  get u = Returns r ->
  (200 <= status_code r < 300)%Z ->
  run_reachability_check scheme get true input_domain = (url r, classify_content r).
Proof.
  intros Hatt Hget Hst.
  unfold run_reachability_check, attempts, run_reachability_check_trace in *.
  pose proof (try_prefixes_last get input_domain (url_suffix scheme input_domain)
                (prefix_list scheme input_domain) pre u r) as HL.
  destruct (try_prefixes get input_domain (url_suffix scheme input_domain)
              (prefix_list scheme input_domain)) as [a e].
  simpl in *. rewrite (HL Hatt Hget (ok_2xx r Hst)). reflexivity.
Qed.

Lemma take_until_no_stop {A : Type} (stop : A -> bool) (l : list A) :
  (forall x, In x (take_until stop l) -> stop x = false) -> existsb stop l = false.
Proof.
  induction l as [|x t IH]; intros H; [reflexivity|]. cbn [take_until existsb] in *.
  destruct (stop x) eqn:E.
  - assert (stop x = false) by (apply H; now left). congruence.
  - apply IH. intros y Hy. apply H. now right.
Qed.

Lemma attempts_take_until (scheme : string -> string) (get : string -> GetOutcome)
  (check_cmp : bool) (input_domain : string) :
  attempts scheme get check_cmp input_domain
  = take_until (stops get)
      (if has_http_scheme scheme input_domain then [input_domain]
       else candidates input_domain).
Proof.
  unfold attempts, run_reachability_check_trace.
  pose proof (try_prefixes_attempts get input_domain (url_suffix scheme input_domain)
                (prefix_list scheme input_domain)) as H.
  destruct (try_prefixes get input_domain (url_suffix scheme input_domain)
              (prefix_list scheme input_domain)) as [a e].
  simpl in *. rewrite H. unfold prefix_list, url_suffix.
  destruct (has_http_scheme scheme input_domain); reflexivity.
Qed.

(** Once the argument is parsed: a domain with an http/https scheme is
    attempted once, at that URL; any other domain loses a leading "www." and
    is attempted under the three prefixes in order, up to and including the
    first attempt that ends in anything but a connection or timeout error;
    when every attempt ends in such an error the result is CONNECT_FAIL with
    the original input. *)
Lemma attempts_after_parse
  (scheme : string -> string) (get : string -> GetOutcome)
  (check_cmp : bool) (input_domain : string) :
  (has_http_scheme scheme input_domain = true ->
     attempts scheme get check_cmp input_domain = [input_domain])
  /\ (has_http_scheme scheme input_domain = false ->
        attempts scheme get check_cmp input_domain
        = take_until (stops get) (candidates input_domain))
  /\ ((forall u, In u (attempts scheme get check_cmp input_domain) ->
                 get u = RaisesConnOrTimeout) ->
      run_reachability_check scheme get check_cmp input_domain
      = (input_domain, CONNECT_FAIL)).
Proof.
  split; [| split].
  - intros H. rewrite attempts_take_until, H. cbn [take_until].
    destruct (stops get input_domain); reflexivity.
  - intros H. now rewrite attempts_take_until, H.
  - intros Hall.
    assert (Hex : existsb (stops get)
                    (map (fun prefix => prefix ++ url_suffix scheme input_domain)
                         (prefix_list scheme input_domain)) = false).
    { apply take_until_no_stop. intros u Hu. unfold stops. rewrite Hall; [reflexivity|].
      unfold attempts, run_reachability_check_trace.
      pose proof (try_prefixes_attempts get input_domain (url_suffix scheme input_domain)
                    (prefix_list scheme input_domain)) as H.
      destruct (try_prefixes get input_domain (url_suffix scheme input_domain)
                  (prefix_list scheme input_domain)) as [a e].
      simpl in *. now rewrite H. }
    unfold run_reachability_check, run_reachability_check_trace.
    pose proof (try_prefixes_exhausted get input_domain (url_suffix scheme input_domain)
                  (prefix_list scheme input_domain) Hex) as H.
    destruct (try_prefixes get input_domain (url_suffix scheme input_domain)
                (prefix_list scheme input_domain)) as [a e].
    simpl in *. now rewrite H.
Qed.

End PresenceProps.

(** ** The two fingerprint tables *)

Module FingerprintProps.
Import PyStr Re PyStrFacts ReFacts PresenceCrawler ConsentCrawler Spec Examples.

Lemma cmp_of_page_source_first_family (content : string) :
  cmp_of_page_source content = cmp_type_of_family (first_family extractor_registry content).
Proof.
  unfold cmp_of_page_source, extractor_registry, any_in. cbn [first_family existsb].
  rewrite !orb_false_r.
  destruct (contains "cookiebot" (lower content) || contains "consent.cookiebot" (lower content));
    [reflexivity|].
  destruct (contains "onetrust" (lower content) || _); [reflexivity|].
  destruct (contains "termly" (lower content) || _); reflexivity.
Qed.

Lemma family_of_cmp_type_of_family (f : option Family) :
  family_of_cmp_type (cmp_type_of_family f) = f.
Proof. destruct f as [[| |]|]; reflexivity. Qed.

Lemma extractor_family_first_family (content : string) :
  extractor_family content = first_family extractor_registry content.
Proof.
  unfold extractor_family.
  now rewrite cmp_of_page_source_first_family, family_of_cmp_type_of_family.
Qed.

Lemma probe_family_first_family (content : string) :
  probe_family content = first_family probe_registry (page 200 "" content).
Proof.
  unfold probe_family. fold (page 200 "" content).
  rewrite PresenceProps.classify_content_first_family.
  destruct (first_family probe_registry (page 200 "" content)) as [[| |]|]; reflexivity.
Qed.

(** C6, as the specification words it, fails: a page that only mentions
    Cookiebot is "cookiebot" for the extractor and NOCMP for the probe. *)
Lemma classifiers_disagree :
  cmp_of_page_source mentions_cookiebot = "cookiebot"
  /\ classify_content (page 200 "" mentions_cookiebot) = NOCMP
  /\ extractor_family mentions_cookiebot <> probe_family mentions_cookiebot.
Proof.
  split; [reflexivity | split; [reflexivity | vm_compute; discriminate]].
Qed.

End FingerprintProps.

(** ** The matcher *)

Module MatcherProps.
Import PyStr Schema CookieExtractor Spec Examples.
Local Open Scope Z_scope.

(** *** The dictionary *)

Lemma dict_mem_true (k : string) (d : Dict) :
  dict_mem k d = true <-> exists e, dict_get k d = Some e.
Proof.
  unfold dict_mem. destruct (dict_get k d) as [e|]; split; intros H;
    try discriminate; try reflexivity.
  - now exists e.
  - destruct H as [e' H]. discriminate.
Qed.

Lemma dict_get_in_keys (k : string) (d : Dict) (e : CookieEntry) :
  dict_get k d = Some e -> In k (dict_keys d).
Proof.
  induction d as [|[k' e'] t IH]; simpl; [discriminate|].
  destruct (String.eqb k k') eqn:E.
  - apply String.eqb_eq in E. intros _. now left.
  - intros H. right. now apply IH.
Qed.

Lemma dict_get_none_not_in (k : string) (d : Dict) :
  dict_get k d = None -> ~ In k (dict_keys d).
Proof.
  induction d as [|[k' e'] t IH]; simpl; [tauto|].
  destruct (String.eqb k k') eqn:E; [discriminate|].
  apply String.eqb_neq in E. intros H [Heq|Hin]; [congruence | now apply IH].
Qed.

Lemma dict_get_append_same (k : string) (v : VariableData) (d : Dict) (e : CookieEntry) :
  dict_get k d = Some e ->
  dict_get k (dict_append k v d) = Some (append_variable_data v e).
Proof.
  induction d as [|[k' e'] t IH]; simpl; [discriminate|].
  destruct (String.eqb k k') eqn:E; simpl; rewrite E.
  - now intros [= ->].
  - exact IH.
Qed.

Lemma dict_get_append_other (k k' : string) (v : VariableData) (d : Dict) :
  k' <> k -> dict_get k' (dict_append k v d) = dict_get k' d.
Proof.
  intros Hne. induction d as [|[k0 e0] t IH]; simpl; [reflexivity|].
  destruct (String.eqb k k0) eqn:E; simpl.
  - apply String.eqb_eq in E. subst k0.
    apply String.eqb_neq in Hne. now rewrite Hne.
  - now rewrite IH.
Qed.

Lemma dict_keys_append (k : string) (v : VariableData) (d : Dict) :
  dict_keys (dict_append k v d) = dict_keys d.
Proof.
  induction d as [|[k0 e0] t IH]; simpl; [reflexivity|].
  destruct (String.eqb k k0); simpl; [reflexivity | now rewrite IH].
Qed.

Lemma dict_get_set_new_same (k : string) (e : CookieEntry) (d : Dict) :
  dict_get k d = None -> dict_get k (dict_set_new k e d) = Some e.
Proof.
  unfold dict_set_new. induction d as [|[k0 e0] t IH]; simpl.
  - now rewrite String.eqb_refl.
  - destruct (String.eqb k k0); [discriminate | exact IH].
Qed.

Lemma dict_get_set_new_other (k k' : string) (e : CookieEntry) (d : Dict) :
  k' <> k -> dict_get k' (dict_set_new k e d) = dict_get k' d.
Proof.
  intros Hne. unfold dict_set_new. induction d as [|[k0 e0] t IH]; simpl.
  - apply String.eqb_neq in Hne. now rewrite Hne.
  - now rewrite IH.
Qed.

Lemma dict_keys_set_new (k : string) (e : CookieEntry) (d : Dict) :
  dict_keys (dict_set_new k e d) = (dict_keys d ++ [k])%list.
Proof. unfold dict_keys, dict_set_new. now rewrite map_app. Qed.

(** *** One iteration *)

Lemma process_row_data (include_unmatched : bool) (st : LoopState) (row : Row) :
  extracted_data (process_row include_unmatched st row)
  = step_data include_unmatched (extracted_data st) row.
Proof.
  unfold process_row, step_data, kept.
  destruct (truthy (cookie_name row)); [|reflexivity].
  destruct (truthy (purpose_category row)), include_unmatched; reflexivity.
Qed.

Lemma fold_process_row_data (include_unmatched : bool) (rows : list Row) :
  forall st,
    extracted_data (fold_left (process_row include_unmatched) rows st)
    = fold_left (step_data include_unmatched) rows (extracted_data st).
Proof.
  induction rows as [|row rows IH]; intros st; [reflexivity|].
  simpl. now rewrite IH, process_row_data.
Qed.

Lemma run_loop_data (include_unmatched : bool) (rows : list Row) :
  extracted_data (run_loop include_unmatched rows)
  = fold_left (step_data include_unmatched) rows [].
Proof. unfold run_loop. now rewrite fold_process_row_data. Qed.

Lemma run_loop_snoc (include_unmatched : bool) (rows : list Row) (row : Row) :
  extracted_data (run_loop include_unmatched (rows ++ [row]))
  = step_data include_unmatched (extracted_data (run_loop include_unmatched rows)) row.
Proof. now rewrite !run_loop_data, fold_left_app. Qed.

(** *** The whole loop *)

Lemma find_app {A : Type} (f : A -> bool) (l l' : list A) :
  find f (l ++ l') = match find f l with Some x => Some x | None => find f l' end.
Proof.
  induction l as [|x l IH]; simpl; [reflexivity|]. destruct (f x); [reflexivity | exact IH].
Qed.

Lemma find_none_filter {A : Type} (f : A -> bool) (l : list A) :
  find f l = None <-> filter f l = [].
Proof.
  induction l as [|x l IH]; simpl; [tauto|].
  destruct (f x); [split; discriminate | exact IH].
Qed.

(** The entry stored under a key: its fixed fields come from the first kept
    row with that key, its instances from all kept rows with that key, in
    order. *)
Lemma run_loop_entry (include_unmatched : bool) (k : string) (rows : list Row) :
  dict_get k (extracted_data (run_loop include_unmatched rows))
  = option_map
      (fun first =>
         entry_with (cookie_entry_of first)
           (map variable_data_of (filter (selects include_unmatched k) rows)))
      (find (selects include_unmatched k) rows).
Proof.
  induction rows as [|row rows IH] using rev_ind; [reflexivity|].
  rewrite run_loop_snoc, find_app, filter_app, map_app.
  assert (Hsel : selects include_unmatched k row
                 = kept include_unmatched row && String.eqb (cookie_id_of row) k)
    by reflexivity.
  unfold step_data. cbn [find filter]. rewrite Hsel. clear Hsel.
  destruct (kept include_unmatched row) eqn:Ekept; cbn [andb].
  - destruct (String.eqb (cookie_id_of row) k) eqn:Ekey.
    + apply String.eqb_eq in Ekey. subst k.
      destruct (dict_mem (cookie_id_of row) (extracted_data (run_loop include_unmatched rows)))
        eqn:Emem.
      * apply dict_mem_true in Emem as [e He].
        rewrite (dict_get_append_same _ _ _ _ He). rewrite He in IH.
        destruct (find (selects include_unmatched (cookie_id_of row)) rows) as [first|];
          [|discriminate].
        simpl in IH. injection IH as ->. reflexivity.
      * unfold dict_mem in Emem.
        destruct (dict_get (cookie_id_of row) (extracted_data (run_loop include_unmatched rows)))
          as [e|] eqn:He; [discriminate|].
        rewrite (dict_get_set_new_same _ _ _ He).
        destruct (find (selects include_unmatched (cookie_id_of row)) rows) as [first|] eqn:Ef;
          [discriminate|].
        apply find_none_filter in Ef. rewrite Ef. reflexivity.
    + apply String.eqb_neq in Ekey.
      assert (Hk : k <> cookie_id_of row) by congruence.
      rewrite app_nil_r.
      destruct (dict_mem (cookie_id_of row) (extracted_data (run_loop include_unmatched rows))).
      * rewrite (dict_get_append_other _ _ _ _ Hk), IH.
        destruct (find (selects include_unmatched k) rows); reflexivity.
      * rewrite (dict_get_set_new_other _ _ _ _ Hk), IH.
        destruct (find (selects include_unmatched k) rows); reflexivity.
  - rewrite app_nil_r, IH. destruct (find (selects include_unmatched k) rows); reflexivity.
Qed.

(** Top-level keys are never duplicated. *)
Lemma run_loop_keys_nodup (include_unmatched : bool) (rows : list Row) :
  NoDup (dict_keys (extracted_data (run_loop include_unmatched rows))).
Proof.
  induction rows as [|row rows IH] using rev_ind; [constructor|].
  rewrite run_loop_snoc. unfold step_data.
  destruct (kept include_unmatched row); [|exact IH].
  destruct (dict_mem (cookie_id_of row) (extracted_data (run_loop include_unmatched rows)))
    eqn:Emem.
  - now rewrite dict_keys_append.
  - rewrite dict_keys_set_new. unfold dict_mem in Emem.
    destruct (dict_get (cookie_id_of row) (extracted_data (run_loop include_unmatched rows)))
      eqn:He; [discriminate|].
    apply dict_get_none_not_in in He.
    apply NoDup_rev in IH. rewrite <- (rev_involutive (_ ++ _)). apply NoDup_rev.
    rewrite rev_app_distr. simpl. constructor; [|exact IH].
    now rewrite <- in_rev.
Qed.

(** *** The claims about the matcher *)

(** A kept row whose key is present: one instance is appended in place. *)
Lemma step_data_existing_key
  (include_unmatched : bool) (d : Dict) (row : Row) (e : CookieEntry) :
  kept include_unmatched row = true ->
  dict_get (cookie_id_of row) d = Some e ->
  dict_get (cookie_id_of row) (step_data include_unmatched d row)
  = Some (append_variable_data (variable_data_of row) e)
  /\ dict_keys (step_data include_unmatched d row) = dict_keys d
  /\ (forall k, k <> cookie_id_of row ->
        dict_get k (step_data include_unmatched d row) = dict_get k d).
Proof.
  intros Hkept He. unfold step_data. rewrite Hkept.
  assert (Hmem : dict_mem (cookie_id_of row) d = true).
  { apply dict_mem_true. now exists e. }
  rewrite Hmem. split; [|split].
  - now apply dict_get_append_same.
  - apply dict_keys_append.
  - intros k Hk. now apply dict_get_append_other.
Qed.




(** C3, as the code has it.  The length of an entry's [variable_data] is the
    number of kept rows of the query (a cookie name, and a purpose category
    unless unmatched cookies are included) whose key "<domain>_<name>" is the
    entry's key; top-level keys are never duplicated; one more kept row with
    the key of an existing entry grows that entry's [variable_data] by exactly
    one and leaves the list of keys as it was. *)
Theorem variable_data_counts_kept_rows
  (include_unmatched : bool) (rows : list Row) (now : string)
  (k : string) (e : CookieEntry) :
  dict_get k (export_cookies (extract_rows rows include_unmatched now)) = Some e ->
  length (variable_data e) = kept_rows_with_key include_unmatched k rows
  /\ NoDup (dict_keys (export_cookies (extract_rows rows include_unmatched now)))
  /\ (forall row,
        kept include_unmatched row = true -> cookie_id_of row = k ->
        exists e',
          dict_get k (export_cookies (extract_rows (rows ++ [row]) include_unmatched now))
          = Some e'
          /\ length (variable_data e') = S (length (variable_data e))
          /\ dict_keys (export_cookies (extract_rows (rows ++ [row]) include_unmatched now))
             = dict_keys (export_cookies (extract_rows rows include_unmatched now))).
Proof.
  cbn [extract_rows export_cookies]. intros He.
  split; [| split; [apply run_loop_keys_nodup|]].
  - rewrite run_loop_entry in He. unfold kept_rows_with_key.
    destruct (find (selects include_unmatched k) rows); [|discriminate].
    simpl in He. injection He as <-. simpl. now rewrite length_map.
  - intros row Hkept Hk. subst k.
    destruct (step_data_existing_key _ _ _ _ Hkept He) as [Hget [Hkeys _]].
    rewrite run_loop_snoc. rewrite Hget, Hkeys.
    eexists. split; [reflexivity|]. split; [|reflexivity].
    simpl. rewrite length_app. simpl. lia.
Qed.

Lemma variable_data_counts_kept_rows_witness :
  length (variable_data (cookie_entry_of ga_declared))
  = kept_rows_with_key false ".tracker.example__ga" [ga_declared].
Proof.
  exact (proj1 (variable_data_counts_kept_rows false [ga_declared] "2024-05-02T09:00:00"
                  ".tracker.example__ga" (cookie_entry_of ga_declared) eq_refl)).
Defined.

(** C3, as the specification words it, fails.  In a default run a crawl
    that saw the pair without a declaration adds no instance: two crawls saw
    [_ga], the entry has one instance.  And one crawl that saw a cookie under
    two paths yields an entry with two instances. *)
Lemma variable_data_differs_from_crawls :
  (option_map (fun e => length (variable_data e))
     (dict_get ".tracker.example__ga"
        (export_cookies
           (extract_cookies_with_consent declared_once_db false "2024-05-02T09:00:00")))
   = Some 1%nat
   /\ crawls_observing declared_once_db "_ga" ".tracker.example" = 2%nat)
  /\ (option_map (fun e => length (variable_data e))
        (dict_get "shop.example_session"
           (export_cookies
              (extract_cookies_with_consent two_paths_db false "2024-05-02T09:00:00")))
      = Some 2%nat
      /\ crawls_observing two_paths_db "session" "shop.example" = 1%nat).
Proof. repeat split. Qed.

Lemma unmatched_label (category : option string) :
  truthy category = false -> _map_purpose_category category = -1.
Proof. unfold _map_purpose_category. now intros ->. Qed.

(** C8, as the code has it.  A fetched row with a cookie name and no purpose
    category contributes nothing to the export of a default run.  With
    unmatched cookies included, its instance is in the [variable_data] of the
    entry for its key; that entry has label -1 when no earlier kept row has
    the same key (otherwise the entry keeps the label of its first row). *)
Theorem unmatched_policy (rows1 rows2 : list Row) (row : Row) (now : string) :
  truthy (cookie_name row) = true ->
  truthy (purpose_category row) = false ->
  export_cookies (extract_rows (rows1 ++ row :: rows2) false now)
  = export_cookies (extract_rows (rows1 ++ rows2) false now)
  /\ exists e,
       dict_get (cookie_id_of row)
         (export_cookies (extract_rows (rows1 ++ row :: rows2) true now)) = Some e
       /\ In (variable_data_of row) (variable_data e)
       /\ (kept_rows_with_key true (cookie_id_of row) rows1 = 0%nat -> label e = -1).
Proof.
  intros Hname Hcat. cbn [extract_rows export_cookies]. split.
  - rewrite !run_loop_data, !fold_left_app. cbn [fold_left].
    unfold step_data at 2. unfold kept. now rewrite Hname, Hcat.
  - assert (Hsel : selects true (cookie_id_of row) row = true).
    { unfold selects, kept. now rewrite Hname, orb_true_r, String.eqb_refl. }
    rewrite run_loop_entry, find_app, filter_app. cbn [find filter]. rewrite Hsel.
    destruct (find (selects true (cookie_id_of row)) rows1) as [first|] eqn:Ef.
    + eexists. split; [reflexivity|]. cbn [entry_with variable_data label]. split.
      * rewrite map_app. apply in_or_app. right. now left.
      * intros H0. unfold kept_rows_with_key in H0. apply length_zero_iff_nil in H0.
        apply find_none_filter in H0. congruence.
    + eexists. split; [reflexivity|]. cbn [entry_with variable_data label]. split.
      * rewrite map_app. apply in_or_app. right. now left.
      * intros _. now apply unmatched_label.
Qed.

Lemma unmatched_policy_witness :
  export_cookies (extract_rows [ga_declared; ga_undeclared] false "2024-05-02T09:00:00")
  = export_cookies (extract_rows [ga_declared] false "2024-05-02T09:00:00").
Proof.
  exact (proj1 (unmatched_policy [ga_declared] [] ga_undeclared "2024-05-02T09:00:00"
                  eq_refl eq_refl)).
Defined.

(** C8, as the specification words it, fails: with unmatched cookies
    included, the undeclared instance of the second crawl is exported under
    the entry that the first crawl created, with label 2; no entry has
    label -1. *)
Lemma unmatched_instance_under_existing_label :
  fetchall declared_once_db = [ga_declared; ga_undeclared]
  /\ map (fun ke => (fst ke, label (snd ke), length (variable_data (snd ke))))
       (export_cookies
          (extract_cookies_with_consent declared_once_db true "2024-05-02T09:00:00"))
     = [(".tracker.example__ga", 2, 2%nat)].
Proof. split; reflexivity. Qed.

(** The export follows the order in which the rows are fetched: two rows that
    are equal on the [ORDER BY] columns give different exports when swapped. *)
Lemma export_follows_fetch_order :
  let other :=
    ga_row 1 "https://a.example" "GA1.9" (Some "Statistics") (Some "No description") in
  row_leb ga_declared other = true
  /\ row_leb other ga_declared = true
  /\ export_cookies (extract_rows [ga_declared; other] false "2024-05-02T09:00:00")
     <> export_cookies (extract_rows [other; ga_declared] false "2024-05-02T09:00:00").
Proof. split; [reflexivity | split; [reflexivity | vm_compute; discriminate]]. Qed.

(** C2, as the specification words it, fails: two runs over the same store,
    one second apart, return different exports. *)
Lemma export_differs_between_runs :
  extract_cookies_with_consent two_paths_db false "2024-05-02T09:00:00"
  <> extract_cookies_with_consent two_paths_db false "2024-05-02T09:00:01".
Proof.
  intros H. apply (f_equal (fun x => extraction_date (statistics x))) in H. discriminate H.
Qed.

End MatcherProps.

(** ** The consent extractor *)

Module ConsentProps.
Import PyStr Schema ConsentCrawler Spec Examples.
Local Open Scope Z_scope.

(** *** Which steps can abort a crawl *)

Lemma snd_bind {A B : Type} (m : M A) (k : A -> M B) :
  snd (bind m k) = match snd m with Ok a => snd (k a) | Raise e => Raise e end.
Proof.
  destruct m as [t [a|e]]; simpl; [|reflexivity]. now destruct (k a).
Qed.

Lemma total_ret {A : Type} (a : A) : total (ret a).
Proof. now exists a. Qed.

Lemma total_bind {A B : Type} (m : M A) (k : A -> M B) :
  total m -> (forall a, total (k a)) -> total (bind m k).
Proof.
  intros [a Ha] Hk. unfold total. rewrite snd_bind, Ha. apply Hk.
Qed.

Lemma total_try_except {A : Type} (m : M A) (h : exn -> M A) :
  (forall e, total (h e)) -> total (try_except m h).
Proof.
  intros Hh. destruct m as [t [a|e]]; simpl; [now exists a|].
  destruct (Hh e) as [a Ha]. destruct (h e) as [t' r]. simpl in *. now exists a.
Qed.

Create HintDb crawl.
#[local] Hint Resolve total_ret total_bind total_try_except : crawl.

Lemma total_detect_cmp_type (b : Browser) : total (detect_cmp_type b).
Proof. unfold detect_cmp_type. auto with crawl. Qed.

Lemma total_collect_cookies (b : Browser) (clicked : bool) : total (collect_cookies b clicked).
Proof. unfold collect_cookies. auto with crawl. Qed.

Lemma total_extract_consent_data_cookiebot (b : Browser) :
  total (extract_consent_data_cookiebot b).
Proof. unfold extract_consent_data_cookiebot. auto with crawl. Qed.

Lemma total_extract_consent_data_onetrust (b : Browser) :
  total (extract_consent_data_onetrust b).
Proof. unfold extract_consent_data_onetrust. auto with crawl. Qed.

Lemma total_interact_consent (b : Browser) (selectors : list string) :
  total (interact_consent b selectors).
Proof.
  induction selectors as [|selector rest IH]; cbn [interact_consent]; [apply total_ret|].
  apply total_bind; [auto with crawl|]. intros [|]; [apply total_ret | exact IH].
Qed.

#[local] Hint Resolve total_detect_cmp_type total_collect_cookies
  total_extract_consent_data_cookiebot total_extract_consent_data_onetrust
  total_interact_consent : crawl.

(** Only [create_driver], the navigation and the readiness wait can make
    [crawl_domain] fail: every later step catches its own exceptions. *)
Lemma raised_only_before_detection (b : Browser) (domain : string) :
  raised b domain
  = match create_driver b with
    | Raise e => Some e
    | Ok _ =>
        match driver_get b (with_scheme domain) with
        | Raise e => Some e
        | Ok _ => match wait_ready b with Raise e => Some e | Ok _ => None end
        end
    end.
Proof.
  unfold raised. destruct (create_driver b) as [u|e]; [|reflexivity].
  unfold crawl_with_driver. rewrite snd_bind. cbn [call snd].
  destruct (driver_get b (with_scheme domain)) as [u1|e1]; [|reflexivity].
  rewrite snd_bind. cbn [call snd].
  destruct (wait_ready b) as [u2|e2]; [|reflexivity].
  match goal with
  | |- match snd ?m with _ => _ end = None =>
      assert (Ht : total m); [|destruct Ht as [a Ha]; now rewrite Ha]
  end.
  apply total_bind; [auto with crawl|]. intros cmp.
  apply total_bind.
  { destruct (String.eqb cmp "cookiebot"); [auto with crawl|].
    destruct (String.eqb cmp "onetrust"); auto with crawl. }
  intros cd. repeat (apply total_bind; [auto with crawl | intros ?]). apply total_ret.
Qed.

(** *** Persistence *)

(** [save_crawl_result] writes one [crawl_results] row with a fresh id and
    one [consent_data] row per declaration, each with that id; it leaves the
    [cookies] table as it is. *)
Lemma save_crawl_result_effect (db : Store) (now : string) (result : CrawlResult) :
  let id := crawl_seq db + 1 in
  snd (save_crawl_result db now result) = id
  /\ crawl_results (fst (save_crawl_result db now result))
     = (crawl_results db ++ [record_of id now result])%list
  /\ exists rows,
       Schema.consent_data (fst (save_crawl_result db now result))
       = (Schema.consent_data db ++ rows)%list
       /\ length rows = length (consent_data result)
       /\ Forall (fun row => cd_crawl_id row = Some id) rows.
Proof.
  cbn. split; [reflexivity | split; [reflexivity|]].
  eexists. split; [reflexivity|]. split; [apply length_map|].
  apply Forall_forall. intros row Hin. apply in_map_iff in Hin as [c [<- _]]. reflexivity.
Qed.

Lemma save_crawl_result_cookies (db : Store) (now : string) (result : CrawlResult) :
  cookies (fst (save_crawl_result db now result)) = cookies db.
Proof. reflexivity. Qed.

Section Crawl.
Variable browser_at : nat -> string -> Browser.
Variable clock_at : nat -> string.

(** Every domain gets exactly one [crawl_results] row, whether its crawl
    succeeded or not, and the [cookies] table is never written. *)
Lemma crawl_loop_effect (domains : list string) :
  forall i db results,
    let db' := fst (crawl_loop browser_at clock_at i domains db results) in
    length (crawl_results db') = (length (crawl_results db) + length domains)%nat
    /\ crawl_seq db' = crawl_seq db + Z.of_nat (length domains)
    /\ cookies db' = cookies db.
Proof.
  induction domains as [|domain rest IH]; intros i db results.
  - cbn. split; [lia | split; [lia | reflexivity]].
  - cbn [crawl_loop].
    destruct (IH (S i)
                (fst (save_crawl_result db (clock_at i)
                        (snd (crawl_domain (browser_at i domain) domain))))
                (update_summary results (snd (crawl_domain (browser_at i domain) domain))))
      as [Hlen [Hseq Hcookies]].
    cbn zeta in *. rewrite Hlen, Hseq, Hcookies. cbn [save_crawl_result fst crawl_results
      crawl_seq cookies]. rewrite length_app. cbn [length]. split; [lia | split; [lia | reflexivity]].
Qed.

End Crawl.

(** C10, as the code has it.  When [create_driver], the navigation or the
    readiness wait raises, [crawl_domain] returns a result with success False,
    cmp_type "unknown", no cookies, no declarations and an error message:
    "Page load timeout" for a [TimeoutException], [str(e)] for any other
    exception.  If the driver had been created it is quit at the end.  The
    result is saved as one [crawl_results] row like any other. *)
Theorem failed_crawl_result (b : Browser) (domain : string) (e : exn) :
  raised b domain = Some e ->
  let t := fst (crawl_domain b domain) in
  let result := snd (crawl_domain b domain) in
  success result = false
  /\ cmp_type result = "unknown"
  /\ cookies_collected result = 0
  /\ consent_data result = []
  /\ error_message result
     = Some (match e with
             | TimeoutException _ => "Page load timeout"
             | OtherException _ => str e
             end)
  /\ (forall u, create_driver b = Ok u ->
        exists t', t = (EvCreateDriver :: t' ++ [EvQuit])%list)
  /\ (forall db now,
        fst (save_crawl_result db now result)
        = {| crawl_results :=
               (crawl_results db ++ [record_of (crawl_seq db + 1) now result])%list;
             cookies := cookies db;
             Schema.consent_data := Schema.consent_data db;
             crawl_seq := crawl_seq db + 1 |})
  /\ (forall browser_at clock_at i rest db results,
        browser_at i domain = b ->
        crawl_loop browser_at clock_at i (domain :: rest) db results
        = crawl_loop browser_at clock_at (S i) rest
            (fst (save_crawl_result db (clock_at i) result))
            (update_summary results result)).
Proof.
  intros Hraised t result.
  assert (Hres : result = failure_result (ConsentCrawler.domain result) e).
  { subst result t. unfold raised in Hraised. unfold crawl_domain.
    destruct (create_driver b) as [u|e0].
    - destruct (crawl_with_driver b (with_scheme domain)) as [t0 [r|e0]];
        [discriminate|].
      simpl in *. injection Hraised as ->. now destruct e.
    - injection Hraised as ->. now destruct e. }
  assert (Hfields : success result = false /\ cmp_type result = "unknown"
                    /\ cookies_collected result = 0 /\ consent_data result = []
                    /\ error_message result
                       = Some (match e with
                               | TimeoutException _ => "Page load timeout"
                               | OtherException _ => str e
                               end)).
  { rewrite Hres. destruct e; repeat split. }
  destruct Hfields as [Hs [Hc [Hn [Hd He]]]].
  repeat (split; [assumption|]). split; [|split].
  - intros u Hu. subst t. unfold crawl_domain. rewrite Hu.
    destruct (crawl_with_driver b (with_scheme domain)) as [t0 r]. now exists t0.
  - intros db now. unfold save_crawl_result. rewrite Hd. cbn [map].
    now rewrite app_nil_r.
  - intros browser_at clock_at i rest db results Hb. subst result.
    cbn [crawl_loop]. now rewrite Hb.
Qed.

Lemma failed_crawl_result_witness :
  crawl_domain never_ready "example.com"
  = ([EvCreateDriver; EvGet "https://example.com"; EvWaitReady; EvQuit],
     {| domain := "https://example.com"; success := false; cmp_type := "unknown";
        cookies_collected := 0; consent_data := [];
        error_message := Some "Page load timeout" |})
  /\ error_message (snd (crawl_domain never_ready "example.com"))
     = Some "Page load timeout".
Proof.
  split; [reflexivity|].
  exact (proj1 (proj2 (proj2 (proj2 (proj2
           (failed_crawl_result never_ready "example.com"
              (TimeoutException "Message: ") eq_refl)))))).
Defined.

(** C10, as the specification words it, fails: an exception without a message
    leaves an empty error message. *)
Lemma failed_crawl_empty_message :
  raised silent_failure "example.com" = Some (OtherException "")
  /\ success (snd (crawl_domain silent_failure "example.com")) = false
  /\ error_message (snd (crawl_domain silent_failure "example.com")) = Some "".
Proof. repeat split. Qed.

(** C1 at a concrete crawl.  The site sets one cookie and declares it.  The
    crawl writes one [crawl_results] row, which reports one collected cookie,
    and one [consent_data] row with that row's id; the [cookies] table stays
    empty, and so does the export of the matcher. *)
Theorem collected_cookies_not_persisted :
  let db := fst (crawl_domains (fun _ _ => declaring_site)
                   (fun _ => "2024-05-01 10:00:00") init_database ["example.com"]) in
  map (fun cr => (cr_id cr, cr_success cr, cr_cookies_collected cr)) (crawl_results db)
  = [(1, true, 1)]
  /\ map cd_crawl_id (Schema.consent_data db) = [Some 1]
  /\ cookies db = []
  /\ CookieExtractor.export_cookies
       (CookieExtractor.extract_cookies_with_consent db true "2024-05-02T09:00:00") = [].
Proof. repeat split. Qed.

End ConsentProps.

(** ** The probe's worker pool *)

Module PoolProps.
Import PyStr PresenceCrawler PresencePool.

Lemma firstn_add_skipn {A : Type} (a b : nat) (l : list A) :
  (firstn a l ++ firstn b (skipn a l))%list = firstn (a + b) l.
Proof.
  revert l. induction a as [|a IH]; intros l; [reflexivity|].
  destruct l as [|x l]; simpl.
  - now rewrite firstn_nil.
  - now rewrite IH.
Qed.

Lemma chunks_prefix {A : Type} (l : list A) (size k : nat) :
  1 <= size ->
  concat (map (fun i => slice l i (Nat.min (i + size) (length l)))
            (map (fun j => j * size) (seq 0 k)))
  = firstn (k * size) l.
Proof.
  intros Hsize. induction k as [|k IH]; [reflexivity|].
  rewrite seq_S, !map_app, concat_app, IH. cbn [map concat plus]. rewrite app_nil_r.
  unfold slice.
  destruct (Nat.le_gt_cases (k * size + size) (length l)) as [Hle|Hgt].
  - rewrite Nat.min_l by exact Hle.
    replace (k * size + size - k * size) with size by lia.
    rewrite firstn_add_skipn. f_equal. lia.
  - rewrite Nat.min_r by lia. rewrite firstn_add_skipn.
    rewrite (firstn_all2 (n := S k * size)) by (simpl; lia).
    apply firstn_all2. lia.
Qed.

Lemma range_step_covers (n size : nat) :
  1 <= size -> n <= (n + size - 1) / size * size.
Proof.
  intros Hsize.
  pose proof (Nat.mul_succ_div_gt (n + size - 1) size ltac:(lia)) as H. nia.
Qed.

Lemma range_step_inside (n size j : nat) :
  1 <= size -> j < (n + size - 1) / size -> j * size < n.
Proof.
  intros Hsize Hj.
  pose proof (Nat.Div0.mul_div_le (n + size - 1) size) as H. nia.
Qed.

Lemma chunks_partition_all (domains : list string) (size : nat) :
  1 <= size ->
  concat (chunks domains size) = domains
  /\ Forall (fun chunk => 1 <= length chunk <= size) (chunks domains size).
Proof.
  intros Hsize. unfold chunks, range_step. split.
  - rewrite chunks_prefix by exact Hsize. apply firstn_all2.
    now apply range_step_covers.
  - apply Forall_forall. intros chunk Hin.
    apply in_map_iff in Hin as [i [<- Hi]]. apply in_map_iff in Hi as [j [<- Hj]].
    apply in_seq in Hj. pose proof (range_step_inside (length domains) size j Hsize) as Hlt.
    unfold slice. rewrite length_firstn, length_skipn. lia.
Qed.

(** X1.  The batches are consecutive pieces of the domain list: for every batch
    count other than 0 they add up to the list, none is empty and none is
    longer than the chunk size [max(1, len(domains) // batches)]. *)
Theorem chunks_partition (domains : list string) (batches : Z) (size : nat) :
  chunksize (length domains) batches = Some size ->
  1 <= size
  /\ concat (chunks domains size) = domains
  /\ Forall (fun chunk => 1 <= length chunk <= size) (chunks domains size).
Proof.
  intros E.
  assert (Hsize : 1 <= size).
  { unfold chunksize in E. destruct (batches =? 0)%Z; [discriminate|].
    injection E as <-. lia. }
  split; [exact Hsize|]. now apply chunks_partition_all.
Qed.

Lemma chunks_partition_witness :
  concat (chunks ["a.example"; "b.example"; "c.example"] 1)
  = ["a.example"; "b.example"; "c.example"].
Proof.
  exact (proj1 (proj2 (chunks_partition ["a.example"; "b.example"; "c.example"] 2 1
                         eq_refl))).
Defined.

Section Pool.
Variable probe : string -> PoolOutcome.

Lemma process_chunk_app (results : Results) (c1 c2 : list string) :
  process_chunk probe results (c1 ++ c2)
  = process_chunk probe (process_chunk probe results c1) c2.
Proof. unfold process_chunk. apply fold_left_app. Qed.

Lemma fold_process_chunk_concat (cs : list (list string)) :
  forall results,
    fold_left (process_chunk probe) cs results = process_chunk probe results (concat cs).
Proof.
  induction cs as [|c cs IH]; intros results; [reflexivity|].
  cbn [fold_left concat]. now rewrite IH, process_chunk_app.
Qed.

Lemma chunksize_positive (num_sites : nat) (batches : Z) (size : nat) :
  chunksize num_sites batches = Some size -> 1 <= size.
Proof.
  unfold chunksize. destruct (batches =? 0)%Z; [discriminate|]. intros [= <-]. lia.
Qed.

Lemma crawl_domains_one_pass (domains : list string) (batches : Z) :
  crawl_domains probe domains batches
  = if (batches =? 0)%Z then None
    else Some (process_chunk probe empty_results domains).
Proof.
  unfold crawl_domains. destruct (chunksize (length domains) batches) as [size|] eqn:E.
  - pose proof (chunksize_positive _ _ _ E) as Hsize. unfold chunksize in E.
    destruct (batches =? 0)%Z; [discriminate|].
    rewrite fold_process_chunk_concat.
    now rewrite (proj1 (chunks_partition_all domains size Hsize)).
  - unfold chunksize in E. destruct (batches =? 0)%Z; [reflexivity | discriminate].
Qed.

Lemma categorize_filed (results : Results) (submitted : string) (o : PoolOutcome) :
  filed (categorize results submitted o) = S (filed results).
Proof.
  unfold filed. destruct o as [final_domain []|]; cbn [categorize cookiebot onetrust termly
    nocmp failed http_error bot timeout]; rewrite length_app; cbn [length]; lia.
Qed.

Lemma process_chunk_filed (chunk : list string) :
  forall results,
    filed (process_chunk probe results chunk) = filed results + length chunk.
Proof.
  unfold process_chunk. induction chunk as [|d chunk IH]; intros results; cbn [fold_left length].
  - lia.
  - rewrite IH, categorize_filed. lia.
Qed.

End Pool.

End PoolProps.

(** ** More on the presence probe *)

Module ProbeProps.
Import PyStr Re PyStrFacts ReFacts PresenceCrawler Spec ProbeSpec.

Section Loop.
Variable get : string -> GetOutcome.
Variable check_cmp : bool.
Variables input_domain suffix : string.

Lemma try_prefixes_verdict (prefixes : list string) :
  prefixes <> [] ->
  exists pre u,
    fst (try_prefixes get input_domain suffix prefixes) = (pre ++ [u])%list
    /\ length pre < length prefixes
    /\ Forall (fun v => get v = RaisesConnOrTimeout) pre
    /\ finish check_cmp input_domain (snd (try_prefixes get input_domain suffix prefixes))
       = verdict check_cmp input_domain u (get u).
Proof.
  induction prefixes as [|prefix rest IH]; intros Hne; [congruence|].
  cbn [try_prefixes]. destruct (get (prefix ++ suffix)) as [| | |r] eqn:E.
  - exists [], (prefix ++ suffix). rewrite E. simpl.
    split; [reflexivity | split; [lia | split; [constructor | reflexivity]]].
  - destruct rest as [|p2 rest'].
    + exists [], (prefix ++ suffix). rewrite E. simpl.
      split; [reflexivity | split; [lia | split; [constructor | reflexivity]]].
    + destruct (IH ltac:(discriminate)) as [pre [u [Hf [Hl [Hall Hv]]]]].
      destruct (try_prefixes get input_domain suffix (p2 :: rest')) as [a e].
      cbn [fst snd] in *. exists ((prefix ++ suffix) :: pre), u.
      split; [now rewrite Hf|]. split; [simpl in *; lia|].
      split; [now constructor | exact Hv].
  - exists [], (prefix ++ suffix). rewrite E. simpl.
    split; [reflexivity | split; [lia | split; [constructor | reflexivity]]].
  - exists [], (prefix ++ suffix). rewrite E. unfold verdict.
    destruct (ok r); cbn [negb].
    + simpl. split; [reflexivity | split; [lia | split; [constructor|]]].
      now destruct check_cmp.
    + destruct ((status_code r =? 403)%Z || (status_code r =? 406)%Z)%bool; simpl;
        (split; [reflexivity | split; [lia | split; [constructor | reflexivity]]]).
Qed.

End Loop.

Lemma prefix_list_bounds (scheme : string -> string) (input_domain : string) :
  prefix_list scheme input_domain <> [] /\ length (prefix_list scheme input_domain) <= 3.
Proof.
  unfold prefix_list. destruct (has_http_scheme scheme input_domain); simpl;
    split; try discriminate; lia.
Qed.

Lemma run_reachability_check_verdict
  (scheme : string -> string) (get : string -> GetOutcome)
  (check_cmp : bool) (input_domain : string) :
  exists pre u,
    attempts scheme get check_cmp input_domain = (pre ++ [u])%list
    /\ length pre <= 2
    /\ Forall (fun v => get v = RaisesConnOrTimeout) pre
    /\ run_reachability_check scheme get check_cmp input_domain
       = verdict check_cmp input_domain u (get u).
Proof.
  destruct (prefix_list_bounds scheme input_domain) as [Hne Hlen].
  destruct (try_prefixes_verdict get check_cmp input_domain
              (url_suffix scheme input_domain) (prefix_list scheme input_domain) Hne)
    as [pre [u [Hf [Hl [Hall Hv]]]]].
  exists pre, u. unfold attempts, run_reachability_check, run_reachability_check_trace.
  destruct (try_prefixes get input_domain (url_suffix scheme input_domain)
              (prefix_list scheme input_domain)) as [a e].
  cbn [fst snd] in *. split; [assumption|]. split; [lia|]. split; [assumption|].
  rewrite <- Hv. now destruct e as [final q|final_url r|].
Qed.

(** X6.  The probe never reports CRAWL_TIMEOUT; with CMP checking on it never
    reports OK, with CMP checking off it never reports a CMP family or NOCMP;
    and CONNECT_FAIL always comes with the original input. *)
Theorem result_code_range
  (scheme : string -> string) (get : string -> GetOutcome)
  (check_cmp : bool) (input_domain : string) :
  let result := run_reachability_check scheme get check_cmp input_domain in
  snd result <> CRAWL_TIMEOUT
  /\ (if check_cmp then snd result <> OK
      else In (snd result) [OK; CONNECT_FAIL; HTTP_ERROR; BOT])
  /\ (snd result = CONNECT_FAIL -> fst result = input_domain).
Proof.
  destruct (run_reachability_check_verdict scheme get check_cmp input_domain)
    as [pre [u [_ [_ [_ Hv]]]]].
  cbn zeta. rewrite Hv. unfold verdict, classify_content.
  destruct (get u) as [| | |r]; cbn [fst snd];
    try (split; [discriminate | split; [destruct check_cmp; [discriminate | simpl; tauto]
                                       | reflexivity]]).
  destruct (ok r); [|destruct ((status_code r =? 403)%Z || (status_code r =? 406)%Z)%bool];
    cbn [fst snd].
  - destruct check_cmp.
    + destruct (check_cookiebot_presence r);
        [|destruct (check_onetrust_presence r); [|destruct (check_termly_presence r)]];
        (split; [discriminate | split; [discriminate | discriminate]]).
    + split; [discriminate | split; [simpl; tauto | discriminate]].
  - split; [discriminate | split; [destruct check_cmp; [discriminate | simpl; tauto]
                                  | discriminate]].
  - split; [discriminate | split; [destruct check_cmp; [discriminate | simpl; tauto]
                                  | discriminate]].
Qed.

Lemma result_code_range_witness :
  fst (run_reachability_check Examples.simple_scheme Examples.broken_net true "example.com")
  = "example.com".
Proof.
  exact (proj2 (proj2 (result_code_range Examples.simple_scheme Examples.broken_net true
                         "example.com")) eq_refl).
Defined.

End ProbeProps.

(** ** The fingerprint patterns as substring tests *)

Module PatternProps.
Import PyStr Re PyStrFacts ReFacts PresenceCrawler.

Lemma lower_split (u v : string) :
  forall s, lower s = u ++ v -> exists a b, s = a ++ b /\ lower a = u /\ lower b = v.
Proof.
  induction u as [|c u IH]; intros s H.
  - exists EmptyString, s. repeat split. exact H.
  - destruct s as [|d s]; [discriminate|]. simpl in H. injection H as Hc Hs.
    destruct (IH s Hs) as [a [b [-> [Ha Hb]]]].
    exists (String d a), b. simpl. rewrite Hc, Ha. repeat split. exact Hb.
Qed.

Lemma match_prefix_complete (r : regex) :
  forall w, In w (lang r) ->
  forall s1 t, lower s1 = lower w -> In t (match_prefix r (s1 ++ t)).
Proof.
  induction r as [|c|r1 IH1 r2 IH2|r1 IH1 r2 IH2]; intros w Hw s1 t Hl; simpl in Hw.
  - destruct Hw as [<-|[]]. destruct s1; [now left | discriminate].
  - destruct Hw as [<-|[]]. destruct s1 as [|d [|e s1]]; try discriminate.
    simpl in Hl. injection Hl as Hl. simpl. rewrite <- Hl, Ascii.eqb_refl. now left.
  - apply in_flat_map in Hw as [x [Hx Hw]]. apply in_map_iff in Hw as [y [<- Hy]].
    rewrite lower_app in Hl. destruct (lower_split _ _ _ Hl) as [a [b [-> [Ha Hb]]]].
    simpl. apply in_flat_map. exists (b ++ t). split.
    + rewrite append_assoc. now apply (IH1 x).
    + now apply (IH2 y).
  - simpl. apply in_or_app. apply in_app_or in Hw as [Hw|Hw].
    + left. now apply (IH1 w).
    + right. now apply (IH2 w).
Qed.

Lemma search_here (r : regex) (s : string) :
  matches_at r s = true -> search r s = true.
Proof. intros H. destruct s; simpl; now rewrite H. Qed.

Lemma search_complete (r : regex) (w s : string) :
  In w (lang r) -> contains (lower w) (lower s) = true -> search r s = true.
Proof.
  intros Hw Hc. apply contains_iff in Hc as [pre [post Hc]].
  destruct (lower_split _ _ _ Hc) as [a [rest [-> [_ Hrest]]]].
  destruct (lower_split _ _ _ Hrest) as [m [b [-> [Hm _]]]].
  clear Hc Hrest. induction a as [|c a IH].
  - simpl. apply search_here. unfold matches_at.
    pose proof (match_prefix_complete r w Hw m b Hm) as Hin.
    destruct (match_prefix r (m ++ b)); [contradiction | reflexivity].
  - cbn [append search]. rewrite IH. apply orb_true_r.
Qed.

(** A pattern matches somewhere in a text exactly when the lower-cased text
    contains the lower-cased form of one of the pattern's words. *)
Lemma search_any_in (r : regex) (s : string) :
  search r s = any_in (map lower (lang r)) (lower s).
Proof.
  apply eq_true_iff_eq. unfold any_in. rewrite existsb_exists. split.
  - intros H. destruct (search_lang r s H) as [w [Hw Hc]].
    exists (lower w). split; [now apply in_map | exact Hc].
  - intros [lw [Hin Hc]]. apply in_map_iff in Hin as [w [<- Hw]].
    now apply (search_complete r w).
Qed.

Lemma any_in_app (l1 l2 : list string) (s : string) :
  any_in (l1 ++ l2) s = any_in l1 s || any_in l2 s.
Proof. unfold any_in. apply existsb_app. Qed.

Lemma exists_search_any_in (patterns : list regex) (s : string) :
  existsb (fun pattern => search pattern s) patterns
  = any_in (flat_map (fun pattern => map lower (lang pattern)) patterns) (lower s).
Proof.
  induction patterns as [|p ps IH]; [reflexivity|].
  cbn [existsb flat_map]. now rewrite any_in_app, IH, search_any_in.
Qed.

(** In the model, where case is folded on the ASCII letters only, each
    check is the containment of one of its literals in the lower-cased body. *)
Lemma presence_checks_literals (resp : Response) :
  check_cookiebot_presence resp
  = any_in [ "https://consent.cookiebot.com/"; "https://consent.cookiebot.eu/";
             "cb-main.js" ] (lower (text resp))
  /\ check_onetrust_presence resp
     = any_in [ "https://cdn-apac.onetrust.com"; "https://cdn-ukwest.onetrust.com";
                "https://cmp-cdn.cookielaw.org"; "https://cdn.cookielaw.org";
                "https://optanon.blob.core.windows.net";
                "https://cookie-cdn.cookiepro.com";
                "https://cookiepro.blob.core.windows.net" ] (lower (text resp))
  /\ check_termly_presence resp
     = any_in [ "https://app.termly.io/" ] (lower (text resp)).
Proof.
  unfold check_cookiebot_presence, check_onetrust_presence, check_termly_presence.
  cbn zeta. rewrite exists_search_any_in, !search_any_in, <- any_in_app.
  repeat split.
Qed.

End PatternProps.

(** ** More on the consent extractor *)

Module CrawlProps.
Import PyStr Schema ConsentCrawler Spec ConsentSpec TraceSpec ConsentProps.
Local Open Scope Z_scope.

(** *** The accept-control loop *)

(** One round of the loop: the lookup, the click when the control is
    displayed and enabled, the delay when the click went through. *)
Lemma try_selector_round (b : Browser) (selector : string) :
  try_except (try_selector b selector) (fun _ => ret false)
  = (([EvFindElement selector]
      ++ (if offered b selector then [EvClick selector] else [])
      ++ (if clickable b selector then [EvSleep 2] else []))%list,
     Ok (clickable b selector)).
Proof.
  unfold try_selector, try_except, bind, call, ret, clickable, offered.
  destruct (find_element b selector) as [button|e]; [|reflexivity].
  destruct (is_displayed button) as [[|]|e]; try reflexivity.
  destruct (is_enabled button) as [[|]|e]; try reflexivity.
  destruct (click button) as [u|e]; reflexivity.
Qed.

Lemma interact_consent_cons (b : Browser) (selector : string) (rest : list string) :
  interact_consent b (selector :: rest)
  = if clickable b selector
    then ([EvFindElement selector; EvClick selector; EvSleep 2], Ok true)
    else (([EvFindElement selector]
           ++ (if offered b selector then [EvClick selector] else [])
           ++ fst (interact_consent b rest))%list,
          snd (interact_consent b rest)).
Proof.
  cbn [interact_consent]. rewrite try_selector_round. cbn [bind].
  destruct (clickable b selector) eqn:Ec.
  - unfold clickable in Ec. apply andb_true_iff in Ec as [-> _]. reflexivity.
  - destruct (interact_consent b rest) as [t r]. cbn [fst snd].
    now rewrite app_nil_r, <- app_assoc.
Qed.

(** X8.  The accept-control loop never raises and reports whether a control
    was clicked, which it does exactly when some selector finds a control that
    is displayed, enabled and takes the click.  The selectors are looked up in
    list order up to and including the first such control; every control found
    displayed and enabled on the way is clicked (a click that raises is passed
    over); the two-second delay is slept once, after the successful click, and
    not at all when there is none; the successful click and its delay are the
    last calls of the loop. *)
Theorem interact_consent_first_control (b : Browser) (selectors : list string) :
  let m := interact_consent b selectors in
  snd m = Ok (existsb (clickable b) selectors)
  /\ tried (fst m) = take_until (clickable b) selectors
  /\ clicks (fst m) = filter (offered b) (take_until (clickable b) selectors)
  /\ sleeps (fst m) = (if existsb (clickable b) selectors then [2%nat] else [])
  /\ (forall selector,
        find (clickable b) selectors = Some selector ->
        exists t0,
          fst m = (t0 ++ [EvFindElement selector; EvClick selector; EvSleep 2])%list).
Proof.
  cbn zeta. induction selectors as [|selector rest IH].
  - repeat split. intros selector H. discriminate H.
  - rewrite interact_consent_cons. cbn [existsb take_until find filter].
    destruct (clickable b selector) eqn:Ec.
    + assert (Ho : offered b selector = true).
      { unfold clickable in Ec. now apply andb_true_iff in Ec as [Ho _]. }
      cbn [fst snd orb filter]. rewrite Ho. repeat split.
      intros s [= <-]. now exists [].
    + destruct IH as [Hres [Htried [Hclicks [Hsleeps Hlast]]]].
      cbn [fst snd orb]. split; [exact Hres|].
      unfold tried, clicks, sleeps in *.
      rewrite !flat_map_app.
      split; [|split; [|split]].
      * destruct (offered b selector); cbn [flat_map app]; now rewrite Htried.
      * destruct (offered b selector) eqn:Eo; cbn [flat_map app filter];
          now rewrite Eo, Hclicks.
      * destruct (offered b selector); cbn [flat_map app]; now rewrite Hsleeps.
      * intros s Hs. destruct (Hlast s Hs) as [t0 Ht0]. rewrite Ht0.
        eexists. rewrite !app_assoc. reflexivity.
Qed.

Lemma interact_consent_first_control_witness :
  snd (interact_consent MoreExamples.banner_site accept_selectors) = Ok true
  /\ tried (fst (interact_consent MoreExamples.banner_site accept_selectors))
     = ["[id*='accept']"; "[class*='accept']"]
  /\ clicks (fst (interact_consent MoreExamples.banner_site accept_selectors))
     = ["[class*='accept']"].
Proof.
  destruct (interact_consent_first_control MoreExamples.banner_site accept_selectors)
    as [Hres [Htried [Hclicks _]]].
  split; [exact Hres | split; [exact Htried | exact Hclicks]].
Defined.

(** *** What a crawl returns *)

Lemma detect_cmp_type_values (b : Browser) (cmp : string) :
  snd (detect_cmp_type b) = Ok cmp ->
  In cmp ["cookiebot"; "onetrust"; "termly"; "unknown"; "error"]%string.
Proof.
  unfold detect_cmp_type, try_except, bind, call, ret, cmp_of_page_source.
  destruct (page_source b) as [src|e]; cbn [snd].
  - destruct (contains "cookiebot" (lower src) || contains "consent.cookiebot" (lower src))%bool;
      [intros [= <-]; simpl; tauto|].
    destruct (any_in ["onetrust"; "cookielaw"; "optanon"; "cookiepro"]%string (lower src));
      [intros [= <-]; simpl; tauto|].
    destruct (contains "termly" (lower src) || contains "app.termly.io" (lower src))%bool;
      intros [= <-]; simpl; tauto.
  - intros [= <-]. simpl. tauto.
Qed.

Lemma keep_ok_forall {A B : Type} (f : A -> B) (P : B -> Prop) (els : list (res A)) :
  (forall a, P (f a)) -> Forall P (keep_ok f els).
Proof.
  intros H. unfold keep_ok. apply Forall_forall. intros x Hin.
  apply in_flat_map in Hin as [[a|e] [_ Hx]]; [|contradiction].
  destruct Hx as [<-|[]]. apply H.
Qed.

Lemma scraper_cmp (b : Browser) (cmp : string) (cd : list Consent) :
  snd (if String.eqb cmp "cookiebot" then extract_consent_data_cookiebot b
       else if String.eqb cmp "onetrust" then extract_consent_data_onetrust b
       else ret []) = Ok cd ->
  Forall (fun c => consent_cmp c = cmp) cd
  /\ (cd <> [] -> cmp = "cookiebot"%string \/ cmp = "onetrust"%string).
Proof.
  destruct (String.eqb cmp "cookiebot") eqn:E1.
  - apply String.eqb_eq in E1. subst cmp.
    unfold extract_consent_data_cookiebot, try_except, bind, call, ret.
    destruct (cookiebot_elements b) as [els|e]; cbn [snd]; intros [= <-].
    + split; [|now left]. now apply keep_ok_forall.
    + split; [constructor | now left].
  - destruct (String.eqb cmp "onetrust") eqn:E2.
    + apply String.eqb_eq in E2. subst cmp.
      unfold extract_consent_data_onetrust, try_except, bind, call, ret.
      destruct (onetrust_elements b) as [els|e]; cbn [snd]; intros [= <-].
      * split; [|now right]. now apply keep_ok_forall.
      * split; [constructor | now right].
    + cbn. intros [= <-]. split; [constructor | congruence].
Qed.

(** The result of the [try] block once the page is loaded and ready. *)
Lemma crawl_with_driver_loaded (b : Browser) (domain : string) :
  (exists u, driver_get b domain = Ok u) -> (exists u, wait_ready b = Ok u) ->
  exists cmp cd clicked final_cookies,
    snd (detect_cmp_type b) = Ok cmp
    /\ snd (if String.eqb cmp "cookiebot" then extract_consent_data_cookiebot b
            else if String.eqb cmp "onetrust" then extract_consent_data_onetrust b
            else ret []) = Ok cd
    /\ snd (interact_consent b accept_selectors) = Ok clicked
    /\ snd (collect_cookies b clicked) = Ok final_cookies
    /\ snd (crawl_with_driver b domain)
       = Ok {| domain := domain; success := true; cmp_type := cmp;
               cookies_collected := Z.of_nat (length final_cookies);
               consent_data := cd; error_message := None |}.
Proof.
  intros [u1 Hget] [u2 Hwait].
  destruct (total_detect_cmp_type b) as [cmp Hcmp].
  assert (Hcd : total (if String.eqb cmp "cookiebot" then extract_consent_data_cookiebot b
                       else if String.eqb cmp "onetrust" then extract_consent_data_onetrust b
                       else ret [])).
  { destruct (String.eqb cmp "cookiebot"); [apply total_extract_consent_data_cookiebot|].
    destruct (String.eqb cmp "onetrust");
      [apply total_extract_consent_data_onetrust | apply total_ret]. }
  destruct Hcd as [cd Hcd].
  destruct (total_collect_cookies b false) as [c0 Hc0].
  destruct (total_interact_consent b accept_selectors) as [clicked Hclicked].
  destruct (total_collect_cookies b clicked) as [fc Hfc].
  exists cmp, cd, clicked, fc. repeat (split; [assumption|]).
  unfold crawl_with_driver.
  rewrite snd_bind. cbn [call snd]. rewrite Hget.
  rewrite snd_bind. cbn [call snd]. rewrite Hwait.
  rewrite snd_bind, Hcmp, snd_bind, Hcd, snd_bind, Hc0, snd_bind, Hclicked, snd_bind, Hfc.
  reflexivity.
Qed.

(** X9.  A crawl succeeds exactly when the driver is created, the navigation
    returns and the page becomes ready; no failure of a later step (reading
    the page source, scraping, reading cookies, clicking) fails the crawl.  A
    successful result has no error message and the schemed domain. *)
Theorem crawl_succeeds_iff_page_loads (b : Browser) (domain : string) :
  let result := snd (crawl_domain b domain) in
  success result
  = match create_driver b, driver_get b (with_scheme domain), wait_ready b with
    | Ok _, Ok _, Ok _ => true
    | _, _, _ => false
    end
  /\ (success result = true ->
      error_message result = None
      /\ ConsentCrawler.domain result = with_scheme domain
      /\ 0 <= cookies_collected result)
  /\ (success result = false -> error_message result <> None).
Proof.
  cbn zeta. unfold crawl_domain.
  destruct (create_driver b) as [u0|e0].
  - destruct (driver_get b (with_scheme domain)) as [u1|e1] eqn:Hget.
    + destruct (wait_ready b) as [u2|e2] eqn:Hwait.
      * destruct (crawl_with_driver_loaded b (with_scheme domain)
                    (ex_intro _ u1 Hget) (ex_intro _ u2 Hwait))
          as [cmp [cd [clicked [fc [_ [_ [_ [_ Hr]]]]]]]].
        destruct (crawl_with_driver b (with_scheme domain)) as [t r].
        cbn [snd] in *. subst r. cbn. repeat split; try discriminate. lia.
      * assert (Hr : snd (crawl_with_driver b (with_scheme domain)) = Raise e2).
        { unfold crawl_with_driver. rewrite snd_bind. cbn [call snd]. rewrite Hget.
          rewrite snd_bind. cbn [call snd]. now rewrite Hwait. }
        destruct (crawl_with_driver b (with_scheme domain)) as [t r].
        cbn [snd] in *. subst r. destruct e2; cbn; repeat split; discriminate.
    + assert (Hr : snd (crawl_with_driver b (with_scheme domain)) = Raise e1).
      { unfold crawl_with_driver. rewrite snd_bind. cbn [call snd]. now rewrite Hget. }
      destruct (crawl_with_driver b (with_scheme domain)) as [t r].
      cbn [snd] in *. subst r. destruct e1; cbn; repeat split; discriminate.
  - destruct e0; cbn; repeat split; discriminate.
Qed.

Lemma crawl_succeeds_iff_page_loads_witness :
  error_message (snd (crawl_domain Examples.declaring_site "example.com")) = None.
Proof.
  exact (proj1 (proj1 (proj2 (crawl_succeeds_iff_page_loads Examples.declaring_site
                                 "example.com")) eq_refl)).
Defined.

(** X10.  The CMP type of a result is one of "cookiebot", "onetrust", "termly",
    "unknown" and "error"; every declaration of the result carries the
    result's CMP type, and only a "cookiebot" or "onetrust" result has
    declarations. *)
Theorem declarations_match_cmp_type (b : Browser) (domain : string) :
  let result := snd (crawl_domain b domain) in
  In (cmp_type result) ["cookiebot"; "onetrust"; "termly"; "unknown"; "error"]%string
  /\ Forall (fun c => consent_cmp c = cmp_type result) (consent_data result)
  /\ (consent_data result <> [] ->
      cmp_type result = "cookiebot"%string \/ cmp_type result = "onetrust"%string).
Proof.
  cbn zeta.
  assert (Hfail : forall d e,
            In (cmp_type (failure_result d e))
              ["cookiebot"; "onetrust"; "termly"; "unknown"; "error"]%string
            /\ Forall (fun c => consent_cmp c = cmp_type (failure_result d e))
                 (consent_data (failure_result d e))
            /\ (consent_data (failure_result d e) <> [] ->
                cmp_type (failure_result d e) = "cookiebot"%string
                \/ cmp_type (failure_result d e) = "onetrust"%string)).
  { intros d e. destruct e; cbn; (split; [tauto | split; [constructor | congruence]]). }
  unfold crawl_domain. destruct (create_driver b) as [u0|e0]; [|apply Hfail].
  destruct (driver_get b (with_scheme domain)) as [u1|e1] eqn:Hget.
  - destruct (wait_ready b) as [u2|e2] eqn:Hwait.
    + destruct (crawl_with_driver_loaded b (with_scheme domain)
                  (ex_intro _ u1 Hget) (ex_intro _ u2 Hwait))
        as [cmp [cd [clicked [fc [Hcmp [Hcd [_ [_ Hr]]]]]]]].
      destruct (crawl_with_driver b (with_scheme domain)) as [t r].
      cbn [snd] in *. subst r. cbn [cmp_type consent_data].
      split; [now apply (detect_cmp_type_values b) | now apply (scraper_cmp b)].
    + destruct (crawl_with_driver b (with_scheme domain)) as [t [r|e]] eqn:Hc; cbn [snd].
      * exfalso.
        assert (Hr : snd (crawl_with_driver b (with_scheme domain)) = Raise e2).
        { unfold crawl_with_driver. rewrite snd_bind. cbn [call snd]. rewrite Hget.
          rewrite snd_bind. cbn [call snd]. now rewrite Hwait. }
        rewrite Hc in Hr. discriminate.
      * apply Hfail.
  - destruct (crawl_with_driver b (with_scheme domain)) as [t [r|e]] eqn:Hc; cbn [snd].
    + exfalso.
      assert (Hr : snd (crawl_with_driver b (with_scheme domain)) = Raise e1).
      { unfold crawl_with_driver. rewrite snd_bind. cbn [call snd]. now rewrite Hget. }
      rewrite Hc in Hr. discriminate.
    + apply Hfail.
Qed.

(** *** The summary of a run *)

Lemma sum_counts_bump (k : string) (d : list (string * Z)) :
  sum_counts (bump k d) = sum_counts d + 1.
Proof.
  induction d as [|[k' n] t IH]; [reflexivity|].
  cbn [bump]. destruct (String.eqb k k'); unfold sum_counts in *; cbn [fold_right snd] in *; lia.
Qed.

Lemma count_success_save (db : Store) (now : string) (result : CrawlResult) :
  count_success (fst (save_crawl_result db now result))
  = count_success db + (if success result then 1 else 0).
Proof.
  unfold count_success. cbn [save_crawl_result fst crawl_results].
  rewrite filter_app, length_app. cbn [filter cr_success].
  destruct (success result); cbn [length]; lia.
Qed.

Section Run.
Variable browser_at : nat -> string -> Browser.
Variable clock_at : nat -> string.

Lemma crawl_loop_summary (domains : list string) :
  forall i db results,
    let db' := fst (crawl_loop browser_at clock_at i domains db results) in
    let results' := snd (crawl_loop browser_at clock_at i domains db results) in
    total_domains results' = total_domains results
    /\ successful_crawls results' + failed_crawls results'
       = successful_crawls results + failed_crawls results + Z.of_nat (length domains)
    /\ successful_crawls results <= successful_crawls results'
    /\ failed_crawls results <= failed_crawls results'
    /\ sum_counts (cmp_types results') - successful_crawls results'
       = sum_counts (cmp_types results) - successful_crawls results
    /\ domains_with_consent_data results <= domains_with_consent_data results'
    /\ domains_with_consent_data results' - successful_crawls results'
       <= domains_with_consent_data results - successful_crawls results
    /\ count_success db' - successful_crawls results'
       = count_success db - successful_crawls results.
Proof.
  induction domains as [|domain rest IH]; intros i db results; cbn zeta.
  - cbn. lia.
  - cbn [crawl_loop length]. set (result := snd (crawl_domain (browser_at i domain) domain)).
    specialize (IH (S i) (fst (save_crawl_result db (clock_at i) result))
                  (update_summary results result)).
    cbn zeta in IH. rewrite count_success_save in IH.
    destruct IH as [H1 [H2 [H3 [H4 [H5 [H6 [H7 H8]]]]]]].
    unfold update_summary in *. destruct (success result).
    + cbn [total_domains successful_crawls failed_crawls cmp_types
           domains_with_consent_data] in *.
      rewrite sum_counts_bump in H5. destruct (consent_data result); lia.
    + cbn [total_domains successful_crawls failed_crawls cmp_types
           domains_with_consent_data] in *. lia.
Qed.

(** X12.  The summary accounts for every domain: successful and failed crawls add
    up to the number of domains, the per-CMP counts add up to the successful
    crawls, at most that many domains have declarations, and the number of
    successful crawls is the number of [success] rows added to the store. *)
Theorem summary_accounts_for_every_domain (db : Store) (domains : list string) :
  let db' := fst (crawl_domains browser_at clock_at db domains) in
  let results := snd (crawl_domains browser_at clock_at db domains) in
  total_domains results = Z.of_nat (length domains)
  /\ successful_crawls results + failed_crawls results = Z.of_nat (length domains)
  /\ 0 <= successful_crawls results
  /\ 0 <= failed_crawls results
  /\ sum_counts (cmp_types results) = successful_crawls results
  /\ 0 <= domains_with_consent_data results <= successful_crawls results
  /\ count_success db' = count_success db + successful_crawls results.
Proof.
  cbn zeta. unfold crawl_domains.
  pose proof (crawl_loop_summary domains 1 db
                {| total_domains := Z.of_nat (length domains);
                   successful_crawls := 0; failed_crawls := 0; cmp_types := [];
                   total_cookies := 0; domains_with_consent_data := 0 |}) as H.
  cbn zeta in H.
  cbn [total_domains successful_crawls failed_crawls cmp_types domains_with_consent_data] in H.
  change (sum_counts []) with 0 in H. lia.
Qed.

(** *** Referential integrity *)

Lemma ids_after_S (first : Z) (n : nat) :
  ids_after first (S n) = (first + 1) :: ids_after (first + 1) n.
Proof.
  unfold ids_after. cbn [seq map]. f_equal.
  rewrite <- seq_shift, map_map. apply map_ext. intros k. lia.
Qed.

Lemma save_crawl_result_well_formed (db : Store) (now : string) (result : CrawlResult) :
  well_formed db -> well_formed (fst (save_crawl_result db now result)).
Proof.
  intros [Hnd [Hle Hfk]]. unfold well_formed.
  cbn [save_crawl_result fst crawl_results Schema.consent_data crawl_seq].
  rewrite map_app. cbn [map cr_id]. split; [|split].
  - apply NoDup_rev in Hnd. rewrite <- (rev_involutive (_ ++ _)). apply NoDup_rev.
    rewrite rev_app_distr. cbn [rev app]. constructor; [|exact Hnd].
    rewrite <- in_rev. intros Hin. apply in_map_iff in Hin as [cr [Hid Hin]].
    rewrite Forall_forall in Hle. specialize (Hle cr Hin). lia.
  - apply Forall_app. split.
    + eapply Forall_impl; [|exact Hle]. intros cr H. cbn beta in H. lia.
    + constructor; [cbn; lia | constructor].
  - apply Forall_app. split.
    + eapply Forall_impl; [|exact Hfk]. intros cd [id [Hid Hin]].
      exists id. split; [exact Hid | apply in_or_app; now left].
    + apply Forall_forall. intros cd Hin. apply in_map_iff in Hin as [c [<- _]].
      exists (crawl_seq db + 1). split; [reflexivity|]. apply in_or_app. right. now left.
Qed.

Lemma crawl_loop_well_formed (domains : list string) :
  forall i db results,
    well_formed db ->
    let db' := fst (crawl_loop browser_at clock_at i domains db results) in
    well_formed db'
    /\ map cr_id (crawl_results db')
       = (map cr_id (crawl_results db) ++ ids_after (crawl_seq db) (length domains))%list.
Proof.
  induction domains as [|domain rest IH]; intros i db results Hwf; cbn zeta.
  - cbn. split; [exact Hwf | now rewrite app_nil_r].
  - cbn [crawl_loop length]. set (result := snd (crawl_domain (browser_at i domain) domain)).
    destruct (IH (S i) (fst (save_crawl_result db (clock_at i) result))
                (update_summary results result)
                (save_crawl_result_well_formed db (clock_at i) result Hwf)) as [Hwf' Hids].
    split; [exact Hwf'|]. rewrite Hids, ids_after_S.
    cbn [save_crawl_result fst crawl_results crawl_seq]. rewrite map_app, <- app_assoc.
    reflexivity.
Qed.

(** X13.  A run keeps the store consistent: record ids stay distinct, every
    declaration names the id of an existing record, and the new records get
    the next ids after the counter, one per domain, in the order of the domain
    list. *)
Theorem crawl_domains_keeps_integrity (db : Store) (domains : list string) :
  well_formed db ->
  let db' := fst (crawl_domains browser_at clock_at db domains) in
  well_formed db'
  /\ map cr_id (crawl_results db')
     = (map cr_id (crawl_results db) ++ ids_after (crawl_seq db) (length domains))%list.
Proof. intros Hwf. now apply crawl_loop_well_formed. Qed.

End Run.

Lemma init_database_well_formed : well_formed init_database.
Proof. repeat split; constructor. Qed.

Lemma crawl_domains_keeps_integrity_witness :
  map cr_id
    (crawl_results
       (fst (crawl_domains (fun _ _ => Examples.declaring_site)
               (fun _ => "2024-05-01 10:00:00"%string) init_database
               ["a.example"; "b.example"]%string)))
  = [1; 2].
Proof.
  exact (proj2 (crawl_domains_keeps_integrity (fun _ _ => Examples.declaring_site)
                  (fun _ => "2024-05-01 10:00:00"%string) init_database
                  ["a.example"; "b.example"]%string init_database_well_formed)).
Defined.

End CrawlProps.

(** ** More on the matcher *)

Module ExportProps.
Import PyStr PyStrFacts Schema CookieExtractor Spec MatcherProps.
Local Open Scope Z_scope.

(** *** Rows without a cookie *)

Lemma in_insert_sorted (x r : Row) (l : list Row) :
  In x (insert_sorted r l) -> x = r \/ In x l.
Proof.
  induction l as [|y t IH]; simpl.
  - intros [<-|[]]. now left.
  - destruct (row_leb r y); simpl.
    + intros [<-|H]; [now left | now right].
    + intros [<-|H]; [right; now left|]. destruct (IH H); [now left | right; now right].
Qed.

Lemma in_order_by (x : Row) (l : list Row) : In x (order_by l) -> In x l.
Proof.
  induction l as [|r t IH]; simpl; [tauto|].
  intros H. apply in_insert_sorted in H as [->|H]; [now left | right; now apply IH].
Qed.

Lemma fetchall_without_cookies (db : Store) :
  cookies db = [] -> Forall (fun row => cookie_name row = None) (fetchall db).
Proof.
  intros Hc. apply Forall_forall. intros row Hin. unfold fetchall in Hin.
  apply in_order_by in Hin. apply in_flat_map in Hin as [cr [_ Hin]].
  rewrite Hc in Hin. cbn [join_cookies filter flat_map] in Hin. rewrite app_nil_r in Hin.
  unfold join_consent in Hin.
  assert (Hf : forall ds, filter (consent_matches cr None) ds = []).
  { intros ds. induction ds as [|d t IH]; [reflexivity | exact IH]. }
  rewrite Hf in Hin. destruct Hin as [<-|[]]. reflexivity.
Qed.

Lemma run_loop_without_names (include_unmatched : bool) (rows : list Row) :
  Forall (fun row => cookie_name row = None) rows ->
  run_loop include_unmatched rows = loop_init.
Proof.
  unfold run_loop. generalize loop_init.
  induction rows as [|row rows IH]; intros st H; [reflexivity|].
  inversion H as [|? ? Hrow Hrest]; subst. cbn [fold_left].
  unfold process_row at 2. rewrite Hrow. cbn [truthy negb]. now apply IH.
Qed.

Section Pipeline.
Variable browser_at : nat -> string -> ConsentCrawler.Browser.
Variable clock_at : nat -> string.

(** X14.  Whatever the sites do, the store that a crawl run builds from a fresh
    database gives an empty export: no cookie, and all three counters 0, with
    or without unmatched cookies. *)
Theorem crawl_then_extract_is_empty
  (domains : list string) (include_unmatched : bool) (now : string) :
  extract_cookies_with_consent
    (fst (ConsentCrawler.crawl_domains browser_at clock_at
            ConsentCrawler.init_database domains))
    include_unmatched now
  = {| export_cookies := [];
       statistics := {| total_unique_cookies := 0; stat_matched_cookies := 0;
                        stat_unmatched_cookies := 0; extraction_date := now |} |}.
Proof.
  unfold extract_cookies_with_consent, extract_rows.
  rewrite run_loop_without_names; [reflexivity|].
  apply fetchall_without_cookies.
  exact (proj2 (proj2 (ConsentProps.crawl_loop_effect browser_at clock_at domains 1
                         ConsentCrawler.init_database _))).
Qed.

End Pipeline.

(** *** The counters *)

Lemma process_row_counters (include_unmatched : bool) (st : LoopState) (row : Row) :
  matched_cookies (process_row include_unmatched st row)
  = matched_cookies st
    + (if truthy (cookie_name row) && truthy (purpose_category row) then 1 else 0)
  /\ unmatched_cookies (process_row include_unmatched st row)
     = unmatched_cookies st
       + (if truthy (cookie_name row) && negb (truthy (purpose_category row)) then 1 else 0).
Proof.
  unfold process_row.
  destruct (truthy (cookie_name row)), (truthy (purpose_category row)), include_unmatched;
    cbn; lia.
Qed.

Lemma fold_process_row_counters (include_unmatched : bool) (rows : list Row) :
  forall st,
    let st' := fold_left (process_row include_unmatched) rows st in
    matched_cookies st'
    = matched_cookies st
      + Z.of_nat (length (filter (fun row => truthy (cookie_name row)
                                             && truthy (purpose_category row)) rows))
    /\ unmatched_cookies st'
       = unmatched_cookies st
         + Z.of_nat (length (filter (fun row => truthy (cookie_name row)
                                                && negb (truthy (purpose_category row)))
                               rows)).
Proof.
  induction rows as [|row rows IH]; intros st; cbn zeta.
  - cbn. lia.
  - cbn [fold_left filter]. specialize (IH (process_row include_unmatched st row)).
    cbn zeta in IH. destruct IH as [Hm Hu]. rewrite Hm, Hu.
    destruct (process_row_counters include_unmatched st row) as [-> ->].
    destruct (truthy (cookie_name row)), (truthy (purpose_category row));
      cbn [andb negb length]; lia.
Qed.

Lemma filter_split_length {A : Type} (p q : A -> bool) (l : list A) :
  (length (filter (fun x => p x && q x) l)
   + length (filter (fun x => p x && negb (q x)) l)
   = length (filter p l))%nat.
Proof.
  induction l as [|x l IH]; [reflexivity|].
  cbn [filter]. destruct (p x), (q x); cbn [andb negb length]; lia.
Qed.

(** X15.  Every fetched row with a cookie name is counted once: as matched when it
    has a purpose category, as unmatched when it has none.  The two counters
    do not depend on [include_unmatched] (a default run counts the rows it
    drops), and they add up to the number of rows with a cookie name. *)
Theorem counters_count_named_rows
  (rows : list Row) (include_unmatched : bool) (now : string) :
  let stats := statistics (extract_rows rows include_unmatched now) in
  stat_matched_cookies stats
  = Z.of_nat (length (filter (fun row => truthy (cookie_name row)
                                         && truthy (purpose_category row)) rows))
  /\ stat_unmatched_cookies stats
     = Z.of_nat (length (filter (fun row => truthy (cookie_name row)
                                            && negb (truthy (purpose_category row))) rows))
  /\ stat_matched_cookies stats + stat_unmatched_cookies stats
     = Z.of_nat (length (filter (fun row => truthy (cookie_name row)) rows)).
Proof.
  cbn zeta. cbn [extract_rows statistics stat_matched_cookies stat_unmatched_cookies].
  unfold run_loop.
  destruct (fold_process_row_counters include_unmatched rows loop_init) as [Hm Hu].
  cbn zeta in Hm, Hu. rewrite Hm, Hu. cbn [loop_init matched_cookies unmatched_cookies].
  pose proof (filter_split_length (fun row => truthy (cookie_name row))
                (fun row => truthy (purpose_category row)) rows).
  lia.
Qed.

(** *** The entries *)

Lemma map_purpose_category_range (category : option string) :
  In (_map_purpose_category category) [-1; 0; 1; 2; 3; 4].
Proof.
  unfold _map_purpose_category.
  destruct (negb (truthy category)); [simpl; tauto|].
  repeat match goal with
         | |- context [if ?c then _ else _] => destruct c; [simpl; tauto|]
         end.
  simpl; tauto.
Qed.

Lemma map_cmp_type_range (cmp : option string) :
  In (_map_cmp_type cmp) [-1; 0; 1; 2].
Proof.
  unfold _map_cmp_type. destruct cmp as [s|]; [|simpl; tauto].
  repeat match goal with
         | |- context [if ?c then _ else _] => destruct c; [simpl; tauto|]
         end.
  simpl; tauto.
Qed.

Lemma or_default_nonempty (o : option string) (d : string) :
  d <> EmptyString -> or_default o d <> EmptyString.
Proof. intros Hd. destruct o as [[|c s]|]; simpl; try exact Hd. discriminate. Qed.

Lemma find_selects (include_unmatched : bool) (k : string) (rows : list Row) (first : Row) :
  find (selects include_unmatched k) rows = Some first ->
  kept include_unmatched first = true /\ cookie_id_of first = k
  /\ In first (filter (selects include_unmatched k) rows).
Proof.
  intros H. apply find_some in H as [Hin Hsel].
  assert (Hs := Hsel). unfold selects in Hs. apply andb_true_iff in Hs as [Hk He].
  apply String.eqb_eq in He. repeat split; try assumption.
  apply filter_In. now split.
Qed.

(** X16.  Every entry of the export is well formed: its key is
    "<domain>_<name>" of its own fields, its name is not empty, it has at
    least one instance, its label is one of -1, 0, ..., 4 and its cmp_origin
    one of -1, 0, 1, 2, and its path and the same_site of every instance are
    not empty. *)
Theorem export_entries_well_formed
  (rows : list Row) (include_unmatched : bool) (now : string)
  (k : string) (e : CookieEntry) :
  dict_get k (export_cookies (extract_rows rows include_unmatched now)) = Some e ->
  k = (fmt (edomain e) ++ "_" ++ fmt (name e))%string
  /\ truthy (name e) = true
  /\ variable_data e <> []
  /\ In (label e) [-1; 0; 1; 2; 3; 4]
  /\ In (cmp_origin e) [-1; 0; 1; 2]
  /\ path e <> EmptyString
  /\ Forall (fun v => same_site v <> EmptyString) (variable_data e).
Proof.
  cbn [extract_rows export_cookies]. rewrite run_loop_entry.
  destruct (find (selects include_unmatched k) rows) as [first|] eqn:Ef; [|discriminate].
  destruct (find_selects _ _ _ _ Ef) as [Hkept [Hkey Hin]].
  cbn [option_map]. intros [= <-]. cbn [entry_with cookie_entry_of name edomain label
    cmp_origin path variable_data].
  split; [now rewrite <- Hkey|]. split.
  { unfold kept in Hkept. now apply andb_true_iff in Hkept as [Hn _]. }
  split.
  { intros Hnil. apply map_eq_nil in Hnil. rewrite Hnil in Hin. contradiction. }
  split; [apply map_purpose_category_range|].
  split; [apply map_cmp_type_range|].
  split; [apply or_default_nonempty; discriminate|].
  apply Forall_forall. intros v Hv. apply in_map_iff in Hv as [row [<- _]].
  cbn [variable_data_of same_site]. apply or_default_nonempty. discriminate.
Qed.

Lemma export_entries_well_formed_witness :
  In (label (cookie_entry_of Examples.ga_declared)) [-1; 0; 1; 2; 3; 4].
Proof.
  exact (proj1 (proj2 (proj2 (proj2
           (export_entries_well_formed [Examples.ga_declared] false
              "2024-05-02T09:00:00" ".tracker.example__ga"
              (cookie_entry_of Examples.ga_declared) eq_refl))))).
Defined.

Lemma selects_default_included (k : string) (row : Row) :
  selects false k row = true -> selects true k row = true.
Proof.
  unfold selects, kept. rewrite orb_false_r, orb_true_r, andb_true_r.
  intros H. apply andb_true_iff in H as [H1 H2]. apply andb_true_iff in H1 as [Hn _].
  now rewrite Hn, H2.
Qed.

Lemma filter_incl_length {A : Type} (p q : A -> bool) (l : list A) :
  (forall x, p x = true -> q x = true) ->
  incl (filter p l) (filter q l) /\ (length (filter p l) <= length (filter q l))%nat.
Proof.
  intros Hpq. split.
  - intros x Hx. apply filter_In in Hx as [Hin Hp]. apply filter_In. auto.
  - induction l as [|x l IH]; [reflexivity|]. cbn [filter].
    destruct (p x) eqn:Ep.
    + rewrite (Hpq x Ep). cbn [length]. lia.
    + destruct (q x); cbn [length]; lia.
Qed.

(** X17.  Including unmatched cookies only adds to the export: every key of a
    default run is a key of the run with [include_unmatched], and each of its
    instances is among the instances there.  (The fixed fields may differ: an
    earlier undeclared row then creates the entry.) *)
Theorem default_export_is_included
  (rows : list Row) (now : string) (k : string) (e : CookieEntry) :
  dict_get k (export_cookies (extract_rows rows false now)) = Some e ->
  exists e',
    dict_get k (export_cookies (extract_rows rows true now)) = Some e'
    /\ incl (variable_data e) (variable_data e')
    /\ (length (variable_data e) <= length (variable_data e'))%nat.
Proof.
  cbn [extract_rows export_cookies]. rewrite !run_loop_entry.
  destruct (find (selects false k) rows) as [first|] eqn:Ef; [|discriminate].
  cbn [option_map]. intros [= <-].
  destruct (find (selects true k) rows) as [first'|] eqn:Ef'.
  - eexists. split; [reflexivity|]. cbn [entry_with variable_data].
    destruct (filter_incl_length (selects false k) (selects true k) rows
                (selects_default_included k)) as [Hincl Hlen].
    split; [now apply incl_map | now rewrite !length_map].
  - exfalso. apply find_some in Ef as [Hin Hsel].
    apply selects_default_included in Hsel.
    exact (eq_true_false_abs _ Hsel (find_none _ _ Ef' first Hin)).
Qed.

Lemma default_export_is_included_witness :
  exists e',
    dict_get ".tracker.example__ga"
      (export_cookies
         (extract_rows [Examples.ga_declared; Examples.ga_undeclared] true
            "2024-05-02T09:00:00")) = Some e'
    /\ (1 <= length (variable_data e'))%nat.
Proof.
  destruct (default_export_is_included [Examples.ga_declared; Examples.ga_undeclared]
              "2024-05-02T09:00:00" ".tracker.example__ga"
              (cookie_entry_of Examples.ga_declared) eq_refl) as [e' [He' [_ Hlen]]].
  exists e'. split; [exact He' | exact Hlen].
Defined.

(** *** Keywords *)

Lemma contains_middle (pre kw post : string) :
  contains (lower kw) (lower (pre ++ kw ++ post)) = true.
Proof.
  apply contains_iff. exists (lower pre), (lower post). now rewrite !lower_app.
Qed.

Lemma append_nonempty (pre kw post : string) :
  kw <> EmptyString -> pre ++ kw ++ post <> EmptyString.
Proof. destruct pre, kw; simpl; try discriminate. congruence. Qed.

(** X18.  A purpose text that contains "necessary", "essential", "required" or
    "strictly", in any mix of upper and lower case and anywhere in the text, is
    labelled 0 whatever else it says (so "Non-essential marketing" is 0,
    too). *)
Theorem necessary_keyword_wins (pre kw post : string) :
  In (lower kw) ["necessary"; "essential"; "required"; "strictly"]%string ->
  _map_purpose_category (Some (pre ++ kw ++ post)) = 0.
Proof.
  intros Hin.
  assert (Hne : kw <> EmptyString).
  { intros ->. simpl in Hin. repeat destruct Hin as [Hin|Hin]; try discriminate; auto. }
  pose proof (append_nonempty pre kw post Hne) as Hs.
  pose proof (contains_middle pre kw post) as Hc.
  destruct (pre ++ kw ++ post) as [|c s] eqn:E; [congruence|].
  rewrite LabelProps.map_purpose_category_chain. unfold purpose_table. cbn [first_match].
  assert (Hany : any_in ["necessary"; "essential"; "required"; "strictly"]%string
                   (lower (String c s)) = true).
  { unfold any_in. apply existsb_exists. exists (lower kw). now split. }
  now rewrite Hany.
Qed.

Lemma necessary_keyword_wins_witness :
  _map_purpose_category (Some "Non-Essential marketing cookies"%string) = 0.
Proof.
  refine (necessary_keyword_wins "Non-"%string "Essential"%string
            " marketing cookies"%string _).
  simpl. tauto.
Defined.

End ExportProps.

(** ** Post-processing and statistics *)

Module DatabaseProps.
Import PyStr Schema DatabaseProcessor.
Local Open Scope Z_scope.

Lemma filter_length_split {A : Type} (p : A -> bool) (l : list A) :
  (length (filter p l) + length (filter (fun x => negb (p x)) l) = length l)%nat.
Proof.
  induction l as [|x l IH]; [reflexivity|]. cbn [filter].
  destruct (p x); cbn [negb length]; lia.
Qed.

Lemma delete_where_clean {A : Type} (cond : A -> bool) (rows : list A) :
  Forall (fun row => cond row = false) rows -> delete_where cond rows = (rows, 0).
Proof.
  intros H. unfold delete_where. induction H as [|x l Hx Hl IH]; [reflexivity|].
  injection IH as IH1 IH2. cbn [filter]. rewrite Hx. cbn [negb]. rewrite IH1.
  f_equal. exact IH2.
Qed.

Lemma sql_not_in_false (x : option Z) (ids : list Z) :
  sql_not_in x ids = false ->
  ids <> [] /\ (forall id, x = Some id -> In id ids).
Proof.
  unfold sql_not_in. destruct ids as [|i ids]; [discriminate|].
  intros H. split; [discriminate|]. intros id ->.
  apply negb_false_iff in H. apply existsb_exists in H as [j [Hj Heq]].
  apply Z.eqb_eq in Heq. now subst.
Qed.

Lemma sql_not_in_present (id : Z) (ids : list Z) :
  In id ids -> sql_not_in (Some id) ids = false.
Proof.
  intros Hin. unfold sql_not_in. destruct ids as [|i ids]; [contradiction|].
  apply negb_false_iff. apply existsb_exists. exists id. split; [exact Hin | apply Z.eqb_refl].
Qed.

Lemma filter_none {A : Type} (l : list A) : filter (fun _ => false) l = [].
Proof. induction l as [|x l IH]; [reflexivity | exact IH]. Qed.

(** What is left after cleaning, in boolean form. *)
Lemma clean_database_rows (db : Store) :
  let db' := fst (clean_database db) in
  let ids := map cr_id (crawl_results db) in
  cookies db'
  = filter (fun c => negb (sql_not_in (c_crawl_id c) ids))
      (filter (fun c => negb (String.eqb (c_name c) "")) (cookies db))
  /\ consent_data db'
     = filter (fun d => negb (sql_not_in (cd_crawl_id d) ids))
         (filter (fun d => negb (String.eqb (cd_cookie_name d) "")) (consent_data db))
  /\ crawl_results db' = crawl_results db
  /\ crawl_seq db' = crawl_seq db.
Proof. repeat split. Qed.

(** X19.  After cleaning no cookie or declaration has an empty cookie name, and
    every crawl id that is left names an existing crawl record; the crawl
    records themselves are untouched, and the four reported counts are the
    numbers of rows that went away.  With no crawl records at all, both
    tables end up empty. *)
Theorem clean_database_postcondition (db : Store) :
  let db' := fst (clean_database db) in
  let stats := snd (clean_database db) in
  let ids := map cr_id (crawl_results db) in
  crawl_results db' = crawl_results db
  /\ Forall (fun c => c_name c <> EmptyString
                      /\ forall id, c_crawl_id c = Some id -> In id ids) (cookies db')
  /\ Forall (fun d => cd_cookie_name d <> EmptyString
                      /\ forall id, cd_crawl_id d = Some id -> In id ids) (consent_data db')
  /\ Z.of_nat (length (cookies db))
     = Z.of_nat (length (cookies db'))
       + empty_cookie_names_removed stats + orphaned_cookies_removed stats
  /\ Z.of_nat (length (consent_data db))
     = Z.of_nat (length (consent_data db'))
       + empty_consent_names_removed stats + orphaned_consent_data_removed stats
  /\ (crawl_results db = [] -> cookies db' = [] /\ consent_data db' = []).
Proof.
  cbn zeta. destruct (clean_database_rows db) as [Hc [Hd [Hr _]]]. cbn zeta in Hc, Hd, Hr.
  split; [exact Hr|]. split; [|split; [|split; [|split]]].
  - rewrite Hc. apply Forall_forall. intros c Hin.
    apply filter_In in Hin as [Hin Ho]. apply filter_In in Hin as [_ Hn].
    apply negb_true_iff in Ho, Hn. split.
    + intros E. rewrite E in Hn. discriminate.
    + apply (sql_not_in_false _ _ Ho).
  - rewrite Hd. apply Forall_forall. intros d Hin.
    apply filter_In in Hin as [Hin Ho]. apply filter_In in Hin as [_ Hn].
    apply negb_true_iff in Ho, Hn. split.
    + intros E. rewrite E in Hn. discriminate.
    + apply (sql_not_in_false _ _ Ho).
  - rewrite Hc. cbn [clean_database delete_where snd empty_cookie_names_removed
      orphaned_cookies_removed].
    pose proof (filter_length_split (fun c => String.eqb (c_name c) "") (cookies db)).
    pose proof (filter_length_split
                  (fun c => sql_not_in (c_crawl_id c) (map cr_id (crawl_results db)))
                  (filter (fun c => negb (String.eqb (c_name c) "")) (cookies db))).
    lia.
  - rewrite Hd. cbn [clean_database delete_where snd empty_consent_names_removed
      orphaned_consent_data_removed].
    pose proof (filter_length_split (fun d => String.eqb (cd_cookie_name d) "")
                  (consent_data db)).
    pose proof (filter_length_split
                  (fun d => sql_not_in (cd_crawl_id d) (map cr_id (crawl_results db)))
                  (filter (fun d => negb (String.eqb (cd_cookie_name d) ""))
                     (consent_data db))).
    lia.
  - intros Hnil. rewrite Hc, Hd, Hnil. cbn [map sql_not_in negb].
    split; apply filter_none.
Qed.

(** X20.  Cleaning is idempotent: a second cleaning removes nothing and leaves the
    store as the first one left it. *)
Theorem clean_database_idempotent (db : Store) :
  clean_database (fst (clean_database db))
  = (fst (clean_database db),
     {| empty_cookie_names_removed := 0; empty_consent_names_removed := 0;
        orphaned_cookies_removed := 0; orphaned_consent_data_removed := 0 |}).
Proof.
  destruct (clean_database_rows db) as [Hc [Hd [Hr Hs]]]. cbn zeta in Hc, Hd, Hr, Hs.
  destruct (fst (clean_database db)) as [crs cs ds sq]. cbn [crawl_results cookies
    consent_data crawl_seq] in *. subst crs sq.
  unfold clean_database at 1. cbn [crawl_results cookies consent_data crawl_seq].
  assert (Hc1 : Forall (fun c => String.eqb (c_name c) "" = false) cs).
  { rewrite Hc. apply Forall_forall. intros c Hin.
    apply filter_In in Hin as [Hin _]. apply filter_In in Hin as [_ Hn].
    now apply negb_true_iff in Hn. }
  assert (Hc2 : Forall (fun c => sql_not_in (c_crawl_id c) (map cr_id (crawl_results db))
                                 = false) cs).
  { rewrite Hc. apply Forall_forall. intros c Hin.
    apply filter_In in Hin as [_ Ho]. now apply negb_true_iff in Ho. }
  assert (Hd1 : Forall (fun d => String.eqb (cd_cookie_name d) "" = false) ds).
  { rewrite Hd. apply Forall_forall. intros d Hin.
    apply filter_In in Hin as [Hin _]. apply filter_In in Hin as [_ Hn].
    now apply negb_true_iff in Hn. }
  assert (Hd2 : Forall (fun d => sql_not_in (cd_crawl_id d) (map cr_id (crawl_results db))
                                 = false) ds).
  { rewrite Hd. apply Forall_forall. intros d Hin.
    apply filter_In in Hin as [_ Ho]. now apply negb_true_iff in Ho. }
  rewrite (delete_where_clean _ _ Hc1), (delete_where_clean _ _ Hd1).
  rewrite (delete_where_clean _ _ Hc2), (delete_where_clean _ _ Hd2).
  reflexivity.
Qed.

(** *** [get_database_statistics] *)

Lemma total_count_count_into {K : Type} (eqb : K -> K -> bool) (k : K) (d : list (K * Z)) :
  total_count (count_into eqb k d) = total_count d + 1.
Proof.
  induction d as [|[k' n] t IH]; [reflexivity|]. cbn [count_into].
  destruct (eqb k k'); unfold total_count in *; cbn [fold_right snd] in *; lia.
Qed.

Lemma total_count_group_count {K : Type} (eqb : K -> K -> bool) (keys : list K) :
  total_count (group_count eqb keys) = Z.of_nat (length keys).
Proof.
  unfold group_count.
  assert (H : forall d, total_count (fold_left (fun d k => count_into eqb k d) keys d)
                        = total_count d + Z.of_nat (length keys)).
  { induction keys as [|k keys IH]; intros d; cbn [fold_left length]; [lia|].
    rewrite IH, total_count_count_into. lia. }
  rewrite H. reflexivity.
Qed.

Lemma nodup_length_le {K : Type} (dec : forall a b : K, {a = b} + {a <> b}) (l : list K) :
  (length (nodup dec l) <= length l)%nat.
Proof.
  induction l as [|x l IH]; [reflexivity|]. cbn [nodup].
  destruct (in_dec dec x l); cbn [length]; lia.
Qed.

(** X22.  The database statistics are consistent: successful and failed crawls add
    up to all crawls, the CMP distribution adds up to the successful crawls,
    there are at most as many unique cookies as cookies, and at most as many
    crawls with declarations as declarations. *)
Theorem database_statistics_consistent (db : Store) :
  let stats := get_database_statistics db in
  successful_crawls stats + failed_crawls stats = total_crawls stats
  /\ total_count (cmp_distribution stats) = successful_crawls stats
  /\ 0 <= unique_cookies stats <= total_cookies stats
  /\ 0 <= domains_with_consent_data stats <= consent_data_entries stats.
Proof.
  cbn zeta. unfold get_database_statistics. cbn [successful_crawls failed_crawls
    total_crawls cmp_distribution unique_cookies total_cookies domains_with_consent_data
    consent_data_entries].
  split; [|split; [|split]].
  - pose proof (filter_length_split cr_success (crawl_results db)). lia.
  - now rewrite total_count_group_count, length_map.
  - unfold count_distinct.
    pose proof (nodup_length_le string_dec
                  (map (fun c => (c_name c ++ c_domain c)%string) (cookies db))) as H.
    rewrite length_map in H. lia.
  - unfold count_distinct.
    assert (Hf : forall ds : list ConsentRow,
               (length (flat_map (fun d => match cd_crawl_id d with
                                           | Some id => [id] | None => [] end) ds)
                <= length ds)%nat).
    { intros ds. induction ds as [|d t IH]; [reflexivity|].
      cbn [flat_map]. rewrite length_app. destruct (cd_crawl_id d); cbn [length]; lia. }
    pose proof (nodup_length_le Z.eq_dec
                  (flat_map (fun d => match cd_crawl_id d with
                                      | Some id => [id] | None => [] end)
                     (consent_data db))) as H.
    specialize (Hf (consent_data db)). lia.
Qed.

End DatabaseProps.

(** ** The analyzer on the matcher's export *)

Module AnalyzerProps.
Import PyStr Schema CookieExtractor Spec MatcherProps ExportProps CookieStatsAnalyzer.
Local Open Scope Z_scope.

Lemma instances_append (k : string) (v : VariableData) (d : Dict) (e : CookieEntry) :
  dict_get k d = Some e ->
  total_cookie_instances (dict_append k v d) = total_cookie_instances d + 1.
Proof.
  induction d as [|[k' e'] t IH]; cbn [dict_get]; [discriminate|].
  cbn [dict_append]. destruct (String.eqb k k').
  - intros _. unfold total_cookie_instances. cbn [fold_right snd append_variable_data
      variable_data]. rewrite length_app. cbn [length]. lia.
  - intros H. specialize (IH H). unfold total_cookie_instances in *.
    cbn [fold_right snd]. lia.
Qed.

Lemma instances_set_new (k : string) (e : CookieEntry) (d : Dict) :
  total_cookie_instances (dict_set_new k e d)
  = total_cookie_instances d + Z.of_nat (length (variable_data e)).
Proof.
  unfold dict_set_new, total_cookie_instances.
  induction d as [|[k' e'] t IH]; cbn [app fold_right snd]; lia.
Qed.

Lemma instances_step (include_unmatched : bool) (d : Dict) (row : Row) :
  total_cookie_instances (step_data include_unmatched d row)
  = total_cookie_instances d + (if kept include_unmatched row then 1 else 0).
Proof.
  unfold step_data. destruct (kept include_unmatched row); [|lia].
  destruct (dict_mem (cookie_id_of row) d) eqn:Emem.
  - apply dict_mem_true in Emem as [e He]. now apply (instances_append _ _ _ e).
  - now rewrite instances_set_new.
Qed.

Lemma instances_run_loop (include_unmatched : bool) (rows : list Row) :
  total_cookie_instances (extracted_data (run_loop include_unmatched rows))
  = Z.of_nat (length (filter (kept include_unmatched) rows)).
Proof.
  induction rows as [|row rows IH] using rev_ind; [reflexivity|].
  rewrite run_loop_snoc, instances_step, IH, filter_app, length_app.
  cbn [filter]. destruct (kept include_unmatched row); cbn [length]; lia.
Qed.

(** X23.  The analyzer and the matcher agree: the number of cookie instances that
    the analyzer finds in an export is the matcher's count of matched cookies
    for a default run, and matched plus unmatched cookies for a run with
    [include_unmatched]; the number of unique cookies is the same in both. *)
Theorem analyzer_agrees_with_matcher
  (rows : list Row) (include_unmatched : bool) (now : string) :
  let export := extract_rows rows include_unmatched now in
  total_cookie_instances (export_cookies export)
  = stat_matched_cookies (statistics export)
    + (if include_unmatched then stat_unmatched_cookies (statistics export) else 0)
  /\ CookieStatsAnalyzer.total_unique_cookies (export_cookies export)
     = CookieExtractor.total_unique_cookies (statistics export).
Proof.
  cbn zeta. split; [|reflexivity].
  cbn [extract_rows export_cookies statistics stat_matched_cookies stat_unmatched_cookies].
  rewrite instances_run_loop. unfold run_loop.
  destruct (fold_process_row_counters include_unmatched rows loop_init) as [Hm Hu].
  cbn zeta in Hm, Hu. rewrite Hm, Hu. cbn [loop_init matched_cookies unmatched_cookies].
  pose proof (filter_split_length (fun row => truthy (cookie_name row))
                (fun row => truthy (purpose_category row)) rows) as Hsplit.
  unfold kept. destruct include_unmatched.
  - rewrite (filter_ext _ (fun row => truthy (cookie_name row))).
    + lia.
    + intros row. now rewrite orb_true_r, andb_true_r.
  - rewrite (filter_ext _ (fun row => truthy (cookie_name row)
                                      && truthy (purpose_category row))).
    + lia.
    + intros row. now rewrite orb_false_r.
Qed.

(** *** Security attributes *)

Lemma count_instance_balanced (st : SecurityStats) (v : VariableData) :
  balanced st ->
  balanced (count_instance st v)
  /\ total_instances (count_instance st v) = total_instances st + 1.
Proof.
  unfold balanced. intros [H1 [H2 [H3 [H4 H5]]]].
  unfold count_instance. cbn [total_instances secure_count http_only_count
    secure_and_http_only same_site_strict same_site_lax same_site_none same_site_not_set].
  destruct (secure v), (http_only v),
    (String.eqb (lower (same_site v)) "strict"),
    (String.eqb (lower (same_site v)) "lax"),
    (String.eqb (lower (same_site v)) "none" || String.eqb (lower (same_site v)) "no_restriction")%bool;
    cbn [bump_if andb negb orb]; lia.
Qed.

Lemma count_instances_balanced (vs : list VariableData) :
  forall st, balanced st ->
    balanced (fold_left count_instance vs st)
    /\ total_instances (fold_left count_instance vs st)
       = total_instances st + Z.of_nat (length vs).
Proof.
  induction vs as [|v vs IH]; intros st Hb; cbn [fold_left length].
  - split; [exact Hb | lia].
  - destruct (count_instance_balanced st v Hb) as [Hb' Ht].
    destruct (IH _ Hb') as [Hb'' Ht']. split; [exact Hb''|]. lia.
Qed.

(** X24.  The security counts add up: every instance of the export falls in exactly
    one of the four same-site buckets, the count of cookies that are both
    secure and http-only is at most either single count, and the number of
    instances counted is the one [get_basic_statistics] reports. *)
Theorem security_counts_add_up (cookies : Dict) :
  let st := security_counts cookies in
  total_instances st = total_cookie_instances cookies
  /\ same_site_strict st + same_site_lax st + same_site_none st + same_site_not_set st
     = total_instances st
  /\ 0 <= secure_and_http_only st
  /\ secure_and_http_only st <= secure_count st
  /\ secure_and_http_only st <= http_only_count st
  /\ secure_count st + http_only_count st - secure_and_http_only st <= total_instances st.
Proof.
  cbn zeta. unfold security_counts.
  assert (H : forall st, balanced st ->
            balanced (fold_left (fun st ke => fold_left count_instance
                                                (variable_data (snd ke)) st) cookies st)
            /\ total_instances
                 (fold_left (fun st ke => fold_left count_instance
                                            (variable_data (snd ke)) st) cookies st)
               = total_instances st + total_cookie_instances cookies).
  { induction cookies as [|[k e] t IH]; intros st Hb.
    - cbn. split; [exact Hb | lia].
    - cbn [fold_left snd].
      destruct (count_instances_balanced (variable_data e) st Hb) as [Hb' Ht].
      destruct (IH _ Hb') as [Hb'' Ht']. split; [exact Hb''|].
      unfold total_cookie_instances in *. cbn [fold_right snd]. lia. }
  destruct (H security_init) as [Hb Ht].
  { unfold balanced. cbn. lia. }
  split; [rewrite Ht; cbn; lia | exact Hb].
Qed.

End AnalyzerProps.

(** ** The order of the fetched rows *)

Module OrderProps.
Import PyStr Schema CookieExtractor RowOrder.

Lemma compare_lt_trans (a b c : string) :
  String.compare a b = Lt -> String.compare b c = Lt -> String.compare a c = Lt.
Proof.
  intros H1 H2. apply OrderedTypeEx.String_as_OT.cmp_lt.
  apply OrderedTypeEx.String_as_OT.cmp_lt in H1, H2.
  exact (OrderedTypeEx.String_as_OT.lt_trans _ _ _ H1 H2).
Qed.

Lemma compare_eq (a b : string) : String.compare a b = Eq -> a = b.
Proof. apply OrderedTypeEx.String_as_OT.cmp_eq. Qed.

Lemma compare_refl (a : string) : String.compare a a = Eq.
Proof. now apply OrderedTypeEx.String_as_OT.cmp_eq. Qed.

Lemma compare_gt_lt (a b : string) : String.compare a b = Gt -> String.compare b a = Lt.
Proof.
  intros H. rewrite OrderedTypeEx.String_as_OT.cmp_antisym.
  unfold OrderedTypeEx.String_as_OT.cmp. now rewrite H.
Qed.

Lemma leb_cases (a b : string) :
  String.leb a b = true <-> String.compare a b = Lt \/ a = b.
Proof.
  unfold String.leb. destruct (String.compare a b) eqn:E; split; intros H;
    try discriminate; try reflexivity.
  - right. now apply compare_eq.
  - now left.
  - destruct H as [H|H]; [discriminate|]. subst. rewrite compare_refl in E. discriminate.
Qed.

Lemma leb_trans (a b c : string) :
  String.leb a b = true -> String.leb b c = true -> String.leb a c = true.
Proof.
  rewrite !leb_cases. intros [H1| ->] [H2| ->]; auto.
  left. exact (compare_lt_trans _ _ _ H1 H2).
Qed.

Lemma name_leb_trans (a b c : option string) :
  name_leb a b = true -> name_leb b c = true -> name_leb a c = true.
Proof.
  destruct a as [x|], b as [y|], c as [z|]; simpl; try discriminate; try reflexivity.
  apply leb_trans.
Qed.

Lemma name_leb_total (a b : option string) :
  name_leb a b = true \/ name_leb b a = true.
Proof.
  destruct a as [x|], b as [y|]; simpl; auto. apply String.leb_total.
Qed.

Lemma row_le_trans (a b c : Row) : row_le a b -> row_le b c -> row_le a c.
Proof.
  unfold row_le, row_leb.
  destruct (String.compare (domain a) (domain b)) eqn:E1; try discriminate;
    destruct (String.compare (domain b) (domain c)) eqn:E2; try discriminate.
  - apply compare_eq in E1, E2. rewrite E1, E2, compare_refl. apply name_leb_trans.
  - apply compare_eq in E1. rewrite E1, E2. reflexivity.
  - apply compare_eq in E2. rewrite <- E2, E1. reflexivity.
  - now rewrite (compare_lt_trans _ _ _ E1 E2).
Qed.

Lemma row_le_total (a b : Row) : row_le a b \/ row_le b a.
Proof.
  unfold row_le, row_leb.
  destruct (String.compare (domain a) (domain b)) eqn:E.
  - apply compare_eq in E. rewrite E, compare_refl. apply name_leb_total.
  - now left.
  - right. now rewrite (compare_gt_lt _ _ E).
Qed.

Lemma insert_sorted_in (x r : Row) (l : list Row) :
  In x (insert_sorted r l) -> x = r \/ In x l.
Proof.
  induction l as [|y t IH]; simpl.
  - intros [<-|[]]. now left.
  - destruct (row_leb r y); simpl.
    + intros [<-|H]; [now left | now right].
    + intros [<-|H]; [right; now left|]. destruct (IH H); [now left | right; now right].
Qed.

Lemma insert_sorted_sorted (r : Row) (l : list Row) :
  StronglySorted row_le l -> StronglySorted row_le (insert_sorted r l).
Proof.
  induction 1 as [|y t Hs IH Hall]; simpl.
  - repeat constructor.
  - destruct (row_leb r y) eqn:E.
    + constructor; [now constructor|]. constructor; [exact E|].
      eapply Forall_impl; [|exact Hall]. intros z Hz. exact (row_le_trans _ _ _ E Hz).
    + constructor; [exact IH|]. apply Forall_forall. intros z Hz.
      apply insert_sorted_in in Hz as [->|Hz].
      * destruct (row_le_total r y) as [H|H]; [unfold row_le in H; congruence | exact H].
      * rewrite Forall_forall in Hall. now apply Hall.
Qed.

Lemma order_by_sorted (l : list Row) : StronglySorted row_le (order_by l).
Proof.
  induction l as [|r l IH]; [constructor|]. now apply insert_sorted_sorted.
Qed.

Lemma insert_sorted_head (r : Row) (l : list Row) :
  Forall (row_le r) l -> insert_sorted r l = r :: l.
Proof.
  destruct l as [|y t]; [reflexivity|]. intros H. inversion H as [|? ? Hy _]; subst.
  simpl. unfold row_le in Hy. now rewrite Hy.
Qed.

Lemma filter_insert_sorted (p : Row -> bool) (r : Row) (l : list Row) :
  StronglySorted row_le l ->
  filter p (insert_sorted r l)
  = if p r then insert_sorted r (filter p l) else filter p l.
Proof.
  induction 1 as [|y t Hs IH Hall]; simpl.
  - now destruct (p r).
  - destruct (row_leb r y) eqn:E.
    + cbn [filter]. destruct (p r); [|reflexivity].
      symmetry. apply insert_sorted_head.
      assert (Hr : Forall (row_le r) (y :: t)).
      { constructor; [exact E|]. eapply Forall_impl; [|exact Hall].
        intros z Hz. exact (row_le_trans _ _ _ E Hz). }
      apply Forall_forall. intros z Hz. rewrite Forall_forall in Hr. apply Hr.
      change (In z (filter p (y :: t))) in Hz. now apply filter_In in Hz as [Hz _].
    + cbn [filter]. rewrite IH. destruct (p y), (p r); try reflexivity.
      simpl. now rewrite E.
Qed.

(** Dropping rows commutes with the sort. *)
Lemma filter_order_by (p : Row -> bool) (l : list Row) :
  filter p (order_by l) = order_by (filter p l).
Proof.
  induction l as [|r l IH]; [reflexivity|].
  change (order_by (r :: l)) with (insert_sorted r (order_by l)).
  rewrite filter_insert_sorted by apply order_by_sorted.
  cbn [filter]. destruct (p r); [|exact IH].
  change (order_by (r :: filter p l)) with (insert_sorted r (order_by (filter p l))).
  now rewrite IH.
Qed.

End OrderProps.

(** ** Cleaning does not change the export *)

Module CleanExportProps.
Import PyStr Schema CookieExtractor RowOrder OrderProps DatabaseProcessor DatabaseProps.

Lemma filter_flat_map {A B : Type} (p : B -> bool) (f : A -> list B) (l : list A) :
  filter p (flat_map f l) = flat_map (fun x => filter p (f x)) l.
Proof.
  induction l as [|x l IH]; [reflexivity|]. cbn [flat_map]. now rewrite filter_app, IH.
Qed.

Lemma flat_map_ext_in' {A B : Type} (f g : A -> list B) (l : list A) :
  (forall x, In x l -> f x = g x) -> flat_map f l = flat_map g l.
Proof.
  induction l as [|x l IH]; intros H; [reflexivity|]. cbn [flat_map].
  rewrite (H x (or_introl eq_refl)), IH; [reflexivity|].
  intros y Hy. apply H. now right.
Qed.

Lemma filter_filter_implied {A : Type} (p q : A -> bool) (l : list A) :
  (forall x, In x l -> p x = true -> q x = true) -> filter p (filter q l) = filter p l.
Proof.
  induction l as [|x l IH]; intros H; [reflexivity|]. cbn [filter].
  destruct (q x) eqn:Eq.
  - cbn [filter]. rewrite IH; [reflexivity|]. intros y Hy. apply H. now right.
  - destruct (p x) eqn:Ep.
    + rewrite (H x (or_introl eq_refl) Ep) in Eq. discriminate.
    + apply IH. intros y Hy. apply H. now right.
Qed.

(** Rows without a cookie name leave the loop state as it is. *)
Lemma run_loop_named (include_unmatched : bool) (rows : list Row) :
  run_loop include_unmatched rows = run_loop include_unmatched (filter named rows).
Proof.
  unfold run_loop. generalize loop_init.
  induction rows as [|row rows IH]; intros st; [reflexivity|].
  cbn [fold_left filter]. unfold named at 1. destruct (truthy (cookie_name row)) eqn:E.
  - cbn [fold_left]. apply IH.
  - rewrite <- IH. f_equal. unfold process_row. now rewrite E.
Qed.

Lemma join_consent_named (ds : list ConsentRow) (cr : CrawlRecord) (c : option CookieRow) :
  filter named (join_consent ds cr c)
  = if truthy (option_map c_name c) then join_consent ds cr c else [].
Proof.
  assert (H : forall rows, Forall (fun row => named row = truthy (option_map c_name c)) rows ->
                           filter named rows
                           = if truthy (option_map c_name c) then rows else []).
  { intros rows Hall. induction Hall as [|x l Hx Hl IH]; [now destruct (truthy _)|].
    cbn [filter]. rewrite Hx, IH. now destruct (truthy _). }
  apply H. unfold join_consent.
  destruct (filter (consent_matches cr c) ds) as [|d ms].
  - repeat constructor.
  - apply Forall_forall. intros row Hin. apply in_map_iff in Hin as [d' [<- _]]. reflexivity.
Qed.

Lemma truthy_name (c : CookieRow) :
  truthy (option_map c_name (Some c)) = negb (String.eqb (c_name c) "").
Proof. simpl. now destruct (c_name c). Qed.

(** The rows with a cookie that one crawl record contributes. *)
Lemma joined_named_per_record (cs : list CookieRow) (ds : list ConsentRow) (cr : CrawlRecord) :
  filter named (flat_map (join_consent ds cr) (join_cookies cs cr))
  = flat_map (fun c => join_consent ds cr (Some c))
      (filter (fun c => negb (String.eqb (c_name c) ""))
         (filter (fun c => sql_eq_id (cr_id cr) (c_crawl_id c)) cs)).
Proof.
  rewrite filter_flat_map. unfold join_cookies.
  destruct (filter (fun c => sql_eq_id (cr_id cr) (c_crawl_id c)) cs) as [|c0 ms].
  - cbn [flat_map filter]. now rewrite join_consent_named.
  - generalize (c0 :: ms). intros l. induction l as [|c l IH]; [reflexivity|].
    cbn [map flat_map filter]. rewrite IH, join_consent_named, truthy_name.
    destruct (negb (String.eqb (c_name c) "")); reflexivity.
Qed.

Lemma filter_filter_andb {A : Type} (p q : A -> bool) (l : list A) :
  filter p (filter q l) = filter (fun x => q x && p x) l.
Proof.
  induction l as [|x l IH]; [reflexivity|]. cbn [filter].
  destruct (q x); cbn [filter andb]; [destruct (p x)|]; now rewrite IH.
Qed.

Lemma own_row_not_orphaned (cr : CrawlRecord) (fk : option Z) (ids : list Z) :
  In (cr_id cr) ids -> sql_eq_id (cr_id cr) fk = true -> sql_not_in fk ids = false.
Proof.
  intros Hin He. unfold sql_eq_id in He. destruct fk as [k|]; [|discriminate].
  apply Z.eqb_eq in He. subst k. now apply sql_not_in_present.
Qed.

Lemma own_cookies_clean (db : Store) (cr : CrawlRecord) :
  In (cr_id cr) (map cr_id (crawl_results db)) ->
  filter (fun c => negb (String.eqb (c_name c) ""))
    (filter (fun c => sql_eq_id (cr_id cr) (c_crawl_id c))
       (filter (fun c => negb (sql_not_in (c_crawl_id c) (map cr_id (crawl_results db))))
          (filter (fun c => negb (String.eqb (c_name c) "")) (cookies db))))
  = filter (fun c => negb (String.eqb (c_name c) ""))
      (filter (fun c => sql_eq_id (cr_id cr) (c_crawl_id c)) (cookies db)).
Proof.
  intros Hid. rewrite !filter_filter_andb. apply filter_ext. intros c.
  destruct (sql_eq_id (cr_id cr) (c_crawl_id c)) eqn:He.
  - rewrite (own_row_not_orphaned cr _ _ Hid He).
    now destruct (negb (String.eqb (c_name c) "")).
  - now rewrite !andb_false_r.
Qed.

Lemma own_consent_clean (db : Store) (cr : CrawlRecord) (c : CookieRow) :
  In (cr_id cr) (map cr_id (crawl_results db)) ->
  String.eqb (c_name c) "" = false ->
  join_consent
    (filter (fun d => negb (sql_not_in (cd_crawl_id d) (map cr_id (crawl_results db))))
       (filter (fun d => negb (String.eqb (cd_cookie_name d) "")) (consent_data db)))
    cr (Some c)
  = join_consent (consent_data db) cr (Some c).
Proof.
  intros Hid Hname. unfold join_consent.
  rewrite !filter_filter_andb.
  rewrite (filter_ext _ (consent_matches cr (Some c))); [reflexivity|].
  intros d. unfold consent_matches.
  destruct (sql_eq_id (cr_id cr) (cd_crawl_id d)) eqn:He;
    [|cbn [andb]; now rewrite !andb_false_r].
  rewrite (own_row_not_orphaned cr _ _ Hid He).
  destruct (String.eqb (c_name c) (cd_cookie_name d)) eqn:En;
    [|cbn [andb]; now rewrite !andb_false_r].
  apply String.eqb_eq in En. rewrite <- En, Hname. reflexivity.
Qed.

Lemma joined_named_clean (db : Store) :
  filter named (joined (fst (clean_database db))) = filter named (joined db).
Proof.
  unfold joined. destruct (clean_database_rows db) as [Hc [Hd [Hr _]]].
  cbn zeta in Hc, Hd, Hr. rewrite Hr, Hc, Hd. rewrite !filter_flat_map.
  apply flat_map_ext_in'. intros cr Hcr. apply filter_In in Hcr as [Hcr _].
  assert (Hid : In (cr_id cr) (map cr_id (crawl_results db))) by now apply in_map.
  rewrite !joined_named_per_record, (own_cookies_clean db cr Hid).
  apply flat_map_ext_in'. intros c Hin. apply filter_In in Hin as [_ Hn].
  apply negb_true_iff in Hn. now apply own_consent_clean.
Qed.

End CleanExportProps.

(** ** The order of the browser calls *)

Module TraceProps.
Import PyStr Schema ConsentCrawler Spec ConsentSpec TraceSpec ConsentProps.

Lemma bind_ok {A B : Type} (m : M A) (k : A -> M B) (a : A) :
  snd m = Ok a -> bind m k = ((fst m ++ fst (k a))%list, snd (k a)).
Proof.
  destruct m as [t r]. cbn [snd fst]. intros ->. cbn [bind]. now destruct (k a).
Qed.

Lemma bind_raise {A B : Type} (m : M A) (k : A -> M B) (e : exn) :
  snd m = Raise e -> bind m k = (fst m, Raise e).
Proof. destruct m as [t r]. cbn [snd fst]. now intros ->. Qed.

Lemma detect_cmp_type_trace (b : Browser) : fst (detect_cmp_type b) = [EvPageSource].
Proof.
  unfold detect_cmp_type, try_except, bind, call, ret.
  now destruct (page_source b).
Qed.

Lemma collect_cookies_trace (b : Browser) (clicked : bool) :
  fst (collect_cookies b clicked) = [EvGetCookies].
Proof.
  unfold collect_cookies, try_except, call, ret. now destruct (get_cookies b clicked).
Qed.

(** The scraper's lookup is decided by the detected CMP. *)
Lemma scraper_lookup_trace (b : Browser) (cmp : string) :
  fst (if String.eqb cmp "cookiebot" then extract_consent_data_cookiebot b
       else if String.eqb cmp "onetrust" then extract_consent_data_onetrust b
       else ret [])
  = scraper_lookup cmp.
Proof.
  unfold scraper_lookup. destruct (String.eqb cmp "cookiebot").
  - unfold extract_consent_data_cookiebot, try_except, bind, call, ret.
    now destruct (cookiebot_elements b).
  - destruct (String.eqb cmp "onetrust"); [|reflexivity].
    unfold extract_consent_data_onetrust, try_except, bind, call, ret.
    now destruct (onetrust_elements b).
Qed.

(** X11.  A successful crawl makes its calls on the driver in one fixed order:
    the driver is created, [driver.get] is called with the schemed domain, the
    readiness wait runs (polling [driver.execute_script] until the page is
    complete), [driver.page_source] is read, [driver.find_elements]
    is called once with the selector of the detected CMP when that is
    cookiebot or onetrust and not at all otherwise, [driver.get_cookies] is
    called, the accept-control loop runs, [driver.get_cookies] is called
    again, and [driver.quit] is the last call.  (The reads on the elements
    that a lookup returned are not calls on the driver and are not part of
    the trace.) *)
Theorem successful_crawl_call_order (b : Browser) (domain : string) :
  success (snd (crawl_domain b domain)) = true ->
  fst (crawl_domain b domain)
  = ([EvCreateDriver; EvGet (with_scheme domain); EvWaitReady; EvPageSource]
     ++ scraper_lookup (cmp_type (snd (crawl_domain b domain)))
     ++ [EvGetCookies]
     ++ fst (interact_consent b accept_selectors) ++ [EvGetCookies; EvQuit])%list.
Proof.
  unfold crawl_domain. destruct (create_driver b) as [u0|e0];
    [|destruct e0; discriminate].
  unfold crawl_with_driver.
  destruct (driver_get b (with_scheme domain)) as [u1|e1] eqn:Hget.
  2:{ rewrite (bind_raise _ _ e1) by reflexivity. destruct e1; discriminate. }
  rewrite (bind_ok _ _ u1) by reflexivity.
  destruct (wait_ready b) as [u2|e2] eqn:Hwait.
  2:{ rewrite (bind_raise _ _ e2) by reflexivity. destruct e2; discriminate. }
  rewrite (bind_ok _ _ u2) by reflexivity.
  destruct (total_detect_cmp_type b) as [cmp Hcmp].
  rewrite (bind_ok _ _ cmp Hcmp), detect_cmp_type_trace.
  assert (Hcd : total (if String.eqb cmp "cookiebot" then extract_consent_data_cookiebot b
                       else if String.eqb cmp "onetrust" then extract_consent_data_onetrust b
                       else ret [])).
  { destruct (String.eqb cmp "cookiebot"); [apply total_extract_consent_data_cookiebot|].
    destruct (String.eqb cmp "onetrust");
      [apply total_extract_consent_data_onetrust | apply total_ret]. }
  destruct Hcd as [cd Hcd]. rewrite (bind_ok _ _ cd Hcd), scraper_lookup_trace.
  destruct (total_collect_cookies b false) as [c0 Hc0].
  rewrite (bind_ok _ _ c0 Hc0), collect_cookies_trace.
  destruct (total_interact_consent b accept_selectors) as [clicked Hclicked].
  rewrite (bind_ok _ _ clicked Hclicked).
  destruct (total_collect_cookies b clicked) as [fc Hfc].
  rewrite (bind_ok _ _ fc Hfc), collect_cookies_trace.
  intros _. cbn [fst snd call ret app cmp_type].
  repeat (rewrite <- app_assoc; cbn [app]). reflexivity.
Qed.

Lemma successful_crawl_call_order_witness :
  fst (crawl_domain Examples.declaring_site "example.com")
  = [ EvCreateDriver; EvGet "https://example.com"; EvWaitReady; EvPageSource;
      EvFindElements "[data-cookiefirst-category]"; EvGetCookies;
      EvFindElement "[id*='accept']"; EvFindElement "[class*='accept']";
      EvFindElement "[id*='agree']"; EvFindElement "[class*='agree']";
      EvFindElement "[aria-label*='Accept']"; EvFindElement "[aria-label*='Agree']";
      EvGetCookies; EvQuit ].
Proof.
  exact (successful_crawl_call_order Examples.declaring_site "example.com" eq_refl).
Defined.

End TraceProps.

(** ** What the pool files where *)

Module BucketProps.
Import PyStr PresenceCrawler PresencePool PoolSpec ProbeSpec ProbeProps PoolProps.

Section Buckets.
Variable probe : string -> PoolOutcome.

Lemma process_chunk_buckets (chunk : list string) :
  forall results,
    timeout (process_chunk probe results chunk)
    = (timeout results ++ filter (fun d => is_expired (probe d)) chunk)%list
    /\ failed (process_chunk probe results chunk)
       = (failed results
          ++ flat_map (fun d => match probe d with
                                | Done u q => if falls_through q then [u] else []
                                | Expired => []
                                end) chunk)%list.
Proof.
  unfold process_chunk. induction chunk as [|d chunk IH]; intros results.
  - cbn. now rewrite !app_nil_r.
  - cbn [fold_left filter flat_map].
    destruct (IH (categorize results d (probe d))) as [Ht Hf]. rewrite Ht, Hf.
    destruct (probe d) as [u []|]; cbn [categorize timeout failed is_expired falls_through app];
      rewrite <- ?app_assoc, ?app_nil_r; split; reflexivity.
Qed.

End Buckets.

Lemma probe_connect_fail (scheme : string -> string) (get : string -> GetOutcome)
  (input_domain : string) :
  let result := run_reachability_check scheme get true input_domain in
  (if falls_through (snd result) then [fst result] else [])
  = if is_connect_fail (snd result) then [input_domain] else [].
Proof.
  cbn zeta.
  destruct (run_reachability_check_verdict scheme get true input_domain)
    as [pre [u [_ [_ [_ Hv]]]]].
  rewrite Hv. unfold verdict, classify_content.
  destruct (get u) as [| | |r]; try reflexivity.
  destruct (ok r); [|destruct ((status_code r =? 403)%Z || (status_code r =? 406)%Z)%bool;
                     reflexivity].
  destruct (check_cookiebot_presence r); [reflexivity|].
  destruct (check_onetrust_presence r); [reflexivity|].
  destruct (check_termly_presence r); reflexivity.
Qed.

Lemma pool_probe_failed (scheme : string -> string) (get : string -> GetOutcome)
  (expires : string -> bool) (ds : list string) :
  flat_map (fun d => match pool_probe scheme get true expires d with
                     | Done u q => if falls_through q then [u] else []
                     | Expired => []
                     end) ds
  = filter (fun d => negb (expires d)
                     && is_connect_fail (snd (run_reachability_check scheme get true d))) ds.
Proof.
  induction ds as [|d ds IH]; [reflexivity|].
  cbn [flat_map filter]. rewrite IH. unfold pool_probe at 1.
  destruct (expires d); [reflexivity|]. cbn [negb andb].
  pose proof (probe_connect_fail scheme get d) as Hp. cbn zeta in Hp.
  destruct (run_reachability_check scheme get true d) as [u q]. cbn [fst snd] in *.
  rewrite Hp. now destruct (is_connect_fail q).
Qed.

(** X4.  With CMP checking on, the bucket "timeout" holds exactly the submitted
    domains whose task timed out or crashed, and the bucket "failed" exactly
    the submitted domains whose probe ended in CONNECT_FAIL, both as they were
    submitted and in submission order. *)
Theorem failed_and_timeout_buckets
  (scheme : string -> string) (get : string -> GetOutcome) (expires : string -> bool)
  (domains : list string) (batches : Z) (results : Results) :
  crawl_domains (pool_probe scheme get true expires) domains batches = Some results ->
  timeout results = filter expires domains
  /\ failed results
     = filter (fun d => negb (expires d)
                        && is_connect_fail (snd (run_reachability_check scheme get true d)))
         domains.
Proof.
  rewrite crawl_domains_one_pass. destruct (batches =? 0)%Z; [discriminate|].
  intros [= <-].
  destruct (process_chunk_buckets (pool_probe scheme get true expires) domains empty_results)
    as [Ht Hf].
  rewrite Ht, Hf. cbn [empty_results timeout failed app]. split.
  - apply filter_ext. intros d. unfold pool_probe. destruct (expires d); [reflexivity|].
    now destruct (run_reachability_check scheme get true d).
  - apply pool_probe_failed.
Qed.

Lemma failed_and_timeout_buckets_witness :
  timeout (process_chunk
             (pool_probe Examples.simple_scheme Examples.broken_net true
                (fun d => String.eqb d "slow.example"))
             empty_results ["example.com"; "slow.example"])
  = ["slow.example"].
Proof.
  exact (proj1 (failed_and_timeout_buckets Examples.simple_scheme Examples.broken_net
                  (fun d => String.eqb d "slow.example")
                  ["example.com"; "slow.example"] 1
                  (process_chunk
                     (pool_probe Examples.simple_scheme Examples.broken_net true
                        (fun d => String.eqb d "slow.example"))
                     empty_results ["example.com"; "slow.example"])
                  eq_refl)).
Defined.

End BucketProps.

(** ** Domain de-duplication *)

Module DomainFilterProps.
Import PyStr DomainFilter.

Section Filter.
Variable normalize : string -> option string.

Lemma existsb_eqb_in (x : string) (l : list string) :
  existsb (String.eqb x) l = true <-> In x l.
Proof.
  rewrite existsb_exists. split.
  - intros [y [Hy He]]. apply String.eqb_eq in He. now subst.
  - intros H. exists x. split; [exact H | apply String.eqb_refl].
Qed.

Lemma unique_extract_invariant (st : State) (line : string) :
  NoDup (urls st) /\ (forall x, In x (urls st) <-> In x (domains st)) ->
  NoDup (urls (unique_extract normalize st line))
  /\ (forall x, In x (urls (unique_extract normalize st line))
                <-> In x (domains (unique_extract normalize st line))).
Proof.
  intros [Hnd Hsame]. unfold unique_extract.
  destruct (negb (truthy (normalize line))); [now split|].
  destruct (existsb (String.eqb (or_default (normalize line) "")) (domains st)) eqn:E;
    [now split|].
  cbn [urls domains]. split.
  - apply NoDup_rev in Hnd. rewrite <- (rev_involutive (_ ++ _)). apply NoDup_rev.
    rewrite rev_app_distr. cbn [rev app]. constructor; [|exact Hnd].
    rewrite <- in_rev, Hsame, <- existsb_eqb_in, E. discriminate.
  - intros x. rewrite in_app_iff, Hsame. simpl. tauto.
Qed.

Lemma unique_extract_members (st : State) (line : string) (x : string) :
  In x (urls (unique_extract normalize st line))
  <-> In x (urls st)
      \/ (normalize line = Some x /\ x <> EmptyString /\ ~ In x (domains st)).
Proof.
  unfold unique_extract. destruct (normalize line) as [[|c r]|]; cbn [truthy negb or_default].
  - split; [now left | intros [H|[H [Hx _]]]; [exact H | injection H as <-; congruence]].
  - destruct (existsb (String.eqb (String c r)) (domains st)) eqn:E.
    + split; [now left|]. intros [H|[H [_ Hn]]]; [exact H|].
      injection H as <-. apply existsb_eqb_in in E. contradiction.
    + cbn [urls]. rewrite in_app_iff. simpl. split.
      * intros [H|[<-|[]]]; [now left|]. right. repeat split; try discriminate.
        rewrite <- existsb_eqb_in, E. discriminate.
      * intros [H|[H _]]; [now left|]. injection H as <-. right. now left.
  - split; [now left | intros [H|[H _]]; [exact H | discriminate]].
Qed.

Lemma extract_all_invariant (lines : list string) :
  forall st,
    NoDup (urls st) /\ (forall x, In x (urls st) <-> In x (domains st)) ->
    let st' := fold_left (unique_extract normalize) lines st in
    NoDup (urls st')
    /\ (forall x, In x (urls st') <-> In x (domains st'))
    /\ (forall x, In x (urls st')
                  <-> In x (urls st)
                      \/ (x <> EmptyString
                          /\ exists line, In line lines /\ normalize line = Some x)).
Proof.
  induction lines as [|line lines IH]; intros st Hinv; cbn zeta.
  - cbn [fold_left]. destruct Hinv as [H1 H2].
    split; [exact H1 | split; [exact H2|]].
    intros x. split; [now left | intros [H|[_ [l [[] _]]]]; exact H].
  - cbn [fold_left].
    pose proof (unique_extract_invariant st line Hinv) as Hinv'.
    destruct (IH _ Hinv') as [Hnd [Hsame Hmem]]. cbn zeta in Hnd, Hsame, Hmem.
    split; [exact Hnd | split; [exact Hsame|]].
    intros x. rewrite Hmem, unique_extract_members. split.
    + intros [[H|[Hn [Hx _]]]|[Hx [l [Hl Hn]]]].
      * now left.
      * right. split; [exact Hx|]. exists line. split; [now left | exact Hn].
      * right. split; [exact Hx|]. exists l. split; [now right | exact Hn].
    + intros [H|[Hx [l [[<-|Hl] Hn]]]].
      * left. now left.
      * destruct Hinv as [_ Hs].
        destruct (in_dec string_dec x (domains st)) as [Hd|Hd].
        -- left. left. now apply Hs.
        -- left. right. repeat split; assumption.
      * right. split; [exact Hx|]. now exists l.
Qed.

(** X25.  The filtered list has no duplicates, and it holds exactly the non-empty
    normalised domains of the input lines; the set [domains] and the list
    [urls] always hold the same names. *)
Theorem extract_all_unique (lines : list string) :
  let st := extract_all normalize lines in
  NoDup (urls st)
  /\ (forall x, In x (urls st) <-> In x (domains st))
  /\ (forall x, In x (urls st)
                <-> x <> EmptyString
                    /\ exists line, In line lines /\ normalize line = Some x).
Proof.
  cbn zeta. unfold extract_all.
  destruct (extract_all_invariant lines initial) as [Hnd [Hsame Hmem]].
  { split; [constructor | tauto]. }
  cbn zeta in Hnd, Hsame, Hmem. split; [exact Hnd | split; [exact Hsame|]].
  intros x. rewrite Hmem. cbn [initial urls]. simpl. tauto.
Qed.

End Filter.

End DomainFilterProps.

(** ** The export, whatever the order of the fetched rows *)

Module FetchOrderProps.
Import PyStr Schema CookieExtractor Spec Examples RowOrder MatcherProps ExportProps
  DatabaseProcessor CleanExportProps.
Local Open Scope Z_scope.

Lemma filter_permutation {A : Type} (p : A -> bool) (l l' : list A) :
  Permutation l l' -> Permutation (filter p l) (filter p l').
Proof.
  induction 1 as [|x l l' _ IH|x y l|l l' l'' _ IH1 _ IH2]; cbn [filter].
  - constructor.
  - destruct (p x); [now constructor | exact IH].
  - destruct (p x), (p y); try apply Permutation_refl. apply perm_swap.
  - exact (Permutation_trans IH1 IH2).
Qed.

Lemma dict_keys_mem (k : string) (d : Dict) :
  In k (dict_keys d) <-> dict_mem k d = true.
Proof.
  unfold dict_mem. destruct (dict_get k d) as [e|] eqn:E.
  - split; [reflexivity | intros _; exact (dict_get_in_keys _ _ _ E)].
  - split; [intros H; now apply dict_get_none_not_in in E | discriminate].
Qed.

Lemma find_some_in_kept (include_unmatched : bool) (k : string) (rows : list Row) :
  find (selects include_unmatched k) rows <> None
  <-> In k (map cookie_id_of (filter (kept include_unmatched) rows)).
Proof.
  induction rows as [|row rows IH]; cbn [find filter map].
  - split; [congruence | intros []].
  - unfold selects at 1. destruct (kept include_unmatched row); cbn [andb map].
    + destruct (String.eqb (cookie_id_of row) k) eqn:E.
      * apply String.eqb_eq in E. split; [intros _; now left | discriminate].
      * apply String.eqb_neq in E. rewrite IH.
        split; [now right | intros [H|H]; [congruence | exact H]].
    + exact IH.
Qed.

(** The keys of the loop's dictionary are the keys of the kept rows. *)
Lemma run_loop_keys (include_unmatched : bool) (k : string) (rows : list Row) :
  In k (dict_keys (extracted_data (run_loop include_unmatched rows)))
  <-> In k (map cookie_id_of (filter (kept include_unmatched) rows)).
Proof.
  rewrite dict_keys_mem, <- find_some_in_kept. unfold dict_mem.
  rewrite run_loop_entry.
  destruct (find (selects include_unmatched k) rows); cbn [option_map];
    split; congruence.
Qed.

(** What the export is, up to the order in which the rows are fetched. *)
Lemma export_up_to_order
  (all rows : list Row) (include_unmatched : bool) (now : string) :
  Permutation rows all ->
  let e := extract_rows rows include_unmatched now in
  stat_matched_cookies (statistics e)
  = Z.of_nat (length (filter (fun row => truthy (cookie_name row)
                                         && truthy (purpose_category row)) all))
  /\ stat_unmatched_cookies (statistics e)
     = Z.of_nat (length (filter (fun row => truthy (cookie_name row)
                                            && negb (truthy (purpose_category row))) all))
  /\ total_unique_cookies (statistics e)
     = Z.of_nat (length (nodup string_dec
                           (map cookie_id_of (filter (kept include_unmatched) all))))
  /\ NoDup (dict_keys (export_cookies e))
  /\ (forall k, In k (dict_keys (export_cookies e))
                <-> In k (map cookie_id_of (filter (kept include_unmatched) all)))
  /\ (forall k entry,
        dict_get k (export_cookies e) = Some entry ->
        Permutation (variable_data entry)
          (map variable_data_of (filter (selects include_unmatched k) all))).
Proof.
  intros Hperm e.
  assert (Hkeys : forall k, In k (dict_keys (export_cookies e))
                            <-> In k (map cookie_id_of (filter (kept include_unmatched) all))).
  { intros k. subst e. cbn [extract_rows export_cookies]. rewrite run_loop_keys.
    pose proof (Permutation_map cookie_id_of
                  (filter_permutation (kept include_unmatched) _ _ Hperm)) as Hp.
    split; intros H; [exact (Permutation_in _ Hp H)
                     | exact (Permutation_in _ (Permutation_sym Hp) H)]. }
  assert (Hnodup : NoDup (dict_keys (export_cookies e))) by apply run_loop_keys_nodup.
  destruct (fold_process_row_counters include_unmatched rows loop_init) as [Hm Hu].
  cbn zeta in Hm, Hu.
  split; [|split; [|split; [|split; [exact Hnodup | split; [exact Hkeys|]]]]].
  - subst e. cbn [extract_rows statistics stat_matched_cookies]. unfold run_loop.
    rewrite Hm. cbn [loop_init matched_cookies]. rewrite Z.add_0_l.
    f_equal. apply Permutation_length. now apply filter_permutation.
  - subst e. cbn [extract_rows statistics stat_unmatched_cookies]. unfold run_loop.
    rewrite Hu. cbn [loop_init unmatched_cookies]. rewrite Z.add_0_l.
    f_equal. apply Permutation_length. now apply filter_permutation.
  - subst e. cbn [extract_rows statistics total_unique_cookies]. f_equal.
    rewrite <- (length_map fst).
    fold (dict_keys (extracted_data (run_loop include_unmatched rows))).
    apply Permutation_length. apply NoDup_Permutation.
    + exact Hnodup.
    + apply NoDup_nodup.
    + intros k. rewrite nodup_In. apply Hkeys.
  - intros k entry He. subst e. cbn [extract_rows export_cookies] in He.
    rewrite run_loop_entry in He.
    destruct (find (selects include_unmatched k) rows); [|discriminate].
    cbn [option_map] in He. injection He as <-. cbn [entry_with variable_data].
    apply Permutation_map. now apply filter_permutation.
Qed.

Lemma kept_named (include_unmatched : bool) (row : Row) :
  kept include_unmatched row = true -> named row = true.
Proof. unfold kept, named. now intros H%andb_true_iff. Qed.

Lemma filter_by_named {A : Type} (p named : A -> bool) (l l' : list A) :
  (forall x, p x = true -> named x = true) ->
  filter named l' = filter named l -> filter p l' = filter p l.
Proof.
  intros Hp Hn.
  rewrite <- (filter_filter_implied p named l') by (intros x _; apply Hp).
  rewrite <- (filter_filter_implied p named l) by (intros x _; apply Hp).
  now rewrite Hn.
Qed.

(** Two fetches whose rows with a cookie name are the same up to order give
    the same counters, the same keys and, per key, the same instances up to
    order. *)
Lemma exports_agree_up_to_order
  (all all' rows rows' : list Row) (include_unmatched : bool) (now now' : string) :
  Permutation rows all ->
  Permutation rows' all' ->
  filter named all' = filter named all ->
  let e := extract_rows rows include_unmatched now in
  let e' := extract_rows rows' include_unmatched now' in
  stat_matched_cookies (statistics e') = stat_matched_cookies (statistics e)
  /\ stat_unmatched_cookies (statistics e') = stat_unmatched_cookies (statistics e)
  /\ total_unique_cookies (statistics e') = total_unique_cookies (statistics e)
  /\ Permutation (dict_keys (export_cookies e')) (dict_keys (export_cookies e))
  /\ (forall k,
        match dict_get k (export_cookies e), dict_get k (export_cookies e') with
        | Some entry, Some entry' =>
            Permutation (variable_data entry') (variable_data entry)
        | None, None => True
        | _, _ => False
        end).
Proof.
  intros Hperm Hperm' Hnamed e e'.
  destruct (export_up_to_order _ _ include_unmatched now Hperm)
    as [Hm [Hu [Ht [Hn [Hk Hv]]]]].
  destruct (export_up_to_order _ _ include_unmatched now' Hperm')
    as [Hm' [Hu' [Ht' [Hn' [Hk' Hv']]]]].
  fold e in Hm, Hu, Ht, Hn, Hk, Hv. fold e' in Hm', Hu', Ht', Hn', Hk', Hv'.
  assert (Hkept : filter (kept include_unmatched) all' = filter (kept include_unmatched) all).
  { apply (filter_by_named _ named); [apply kept_named | exact Hnamed]. }
  rewrite Hkept in Ht', Hk'.
  assert (Hsame : forall k, In k (dict_keys (export_cookies e'))
                            <-> In k (dict_keys (export_cookies e))).
  { intros k. now rewrite Hk, Hk'. }
  split; [|split; [|split; [|split]]].
  - rewrite Hm, Hm'. do 2 f_equal. apply (filter_by_named _ named); [|exact Hnamed].
    intros row H. now apply andb_true_iff in H as [H _].
  - rewrite Hu, Hu'. do 2 f_equal. apply (filter_by_named _ named); [|exact Hnamed].
    intros row H. now apply andb_true_iff in H as [H _].
  - now rewrite Ht, Ht'.
  - now apply NoDup_Permutation.
  - intros k.
    destruct (dict_get k (export_cookies e)) as [entry|] eqn:E;
      destruct (dict_get k (export_cookies e')) as [entry'|] eqn:E'.
    + apply (Permutation_trans (Hv' _ _ E')). apply Permutation_sym.
      rewrite (filter_by_named (selects include_unmatched k) named all all').
      * exact (Hv _ _ E).
      * intros row H. apply andb_true_iff in H as [H _]. exact (kept_named _ _ H).
      * exact Hnamed.
    + apply dict_get_in_keys in E. apply Hsame in E.
      now apply dict_get_none_not_in in E'.
    + apply dict_get_in_keys in E'. apply Hsame in E'.
      now apply dict_get_none_not_in in E.
    + exact I.
Qed.

(** [fetchall] returns the rows of the join, in one of the admissible orders. *)
Lemma insert_sorted_permutation (r : Row) (l : list Row) :
  Permutation (insert_sorted r l) (r :: l).
Proof.
  induction l as [|x t IH]; cbn [insert_sorted]; [apply Permutation_refl|].
  destruct (row_leb r x); [apply Permutation_refl|].
  apply (Permutation_trans (perm_skip x IH)). apply perm_swap.
Qed.

Lemma fetchall_permutation (db : Store) : Permutation (fetchall db) (joined db).
Proof.
  change (fetchall db) with (order_by (joined db)).
  induction (joined db) as [|r l IH]; [constructor|].
  change (order_by (r :: l)) with (insert_sorted r (order_by l)).
  apply (Permutation_trans (insert_sorted_permutation r (order_by l))).
  now constructor.
Qed.

(** C2, as the code has it.  The query fixes the fetched rows up to their
    order (the [ORDER BY] columns leave ties open).  Take two runs over the
    same store, each with its own fetch order and its own clock.  The three
    counters, the set of keys and, for every key, the instances of its entry
    up to their order are the same in both, and are determined by the stored
    data and the flag: the matched and unmatched counters count the joined
    rows with a cookie name that have or lack a purpose category, the keys
    are the keys of the kept rows, no key occurs twice, and the entry of a key
    holds one instance per kept row with that key.  [extraction_date] is the
    wall-clock time of each run. *)
Theorem export_determined_up_to_order
  (db : Store) (include_unmatched : bool) (now1 now2 : string) (rows1 rows2 : list Row) :
  Permutation rows1 (joined db) ->
  Permutation rows2 (joined db) ->
  let e1 := extract_rows rows1 include_unmatched now1 in
  let e2 := extract_rows rows2 include_unmatched now2 in
  (stat_matched_cookies (statistics e1)
   = Z.of_nat (length (filter (fun row => truthy (cookie_name row)
                                          && truthy (purpose_category row)) (joined db)))
   /\ stat_unmatched_cookies (statistics e1)
      = Z.of_nat (length (filter (fun row => truthy (cookie_name row)
                                             && negb (truthy (purpose_category row)))
                            (joined db)))
   /\ total_unique_cookies (statistics e1)
      = Z.of_nat (length (nodup string_dec
                            (map cookie_id_of (filter (kept include_unmatched) (joined db)))))
   /\ NoDup (dict_keys (export_cookies e1))
   /\ (forall k, In k (dict_keys (export_cookies e1))
                 <-> In k (map cookie_id_of (filter (kept include_unmatched) (joined db))))
   /\ (forall k entry,
         dict_get k (export_cookies e1) = Some entry ->
         Permutation (variable_data entry)
           (map variable_data_of (filter (selects include_unmatched k) (joined db)))))
  /\ (stat_matched_cookies (statistics e2) = stat_matched_cookies (statistics e1)
      /\ stat_unmatched_cookies (statistics e2) = stat_unmatched_cookies (statistics e1)
      /\ total_unique_cookies (statistics e2) = total_unique_cookies (statistics e1)
      /\ Permutation (dict_keys (export_cookies e2)) (dict_keys (export_cookies e1))
      /\ (forall k,
            match dict_get k (export_cookies e1), dict_get k (export_cookies e2) with
            | Some entry1, Some entry2 =>
                Permutation (variable_data entry2) (variable_data entry1)
            | None, None => True
            | _, _ => False
            end))
  /\ extraction_date (statistics e1) = now1
  /\ extraction_date (statistics e2) = now2.
Proof.
  intros Hperm1 Hperm2 e1 e2.
  split; [exact (export_up_to_order (joined db) rows1 include_unmatched now1 Hperm1)|].
  split; [|split; reflexivity].
  exact (exports_agree_up_to_order (joined db) (joined db) rows1 rows2 include_unmatched
           now1 now2 Hperm1 Hperm2 eq_refl).
Qed.

Lemma export_determined_up_to_order_witness :
  stat_matched_cookies
    (statistics (extract_rows [ga_undeclared; ga_declared] true "2024-05-02T09:00:00"))
  = 1
  /\ stat_unmatched_cookies
       (statistics (extract_rows [ga_undeclared; ga_declared] true "2024-05-02T09:00:00"))
     = 1
  /\ Permutation
       (dict_keys
          (export_cookies
             (extract_rows [ga_declared; ga_undeclared] true "2024-05-02T09:00:01")))
       (dict_keys
          (export_cookies
             (extract_rows [ga_undeclared; ga_declared] true "2024-05-02T09:00:00"))).
Proof.
  assert (Hperm1 : Permutation [ga_undeclared; ga_declared] (joined declared_once_db)).
  { vm_compute. apply perm_swap. }
  assert (Hperm2 : Permutation [ga_declared; ga_undeclared] (joined declared_once_db)).
  { vm_compute. apply Permutation_refl. }
  destruct (export_determined_up_to_order declared_once_db true
              "2024-05-02T09:00:00" "2024-05-02T09:00:01"
              [ga_undeclared; ga_declared] [ga_declared; ga_undeclared] Hperm1 Hperm2)
    as [[Hm [Hu _]] [[_ [_ [_ [Hk _]]]] _]].
  split; [exact Hm | split; [exact Hu | exact Hk]].
Defined.

End FetchOrderProps.

(** ** Cleaning and the export *)

Module CleanOrderProps.
Import PyStr Schema CookieExtractor Spec Examples RowOrder MatcherProps ExportProps
  DatabaseProcessor CleanExportProps FetchOrderProps.
Local Open Scope Z_scope.

(** X21.  Cleaning the database does not change what the matcher extracts, up
    to the order in which the rows are fetched: in whatever order the query
    returns its rows before and after cleaning, the three counters are the
    same, the same keys are exported, and the entry of each key holds the same
    instances up to their order. *)
Theorem clean_database_preserves_export
  (db : Store) (include_unmatched : bool) (now : string) (rows rows' : list Row) :
  Permutation rows (joined db) ->
  Permutation rows' (joined (fst (clean_database db))) ->
  let e := extract_rows rows include_unmatched now in
  let e' := extract_rows rows' include_unmatched now in
  stat_matched_cookies (statistics e') = stat_matched_cookies (statistics e)
  /\ stat_unmatched_cookies (statistics e') = stat_unmatched_cookies (statistics e)
  /\ total_unique_cookies (statistics e') = total_unique_cookies (statistics e)
  /\ Permutation (dict_keys (export_cookies e')) (dict_keys (export_cookies e))
  /\ (forall k,
        match dict_get k (export_cookies e), dict_get k (export_cookies e') with
        | Some entry, Some entry' =>
            Permutation (variable_data entry') (variable_data entry)
        | None, None => True
        | _, _ => False
        end).
Proof.
  intros Hperm Hperm'.
  exact (exports_agree_up_to_order _ _ rows rows' include_unmatched now now
           Hperm Hperm' (joined_named_clean db)).
Qed.

Lemma clean_database_preserves_export_witness :
  length (joined MoreExamples.untidy_db) = 3%nat
  /\ length (joined (fst (clean_database MoreExamples.untidy_db))) = 2%nat
  /\ stat_matched_cookies
       (statistics
          (extract_rows (joined (fst (clean_database MoreExamples.untidy_db)))
             true "2024-05-02T09:00:00"))
     = stat_matched_cookies
         (statistics
            (extract_rows (rev (joined MoreExamples.untidy_db)) true "2024-05-02T09:00:00")).
Proof.
  split; [reflexivity | split; [reflexivity|]].
  refine (proj1 (clean_database_preserves_export MoreExamples.untidy_db true
                   "2024-05-02T09:00:00"
                   (rev (joined MoreExamples.untidy_db))
                   (joined (fst (clean_database MoreExamples.untidy_db))) _ _)).
  - apply Permutation_sym, Permutation_rev.
  - apply Permutation_refl.
Defined.

End CleanOrderProps.

(** ** The call of the probe *)

Module CallProps.
Import PyStr Re PresenceCrawler Spec ProbeSpec Fingerprints AsciiText Examples MoreExamples.

Section Call.
Variable urlparse_scheme : string -> option string.
Variable get : string -> GetOutcome.
Variable check_cmp : bool.
Variable input_domain : string.

(** A rejected argument: no request, no result. *)
Lemma call_rejected :
  urlparse_scheme input_domain = None ->
  ProbeCall.run_reachability_check_trace urlparse_scheme get check_cmp input_domain
  = ([], None).
Proof. unfold ProbeCall.run_reachability_check_trace. now intros ->. Qed.

(** A parsed argument: the loop runs with the scheme found. *)
Lemma call_parsed (s : string) :
  urlparse_scheme input_domain = Some s ->
  ProbeCall.attempts urlparse_scheme get check_cmp input_domain
  = attempts (fun _ => s) get check_cmp input_domain
  /\ ProbeCall.run_reachability_check urlparse_scheme get check_cmp input_domain
     = Some (run_reachability_check (fun _ => s) get check_cmp input_domain).
Proof.
  unfold ProbeCall.attempts, ProbeCall.run_reachability_check,
    ProbeCall.run_reachability_check_trace, attempts, run_reachability_check.
  intros ->.
  now destruct (run_reachability_check_trace (fun _ => s) get check_cmp input_domain).
Qed.

Lemma has_http_scheme_const (s : string) :
  has_http_scheme (fun _ => s) input_domain = true <-> s = "http" \/ s = "https".
Proof.
  unfold has_http_scheme. now rewrite orb_true_iff, !String.eqb_eq.
Qed.

End Call.

(** C4, as the code has it.  An input that [urlparse] rejects makes
    [run_reachability_check] raise before any request.  Otherwise: a domain
    with an http/https scheme is attempted once, at that URL; any other domain
    loses a leading "www." and is attempted as https://www.<host>,
    https://<host>, http://<host> in this order, up to and including the first
    attempt that ends in anything but a connection or timeout error (an HTTP
    response, an SSL/scheme-class error, or any other unexpected error); when
    every attempt ends in a connection or timeout error the result is
    CONNECT_FAIL with the original input. *)
Theorem prefix_attempts
  (urlparse_scheme : string -> option string) (get : string -> GetOutcome)
  (check_cmp : bool) (input_domain : string) :
  (urlparse_scheme input_domain = None ->
     ProbeCall.attempts urlparse_scheme get check_cmp input_domain = []
     /\ ProbeCall.run_reachability_check urlparse_scheme get check_cmp input_domain = None)
  /\ (forall s,
        urlparse_scheme input_domain = Some s ->
        (s = "http" \/ s = "https" ->
           ProbeCall.attempts urlparse_scheme get check_cmp input_domain = [input_domain])
        /\ (s <> "http" -> s <> "https" ->
              ProbeCall.attempts urlparse_scheme get check_cmp input_domain
              = take_until (stops get) (candidates input_domain))
        /\ ((forall u, In u (ProbeCall.attempts urlparse_scheme get check_cmp input_domain) ->
                       get u = RaisesConnOrTimeout) ->
            ProbeCall.run_reachability_check urlparse_scheme get check_cmp input_domain
            = Some (input_domain, CONNECT_FAIL))).
Proof.
  split.
  - intros Hnone. unfold ProbeCall.attempts, ProbeCall.run_reachability_check.
    now rewrite (call_rejected _ _ _ _ Hnone).
  - intros s Hs.
    destruct (call_parsed urlparse_scheme get check_cmp input_domain s Hs) as [Ha Hr].
    destruct (PresenceProps.attempts_after_parse (fun _ => s) get check_cmp input_domain)
      as [H1 [H2 H3]].
    rewrite Ha, Hr. split; [|split].
    + intros Hhttp. apply H1. now apply has_http_scheme_const.
    + intros Hn1 Hn2. apply H2.
      destruct (has_http_scheme (fun _ => s) input_domain) eqn:E; [|reflexivity].
      apply has_http_scheme_const in E. tauto.
    + intros Hall. now rewrite (H3 Hall).
Qed.

Lemma prefix_attempts_witness :
  ProbeCall.attempts example_urlparse http_only_net true "https://example.com"
  = ["https://example.com"]
  /\ ProbeCall.attempts example_urlparse http_only_net true "www.example.com"
     = ["https://www.example.com"; "https://example.com"; "http://example.com"]
  /\ ProbeCall.run_reachability_check example_urlparse http_only_net true
       "https://example.com"
     = Some ("https://example.com", CONNECT_FAIL)
  /\ ProbeCall.run_reachability_check example_urlparse http_only_net true "http://[::1"
     = None.
Proof.
  split; [|split; [|split]].
  - refine (proj1 (proj2 (prefix_attempts example_urlparse http_only_net true
                            "https://example.com") "https" eq_refl) _).
    now right.
  - refine (proj1 (proj2 (proj2 (prefix_attempts example_urlparse http_only_net true
                                   "www.example.com") "" eq_refl)) _ _); discriminate.
  - refine (proj2 (proj2 (proj2 (prefix_attempts example_urlparse http_only_net true
                                   "https://example.com") "https" eq_refl)) _).
    intros u [<-|[]]. reflexivity.
  - exact (proj2 (proj1 (prefix_attempts example_urlparse http_only_net true "http://[::1")
                    eq_refl)).
Defined.

(** C4, as the specification words it, fails.  The loop also ends at an
    unexpected error: here every request raises one, and a single attempt is
    made where stopping only at a response or an SSL/scheme-class error would
    try all three prefixes.  And an input with an http scheme that [urlparse]
    rejects is not attempted at all. *)
Lemma prefix_attempts_stop_at_unexpected_error :
  (example_urlparse "example.com" = Some ""
   /\ ProbeCall.attempts example_urlparse broken_net true "example.com"
      = ["https://www.example.com"]
   /\ ProbeCall.attempts example_urlparse broken_net true "example.com"
      <> take_until (stops_as_claimed broken_net) (candidates "example.com"))
  /\ (startswith "http://" "http://[::1" = true
      /\ ProbeCall.run_reachability_check_trace example_urlparse http_only_net true
           "http://[::1"
         = ([], None)).
Proof.
  split; [split; [reflexivity | split; [reflexivity | vm_compute; discriminate]]|].
  split; reflexivity.
Qed.

(** The body decides the class: in the model each check is a containment of
    literals. *)
Lemma classify_content_literals (r : Response) :
  classify_content r = literal_class (text r).
Proof.
  unfold classify_content, literal_class.
  destruct (PatternProps.presence_checks_literals r) as [-> [-> ->]]. reflexivity.
Qed.

(** C5.  When the attempt that ends the probe is answered with a 2xx
    response, the outcome is the first family of the registry Cookiebot,
    OneTrust, Termly whose fingerprints match the body, and NOCMP when none
    does, reported with the response's URL.  A body that contains one of the
    Cookiebot literals, in any mix of upper and lower case, is COOKIEBOT
    whatever else it contains; for an ASCII body the outcome is the first
    family, in that order, one of whose literals the body contains, and NOCMP
    when it contains none. *)
Theorem content_classification_precedence
  (urlparse_scheme : string -> option string) (get : string -> GetOutcome)
  (input_domain : string) (pre : list string) (u : string) (r : Response) :
  ProbeCall.attempts urlparse_scheme get true input_domain = (pre ++ [u])%list ->
  get u = Returns r ->
  (200 <= status_code r < 300)%Z ->
  ProbeCall.run_reachability_check urlparse_scheme get true input_domain
  = Some (url r, outcome_of_family (first_family probe_registry r))
  /\ map fst probe_registry = [Cookiebot; OneTrust; Termly]
  /\ outcome_of_family None = NOCMP
  /\ (any_in cookiebot_literals (lower (text r)) = true ->
      ProbeCall.run_reachability_check urlparse_scheme get true input_domain
      = Some (url r, COOKIEBOT))
  /\ (isascii (text r) = true ->
      ProbeCall.run_reachability_check urlparse_scheme get true input_domain
      = Some (url r,
              if any_in cookiebot_literals (lower (text r)) then COOKIEBOT
              else if any_in onetrust_literals (lower (text r)) then ONETRUST
              else if any_in termly_literals (lower (text r)) then TERMLY
              else NOCMP)).
Proof.
  intros Hatt Hget Hst.
  destruct (urlparse_scheme input_domain) as [s|] eqn:Hs.
  2:{ unfold ProbeCall.attempts in Hatt.
      rewrite (call_rejected _ _ _ _ Hs) in Hatt. destruct pre; discriminate. }
  destruct (call_parsed urlparse_scheme get true input_domain s Hs) as [Ha Hr].
  rewrite Ha in Hatt.
  rewrite Hr, (PresenceProps.classified_after_parse _ _ _ _ _ _ Hatt Hget Hst).
  split; [now rewrite PresenceProps.classify_content_first_family|].
  split; [reflexivity|]. split; [reflexivity|].
  rewrite classify_content_literals. unfold literal_class. split.
  - now intros ->.
  - reflexivity.
Qed.

Lemma content_classification_precedence_witness :
  ProbeCall.run_reachability_check example_urlparse http_only_net true "www.example.com"
  = Some ("http://example.com/", COOKIEBOT).
Proof.
  refine (proj1 (content_classification_precedence example_urlparse http_only_net
                   "www.example.com"
                   ["https://www.example.com"; "https://example.com"]
                   "http://example.com"
                   (page 200 "http://example.com/" both_markers) _ _ _)).
  - reflexivity.
  - reflexivity.
  - simpl. lia.
Defined.

(** X5.  A call of the probe whose argument [urlparse] rejects makes no request
    and raises.  Any other call makes between one and three requests; all but
    the last end in a connection or timeout error, and the answer to the last
    one decides the result: an exception gives CONNECT_FAIL with the original
    input, status 403 or 406 gives BOT and any other 4xx/5xx status HTTP_ERROR
    with the URL requested, and any other response is classified (or is OK
    when CMP checking is off) with the URL of the response. *)
Theorem last_attempt_decides
  (urlparse_scheme : string -> option string) (get : string -> GetOutcome)
  (check_cmp : bool) (input_domain : string) :
  match urlparse_scheme input_domain with
  | None =>
      ProbeCall.run_reachability_check_trace urlparse_scheme get check_cmp input_domain
      = ([], None)
  | Some _ =>
      exists pre u,
        ProbeCall.attempts urlparse_scheme get check_cmp input_domain = (pre ++ [u])%list
        /\ length pre <= 2
        /\ Forall (fun v => get v = RaisesConnOrTimeout) pre
        /\ ProbeCall.run_reachability_check urlparse_scheme get check_cmp input_domain
           = Some
               match get u with
               | Returns r =>
                   if ok r then (url r, if check_cmp then classify_content r else OK)
                   else if ((status_code r =? 403)%Z || (status_code r =? 406)%Z)%bool
                        then (u, BOT)
                        else (u, HTTP_ERROR)
               | _ => (input_domain, CONNECT_FAIL)
               end
  end.
Proof.
  destruct (urlparse_scheme input_domain) as [s|] eqn:Hs.
  - destruct (call_parsed urlparse_scheme get check_cmp input_domain s Hs) as [Ha Hr].
    destruct (ProbeProps.run_reachability_check_verdict (fun _ => s) get check_cmp
                input_domain) as [pre [u [H1 [H2 [H3 H4]]]]].
    exists pre, u. rewrite Ha, Hr, H4. repeat split; assumption.
  - now apply call_rejected.
Qed.

Lemma last_attempt_decides_witness :
  ProbeCall.run_reachability_check_trace example_urlparse http_only_net true "http://[::1"
  = ([], None).
Proof.
  exact (last_attempt_decides example_urlparse http_only_net true "http://[::1").
Defined.

End CallProps.

(** ** The signatures of the two classifiers *)

Module SignatureProps.
Import PyStr Re PresenceCrawler ConsentCrawler Spec Fingerprints AsciiText Examples
  MoreExamples.

(** X7.  The three presence checks accept every body that contains one of their
    literals in any mix of upper and lower case: the two consent.cookiebot
    URLs or the file name cb-main.js for Cookiebot, the seven CDN URLs for
    OneTrust, the app.termly.io URL for Termly.  On an ASCII body they accept
    nothing else: each check holds exactly when the lower-cased body contains
    one of its literals. *)
Theorem fingerprint_checks_are_substring_tests (resp : Response) :
  (any_in cookiebot_literals (lower (text resp)) = true ->
   check_cookiebot_presence resp = true)
  /\ (any_in onetrust_literals (lower (text resp)) = true ->
      check_onetrust_presence resp = true)
  /\ (any_in termly_literals (lower (text resp)) = true ->
      check_termly_presence resp = true)
  /\ (isascii (text resp) = true ->
      check_cookiebot_presence resp = any_in cookiebot_literals (lower (text resp))
      /\ check_onetrust_presence resp = any_in onetrust_literals (lower (text resp))
      /\ check_termly_presence resp = any_in termly_literals (lower (text resp))).
Proof.
  destruct (PatternProps.presence_checks_literals resp) as [Hc [Ho Ht]].
  split; [|split; [|split]].
  - intros H. now rewrite Hc.
  - intros H. now rewrite Ho.
  - intros H. now rewrite Ht.
  - intros _. now rewrite Hc, Ho, Ht.
Qed.

Lemma fingerprint_checks_are_substring_tests_witness :
  check_termly_presence (page 200 "https://example.com/" termly_upper) = true
  /\ check_cookiebot_presence (page 200 "https://example.com/" termly_upper) = false.
Proof.
  destruct (fingerprint_checks_are_substring_tests
              (page 200 "https://example.com/" termly_upper)) as [_ [_ [Ht Hascii]]].
  split; [exact (Ht eq_refl) | exact (proj1 (Hascii eq_refl))].
Defined.

Lemma cmp_of_page_source_keywords (content : string) :
  cmp_of_page_source content = keyword_class content.
Proof.
  unfold cmp_of_page_source, keyword_class, cookiebot_keywords, termly_keywords,
    onetrust_keywords, any_in.
  cbn [existsb]. now rewrite !orb_false_r.
Qed.

(** C6, as the code has it.  Both classifiers are first-match tests over the
    families Cookiebot, OneTrust, Termly in this order, and no match is the
    non-failure outcome "unknown" / NOCMP.  Their signatures differ: the
    extractor looks for the keywords cookiebot / consent.cookiebot, onetrust /
    cookielaw / optanon / cookiepro, termly / app.termly.io in the lower-cased
    page, the probe (on an ASCII page) for the CDN URLs and the script name of
    its patterns; so the two need not report the same family. *)
Theorem fingerprint_tables_compared (content : string) :
  cmp_of_page_source content = cmp_type_of_family (first_family extractor_registry content)
  /\ classify_content (page 200 "" content)
     = outcome_of_family (first_family probe_registry (page 200 "" content))
  /\ map fst extractor_registry = [Cookiebot; OneTrust; Termly]
  /\ map fst probe_registry = [Cookiebot; OneTrust; Termly]
  /\ cmp_type_of_family None = "unknown"
  /\ outcome_of_family None = NOCMP
  /\ cmp_of_page_source content
     = (if any_in cookiebot_keywords (lower content) then "cookiebot"
        else if any_in onetrust_keywords (lower content) then "onetrust"
        else if any_in termly_keywords (lower content) then "termly"
        else "unknown")
  /\ (isascii content = true ->
      classify_content (page 200 "" content)
      = (if any_in cookiebot_literals (lower content) then COOKIEBOT
         else if any_in onetrust_literals (lower content) then ONETRUST
         else if any_in termly_literals (lower content) then TERMLY
         else NOCMP)).
Proof.
  split; [apply FingerprintProps.cmp_of_page_source_first_family|].
  split; [apply PresenceProps.classify_content_first_family|].
  do 4 (split; [reflexivity|]).
  split; [apply cmp_of_page_source_keywords|].
  intros _. now rewrite CallProps.classify_content_literals.
Qed.

Lemma fingerprint_tables_compared_witness :
  classify_content (page 200 "" mentions_cookiebot) = NOCMP
  /\ cmp_of_page_source mentions_cookiebot = "cookiebot".
Proof.
  destruct (fingerprint_tables_compared mentions_cookiebot)
    as [_ [_ [_ [_ [_ [_ [Hk Hl]]]]]]].
  split; [exact (Hl eq_refl) | exact Hk].
Defined.

End SignatureProps.

(** ** The pool run *)

Module PoolRunProps.
Import PyStr PresenceCrawler PresencePool PoolRun PoolProps MoreExamples.

Section Run.
Variable task : string -> TaskOutcome.

Lemma process_chunk_run_app (results : Results) (c1 c2 : list string) :
  process_chunk task results (c1 ++ c2)
  = match process_chunk task results c1 with
    | None => None
    | Some results' => process_chunk task results' c2
    end.
Proof.
  revert results. induction c1 as [|d c1 IH]; intros results; [reflexivity|].
  cbn [app process_chunk]. destruct (task d) as [o|]; [apply IH | reflexivity].
Qed.

Lemma process_chunks_concat (cs : list (list string)) :
  forall results, process_chunks task results cs = process_chunk task results (concat cs).
Proof.
  induction cs as [|c cs IH]; intros results; [reflexivity|].
  cbn [process_chunks concat]. rewrite process_chunk_run_app.
  destruct (process_chunk task results c); [apply IH | reflexivity].
Qed.

(** The batches are one pass over the list. *)
Lemma crawl_domains_run_one_pass (domains : list string) (batches : Z) :
  crawl_domains task domains batches
  = if (batches =? 0)%Z then None else process_chunk task empty_results domains.
Proof.
  unfold crawl_domains. destruct (chunksize (length domains) batches) as [size|] eqn:E.
  - pose proof (chunksize_positive _ _ _ E) as Hsize. unfold chunksize in E.
    destruct (batches =? 0)%Z; [discriminate|].
    rewrite process_chunks_concat.
    now rewrite (proj1 (chunks_partition_all domains size Hsize)).
  - unfold chunksize in E. destruct (batches =? 0)%Z; [reflexivity | discriminate].
Qed.

(** A pass in which no task raises is the pass of the pool without
    exceptions. *)
Lemma process_chunk_yields (probe : string -> PoolOutcome) (chunk : list string) :
  forall results,
    (forall d, In d chunk -> task d = Yields (probe d)) ->
    process_chunk task results chunk = Some (PresencePool.process_chunk probe results chunk).
Proof.
  induction chunk as [|d chunk IH]; intros results H; [reflexivity|].
  cbn [process_chunk]. rewrite (H d (or_introl eq_refl)).
  unfold PresencePool.process_chunk. cbn [fold_left]. apply IH.
  intros d' Hd'. apply H. now right.
Qed.

(** A pass returns exactly when no task raises. *)
Lemma process_chunk_returns (chunk : list string) :
  forall results,
    process_chunk task results chunk <> None
    <-> forallb (fun d => yields (task d)) chunk = true.
Proof.
  induction chunk as [|d chunk IH]; intros results; cbn [process_chunk forallb].
  - split; [reflexivity | discriminate].
  - destruct (task d) as [o|]; cbn [yields andb]; [apply IH|].
    split; [congruence | discriminate].
Qed.

Lemma process_chunk_run_filed (chunk : list string) :
  forall results results',
    process_chunk task results chunk = Some results' ->
    filed results' = filed results + length chunk.
Proof.
  induction chunk as [|d chunk IH]; intros results results'; cbn [process_chunk length].
  - intros [= <-]. lia.
  - destruct (task d) as [o|]; [|discriminate]. intros H.
    rewrite (IH _ _ H), categorize_filed. lia.
Qed.

(** X2.  Batching does not change the outcome of [crawl_domains]: a batch count
    of 0 raises (the division by zero); any other batch count gives what one
    pass over the domain list in submission order gives.  When no task raises
    anything but a timeout or crash, these are the buckets filed one domain
    after the other; when the task of some domain re-raises a worker's
    exception, the call raises and returns no buckets. *)
Theorem crawl_domains_batches_irrelevant (domains : list string) (batches : Z) :
  crawl_domains task domains 0 = None
  /\ (batches <> 0%Z ->
      crawl_domains task domains batches = crawl_domains task domains 1
      /\ crawl_domains task domains batches = process_chunk task empty_results domains
      /\ (forall probe,
            (forall d, In d domains -> task d = Yields (probe d)) ->
            crawl_domains task domains batches
            = Some (PresencePool.process_chunk probe empty_results domains))
      /\ ((exists d, In d domains /\ task d = Reraises) ->
          crawl_domains task domains batches = None)).
Proof.
  split; [now rewrite crawl_domains_run_one_pass|].
  intros Hb. rewrite !crawl_domains_run_one_pass.
  apply Z.eqb_neq in Hb. rewrite Hb. cbn [Z.eqb].
  split; [reflexivity|]. split; [reflexivity|]. split.
  - intros probe H. now apply process_chunk_yields.
  - intros [d [Hin Hd]].
    destruct (process_chunk task empty_results domains) as [results|] eqn:E; [|reflexivity].
    assert (Hret : process_chunk task empty_results domains <> None) by congruence.
    apply process_chunk_returns in Hret. rewrite forallb_forall in Hret.
    specialize (Hret d Hin). rewrite Hd in Hret. discriminate.
Qed.

(** X3.  When [crawl_domains] returns, every submitted domain has been filed in
    exactly one bucket: the sizes of the eight buckets add up to the number of
    domains, whatever the probes return and however many tasks time out or
    crash.  It returns exactly when the batch count is not 0 and no task
    re-raises a worker's exception. *)
Theorem crawl_domains_files_every_domain (domains : list string) (batches : Z) :
  (forall results,
     crawl_domains task domains batches = Some results ->
     filed results = length domains)
  /\ (crawl_domains task domains batches <> None
      <-> batches <> 0%Z /\ forallb (fun d => yields (task d)) domains = true).
Proof.
  rewrite crawl_domains_run_one_pass. split.
  - intros results. destruct (batches =? 0)%Z; [discriminate|].
    intros H. now rewrite (process_chunk_run_filed _ _ _ H).
  - destruct (batches =? 0)%Z eqn:Eb.
    + apply Z.eqb_eq in Eb. split; [congruence | intros [H _]; congruence].
    + apply Z.eqb_neq in Eb. rewrite process_chunk_returns. tauto.
Qed.

End Run.

Lemma crawl_domains_batches_irrelevant_witness :
  crawl_domains (fun _ => Yields Expired) ["a.example"; "b.example"; "c.example"] 2
  = crawl_domains (fun _ => Yields Expired) ["a.example"; "b.example"; "c.example"] 1
  /\ crawl_domains example_task ["a.example"; "http://[::1"; "c.example"] 2 = None.
Proof.
  split.
  - refine (proj1 (proj2 (crawl_domains_batches_irrelevant (fun _ => Yields Expired)
                            ["a.example"; "b.example"; "c.example"] 2) _)).
    discriminate.
  - refine (proj2 (proj2 (proj2 (proj2 (crawl_domains_batches_irrelevant example_task
                            ["a.example"; "http://[::1"; "c.example"] 2) _))) _).
    + discriminate.
    + exists "http://[::1". split; [right; now left | reflexivity].
Defined.

Lemma crawl_domains_files_every_domain_witness :
  option_map filed (crawl_domains (fun _ => Yields Expired) ["a.example"; "b.example"] 1)
  = Some 2.
Proof.
  destruct (crawl_domains (fun _ => Yields Expired) ["a.example"; "b.example"] 1)
    as [results|] eqn:E; [|discriminate E].
  cbn [option_map]. f_equal.
  exact (proj1 (crawl_domains_files_every_domain (fun _ => Yields Expired)
                  ["a.example"; "b.example"] 1) results E).
Defined.

End PoolRunProps.
